(** * spork: worktree provisioning pipeline

    A shallow embedding of the Python package [spork] (modules
    [worktree], [data_models], [git_operations], [validators], [claude],
    [env_files] and [cli]) together with the properties that its
    specification states about it.

    Conventions of the embedding.
    - A Python [str] is a [list ascii]; a character is read as the code
      point of the same number (0..255), on which [str.lower], the regex
      classes and [str.isalnum] are written out below.  Text with a
      character above 255 is outside the embedding; there [str.lower] can
      change the number of characters.
    - A Python [int] is a [Z].
    - A [pathlib.Path] is the list of its components below the filesystem
      root.
    - Exceptions are values of [Exn]; code that can raise lives in the
      monad [M], which threads the filesystem and the log of externally
      visible events.
    - An external process answers in one of three ways: it ends with a
      status and output that decodes, it is not found, or it runs into
      the timeout.  An executable that is found but cannot be run, and
      output that does not decode, make [subprocess.run] raise other
      exceptions; these answers are outside the embedding, and so are
      directories that cannot be searched. *)

From Stdlib Require Import List Ascii ZArith Lia Bool Arith.
From Stdlib Require Import Sorting.Sorted Sorting.Permutation.
From Stdlib Require String Numbers.DecimalString.
Import ListNotations String.StringSyntax.
Delimit Scope string_scope with string.

(* ================================================================== *)
(** * Python strings *)
(* ================================================================== *)

Module Str.

Definition str := list ascii.

(** String literals are written with [s "..."]. *)
Definition s (x : String.string) : str := String.list_ascii_of_string x.
Arguments s x%_string.

Definition code (c : ascii) : nat := nat_of_ascii c.

Definition in_range (lo hi : nat) (c : ascii) : bool :=
  (lo <=? code c) && (code c <=? hi).

Definition is_hyphen (c : ascii) : bool := Ascii.eqb c "-"%char.
Definition is_ascii_lower (c : ascii) : bool := in_range 97 122 c.
Definition is_ascii_upper (c : ascii) : bool := in_range 65 90 c.
(** [\d] on code points below 256: only the ASCII digits are decimal digits. *)
Definition is_digit (c : ascii) : bool := in_range 48 57 c.

(** Upper-case letters of the Latin-1 supplement: U+00C0..U+00DE without
    the multiplication sign U+00D7. *)
Definition is_latin1_upper (c : ascii) : bool :=
  in_range 192 222 c && negb (code c =? 215).

(** [str.lower] on one character: the upper-case letters lie 32 below
    their lower-case forms. *)
Definition lower_char (c : ascii) : ascii :=
  if is_ascii_upper c || is_latin1_upper c then ascii_of_nat (code c + 32) else c.

Definition lower (x : str) : str := map lower_char x.

(** [x.replace(old, new)] for one-character [old] and [new]. *)
Definition replace (old new : ascii) (x : str) : str :=
  map (fun c => if Ascii.eqb c old then new else c) x.

(** The character class [[a-z0-9-]]. *)
Definition in_class (c : ascii) : bool :=
  is_ascii_lower c || is_digit c || is_hyphen c.

(** [re.sub(r"[^a-z0-9-]", "-", x)] *)
Definition sub_outside_class (x : str) : str :=
  map (fun c => if in_class c then c else "-"%char) x.

(** [re.sub(r"-+", "-", x)]: of every maximal run of hyphens one is kept. *)
Fixpoint sub_hyphen_runs (x : str) : str :=
  match x with
  | [] => []
  | c :: t =>
      match t with
      | c' :: _ =>
          if is_hyphen c && is_hyphen c' then sub_hyphen_runs t
          else c :: sub_hyphen_runs t
      | [] => [c]
      end
  end.

(** [x.lstrip("-")] *)
Fixpoint lstrip_hyphen (x : str) : str :=
  match x with
  | [] => []
  | c :: t => if is_hyphen c then lstrip_hyphen t else x
  end.

(** [x.rstrip("-")] *)
Fixpoint rstrip_hyphen (x : str) : str :=
  match x with
  | [] => []
  | c :: t =>
      match rstrip_hyphen t with
      | [] => if is_hyphen c then [] else [c]
      | t' => c :: t'
      end
  end.

(** [x.strip("-")] *)
Definition strip_hyphen (x : str) : str := rstrip_hyphen (lstrip_hyphen x).

Definition len (x : str) : Z := Z.of_nat (length x).

(** The slice [x[:stop]]; a negative [stop] counts from the end. *)
Definition slice_to (x : str) (stop : Z) : str :=
  if (stop <? 0)%Z then firstn (Z.to_nat (Z.max 0 (len x + stop))) x
  else firstn (Z.to_nat stop) x.

(** ASCII white space and the Latin-1 characters that [str.strip] and
    [str.isspace] treat as white space (U+001C..U+001F, U+0085, U+00A0). *)
Definition is_space (c : ascii) : bool :=
  in_range 9 13 c || in_range 28 32 c || (code c =? 133) || (code c =? 160).

Fixpoint lstrip_space (x : str) : str :=
  match x with
  | [] => []
  | c :: t => if is_space c then lstrip_space t else x
  end.

Fixpoint rstrip_space (x : str) : str :=
  match x with
  | [] => []
  | c :: t =>
      match rstrip_space t with
      | [] => if is_space c then [] else [c]
      | t' => c :: t'
      end
  end.

(** [x.strip()] *)
Definition strip (x : str) : str := rstrip_space (lstrip_space x).

Definition eqb (x y : str) : bool :=
  if list_eq_dec ascii_dec x y then true else false.

Fixpoint starts_with (p x : str) : bool :=
  match p, x with
  | [], _ => true
  | _ :: _, [] => false
  | a :: p', b :: x' => Ascii.eqb a b && starts_with p' x'
  end.

(** [p in x] on strings: [p] occurs as a substring of [x]. *)
Fixpoint contains (p x : str) : bool :=
  starts_with p x ||
  match x with
  | [] => false
  | _ :: t => contains p t
  end.

(** [x.split(sep)] for a one-character separator: never the empty list. *)
Fixpoint split (sep : ascii) (x : str) : list str :=
  match x with
  | [] => [[]]
  | c :: t =>
      if Ascii.eqb c sep then [] :: split sep t
      else match split sep t with
           | [] => [[c]]
           | h :: r => (c :: h) :: r
           end
  end.

(** [sep.join(parts)] *)
Fixpoint join (sep : str) (parts : list str) : str :=
  match parts with
  | [] => []
  | [p] => p
  | p :: rest => p ++ sep ++ join sep rest
  end.

(** [str(n)] for an [int]. *)
Definition of_Z (n : Z) : str :=
  String.list_ascii_of_string
    (DecimalString.NilZero.string_of_int (Z.to_int n)).

(** Lexicographic comparison of strings by code point: [x <= y]. *)
Fixpoint leb (x y : str) : bool :=
  match x, y with
  | [], _ => true
  | _ :: _, [] => false
  | a :: x', b :: y' =>
      (code a <? code b) || ((code a =? code b) && leb x' y')
  end.

End Str.

Import Str.

(* ================================================================== *)
(** * worktree.sanitize_feature_name *)
(* ================================================================== *)

Definition sanitize_feature_name (name : str) (max_length : Z) : str :=
  let sanitized := lower name in
  let sanitized := replace "_" "-" sanitized in
  let sanitized := replace " " "-" sanitized in
  let sanitized := sub_outside_class sanitized in
  let sanitized := sub_hyphen_runs sanitized in
  let sanitized := strip_hyphen sanitized in
  if (len sanitized >? max_length)%Z
  then rstrip_hyphen (slice_to sanitized max_length)
  else sanitized.

Definition default_max_length : Z := 50.


(* ================================================================== *)
(** * Exceptions *)
(* ================================================================== *)

Inductive Exn : Type :=
| ValueError (msg : str)
| ValidationError (msg : str)        (* pydantic; a subclass of ValueError *)
| UnicodeDecodeError (msg : str)     (* a subclass of ValueError *)
| RuntimeError (msg : str)
| FileNotFoundError (msg : str)
| FileExistsError (msg : str)
| NotADirectoryError (msg : str)
| IsADirectoryError (msg : str)
| PermissionError (msg : str)
| CalledProcessError (returncode : Z) (stderr : str)
| TimeoutExpired (msg : str)
| SystemExit (code : Z).

(** [except ValueError] *)
Definition is_ValueError (e : Exn) : bool :=
  match e with
  | ValueError _ | ValidationError _ | UnicodeDecodeError _ => true
  | _ => false
  end.

(** [except RuntimeError] *)
Definition is_RuntimeError (e : Exn) : bool :=
  match e with RuntimeError _ => true | _ => false end.

(** [except Exception]: everything but [SystemExit], a [BaseException]. *)
Definition is_Exception (e : Exn) : bool :=
  match e with SystemExit _ => false | _ => true end.

(** [str(e)].  The texts of the exceptions that the library raises are
    schematic: the errno, the quotes around a path, and the byte and
    position of a decoding error are left out. *)
Definition str_of_exn (e : Exn) : str :=
  match e with
  | ValueError m | ValidationError m | UnicodeDecodeError m | RuntimeError m
  | FileNotFoundError m | FileExistsError m | NotADirectoryError m
  | IsADirectoryError m | PermissionError m | TimeoutExpired m => m
  | CalledProcessError rc _ =>
      s "Command returned non-zero exit status " ++ of_Z rc ++ s "."
  | SystemExit c => of_Z c
  end.

Inductive Res (A : Type) : Type :=
| Ok (a : A)
| Raise (e : Exn).
Arguments Ok {A} a.
Arguments Raise {A} e.

(* ================================================================== *)
(** * data_models *)
(* ================================================================== *)

(** [f"{n:03d}"]: sign-aware zero padding to width 3. *)
Definition format_03d (n : Z) : str :=
  let digits := of_Z (Z.abs n) in
  let sign := if (n <? 0)%Z then ["-"%char] else [] in
  sign ++ repeat "0"%char (3 - length sign - length digits) ++ digits.

Record FeatureNumber : Type := mkFeatureNumber {
  number : Z;
  formatted : str
}.

(** The field pattern [^\d{3}$] of [FeatureNumber.formatted]. *)
Definition matches_three_digits (x : str) : bool :=
  match x with
  | [a; b; c] => is_digit a && is_digit b && is_digit c
  | _ => false
  end.

(** [FeatureNumber(number=..., formatted=...)] with its field constraints
    and [validate_formatted_matches_number]. *)
Definition FeatureNumber_new (number : Z) (formatted : str) : Res FeatureNumber :=
  if negb ((1 <=? number)%Z && (number <=? 999)%Z)
  then Raise (ValidationError (s "number: out of range"))
  else if negb (matches_three_digits formatted)
  then Raise (ValidationError (s "formatted: string does not match pattern"))
  else if negb (Str.eqb formatted (format_03d number))
  then Raise (ValidationError
                (s "formatted '" ++ formatted ++ s "' must match number "
                 ++ format_03d number))
  else Ok (mkFeatureNumber number formatted).

(** [c.isalnum()] on code points below 256: letters, digits, and the
    numeric characters of the Latin-1 supplement. *)
Definition isalnum (c : ascii) : bool :=
  is_ascii_lower c || is_ascii_upper c || is_digit c
  || (code c =? 170) || (code c =? 178) || (code c =? 179) || (code c =? 181)
  || (code c =? 185) || (code c =? 186) || in_range 188 190 c
  || in_range 192 214 c || in_range 216 246 c || in_range 248 255 c.

Record FeatureRequest : Type := mkFeatureRequest {
  text : str;
  sanitized_name : str;
  max_length : Z
}.

(** [FeatureRequest(text=..., sanitized_name=...)]: length constraints of
    both fields and [validate_sanitized_name]; [max_length] takes its
    default. *)
Definition FeatureRequest_new (text sanitized_name : str) : Res FeatureRequest :=
  if negb ((1 <=? len text)%Z && (len text <=? 500)%Z)
  then Raise (ValidationError (s "text: length out of range"))
  else if negb ((1 <=? len sanitized_name)%Z && (len sanitized_name <=? 50)%Z)
  then Raise (ValidationError (s "sanitized_name: length out of range"))
  else if negb (forallb (fun c => isalnum c || Ascii.eqb c "-"%char) sanitized_name)
  then Raise (ValidationError
                (s "Sanitized name must contain only alphanumeric and hyphens"))
  else Ok (mkFeatureRequest text sanitized_name 50).

Record ValidationResult : Type := mkValidationResult {
  check_name : str;
  passed : bool;
  error_message : option str;
  suggestion : option str
}.

(** Truthiness of an [Optional[str]]. *)
Definition truthy (x : option str) : bool :=
  match x with
  | Some (_ :: _) => true
  | _ => false
  end.

(** [ValidationResult(...)] with [validate_error_message]. *)
Definition ValidationResult_new (check_name : str) (passed : bool)
    (error_message suggestion : option str) : Res ValidationResult :=
  if negb passed && negb (truthy error_message)
  then Raise (ValidationError (s "error_message required when passed=False"))
  else Ok (mkValidationResult check_name passed error_message suggestion).

Definition Path := list str.

Record WorktreeConfig : Type := mkWorktreeConfig {
  branch_name : str;
  directory_path : Path;
  base_branch : str;
  feature_number : FeatureNumber;
  feature_request : FeatureRequest
}.

Record EnvFileCopyResult : Type := mkEnvFileCopyResult {
  files_discovered : Z;
  files_copied : Z;
  files_failed : Z;
  errors : list str
}.

(** [EnvFileCopyResult(...)] with the [ge=0] constraints and
    [validate_counts]. *)
Definition EnvFileCopyResult_new (files_discovered files_copied files_failed : Z)
    (errors : list str) : Res EnvFileCopyResult :=
  if negb ((0 <=? files_discovered)%Z && (0 <=? files_copied)%Z
           && (0 <=? files_failed)%Z)
  then Raise (ValidationError (s "count: must be greater than or equal to 0"))
  else if (files_copied + files_failed >? files_discovered)%Z
  then Raise (ValidationError
                (s "Copied (" ++ of_Z files_copied ++ s ") + Failed ("
                 ++ of_Z files_failed ++ s ") cannot exceed Discovered ("
                 ++ of_Z files_discovered ++ s ")"))
  else Ok (mkEnvFileCopyResult files_discovered files_copied files_failed errors).

Definition success (r : EnvFileCopyResult) : bool :=
  (files_failed r =? 0)%Z && (files_discovered r >? 0)%Z.

Definition partial_success (r : EnvFileCopyResult) : bool :=
  (files_copied r >? 0)%Z && (files_failed r >? 0)%Z.

(* ================================================================== *)
(** * worktree.get_next_feature_number *)
(* ================================================================== *)

(** [re.compile(r"^(\d{3})-").match(name)]: the first group when the name
    matches. *)
Definition pattern_match (name : str) : option str :=
  match name with
  | d1 :: d2 :: d3 :: h :: _ =>
      if is_digit d1 && is_digit d2 && is_digit d3 && is_hyphen h
      then Some [d1; d2; d3] else None
  | _ => None
  end.

(** [int(x)] for a string of decimal digits. *)
Definition int_of_digits (x : str) : Z :=
  fold_left (fun acc c => (acc * 10 + Z.of_nat (code c - 48))%Z) x 0%Z.

(** [max(xs)] for a non-empty list. *)
Definition py_max (xs : list Z) : Z :=
  match xs with
  | [] => 0%Z
  | x :: t => fold_left Z.max t x
  end.

(** The loop of [get_next_feature_number] that fills [feature_numbers]. *)
Definition collect_feature_numbers (branches : list str) : list Z :=
  fold_left
    (fun feature_numbers branch =>
       let branch_name := last (split "/" branch) [] in
       match pattern_match branch_name with
       | Some group1 => feature_numbers ++ [int_of_digits group1]
       | None => feature_numbers
       end)
    branches [].

Definition get_next_feature_number (branches : list str) : Res FeatureNumber :=
  let feature_numbers := collect_feature_numbers branches in
  let next_number :=
    match feature_numbers with
    | [] => 1%Z
    | _ => (py_max feature_numbers + 1)%Z
    end in
  if (next_number >? 999)%Z
  then Raise (ValueError (s "Feature number " ++ of_Z next_number
                          ++ s " exceeds maximum of 999"))
  else FeatureNumber_new next_number (format_03d next_number).

(* ================================================================== *)
(** * Paths and the filesystem *)
(* ================================================================== *)

(** A [Path] is its tuple of [parts]; an absolute path starts with the
    part ["/"].  Paths hold no [".."], no path starts with exactly two
    slashes, and the filesystem holds no symbolic links. *)

Definition root_part : str := s "/".

(** [Path(x)] *)
Definition Path_of_str (x : str) : Path :=
  let comps :=
    filter (fun c => negb (Str.eqb c []) && negb (Str.eqb c (s ".")))
           (split "/" x) in
  if starts_with root_part x then root_part :: comps else comps.

(** [str(p)] *)
Definition str_of_path (p : Path) : str :=
  match p with
  | [] => s "."
  | r :: rest =>
      if Str.eqb r root_part then root_part ++ join (s "/") rest
      else join (s "/") p
  end.

(** [p / x] *)
Definition path_join (p : Path) (x : str) : Path :=
  if starts_with root_part x then Path_of_str x else p ++ Path_of_str x.

(** [p.parent] *)
Definition path_parent (p : Path) : Path :=
  match p with
  | [r] => if Str.eqb r root_part then p else []
  | _ => removelast p
  end.

(** What a file holds: text that decodes as UTF-8, or bytes that do not. *)
Inductive Content : Type :=
| Text (t : str)
| Undecodable.

#[warnings="-register-all"]
Inductive Node : Type :=
| File (readable writable : bool) (content : Content)
| Dir (writable : bool) (entries : list (str * Node))
| Special.                       (* device, socket, fifo *)

Fixpoint assoc (k : str) (es : list (str * Node)) : option Node :=
  match es with
  | [] => None
  | (k', n) :: r => if Str.eqb k k' then Some n else assoc k r
  end.

(** The node reached from [n] along the components [p]. *)
Fixpoint fs_lookup (n : Node) (p : list str) : option Node :=
  match p with
  | [] => Some n
  | c :: p' =>
      match n with
      | Dir _ es =>
          match assoc c es with
          | Some child => fs_lookup child p'
          | None => None
          end
      | _ => None
      end
  end.

Fixpoint set_entry (k : str) (v : Node) (es : list (str * Node))
  : list (str * Node) :=
  match es with
  | [] => [(k, v)]
  | (k', n) :: r => if Str.eqb k k' then (k, v) :: r else (k', n) :: set_entry k v r
  end.

(** Put [new] at [p] below [n]; the directories on the way exist. *)
Fixpoint fs_put (n : Node) (p : list str) (new : Node) : Node :=
  match p with
  | [] => new
  | c :: p' =>
      match n with
      | Dir w es =>
          match assoc c es with
          | Some child => Dir w (set_entry c (fs_put child p' new) es)
          | None => match p' with
                    | [] => Dir w (set_entry c new es)
                    | _ => n
                    end
          end
      | _ => n
      end
  end.

(* ================================================================== *)
(** * The world outside the program *)
(* ================================================================== *)

Inductive ProcResult : Type :=
| Completed (returncode : Z) (stdout stderr : str)
| NotFound                       (* the executable cannot be started *)
| TimedOut.                      (* no answer within the timeout *)

(** What the collaborators answer: an external process sees its argument
    vector, its working directory and the filesystem, and may change the
    filesystem.  The log keeps every command with the answer it got. *)
Record World : Type := mkWorld {
  run_process : list str -> option str -> Node -> ProcResult * Node;
  getcwd : Path
}.

Inductive Event : Type :=
| EvRun (argv : list str) (cwd : option str) (answer : ProcResult)
| EvEcho (err : bool) (msg : str)
| EvMkdir (p : Path)
| EvWrite (p : Path) (data : str).

Record State : Type := mkState {
  fs : Node;
  log : list Event
}.

(* ================================================================== *)
(** * The monad of effectful code *)
(* ================================================================== *)

Definition M (A : Type) : Type := State -> Res A * State.

Definition ret {A} (a : A) : M A := fun st => (Ok a, st).

Definition bind {A B} (m : M A) (k : A -> M B) : M B :=
  fun st =>
    match m st with
    | (Ok a, st') => k a st'
    | (Raise e, st') => (Raise e, st')
    end.

Definition raise {A} (e : Exn) : M A := fun st => (Raise e, st).

Definition lift {A} (r : Res A) : M A := fun st => (r, st).

(** [try: m except <classes of handles>: h e] *)
Definition try_except {A} (m : M A) (handles : Exn -> bool) (h : Exn -> M A) : M A :=
  fun st =>
    match m st with
    | (Ok a, st') => (Ok a, st')
    | (Raise e, st') => if handles e then h e st' else (Raise e, st')
    end.

Declare Scope monad_scope.
Delimit Scope monad_scope with monad.
Notation "x <- m ;; k" := (bind m (fun x => k))
  (at level 61, m at next level, right associativity) : monad_scope.
Notation "m ;; k" := (bind m (fun _ => k))
  (at level 61, right associativity) : monad_scope.
Open Scope monad_scope.

Definition emit (e : Event) : M unit :=
  fun st => (Ok tt, mkState (fs st) (log st ++ [e])).

Definition get_fs : M Node := fun st => (Ok (fs st), st).
Definition set_fs (n : Node) : M unit := fun st => (Ok tt, mkState n (log st)).

(** [click.echo(msg)] and [click.echo(msg, err=True)] *)
Definition echo (msg : str) : M unit := emit (EvEcho false msg).
Definition echo_err (msg : str) : M unit := emit (EvEcho true msg).

(** [sys.exit(code)] *)
Definition sys_exit {A} (code : Z) : M A := raise (SystemExit code).

(** [if c: m] *)
Definition when (c : bool) (m : M unit) : M unit := if c then m else ret tt.

Record CompletedProcess : Type := mkCompletedProcess {
  returncode : Z;
  stdout : str;
  stderr : str
}.

(** [subprocess.run(argv, cwd=cwd, check=check, timeout=...)].  The answer
    [TimedOut] raises [TimeoutExpired]; a call without a timeout is one the
    world answers otherwise.  The [PermissionError] of an executable that
    cannot be run and the [UnicodeDecodeError] of output that does not
    decode are not among the answers. *)
Definition subprocess_run (w : World) (argv : list str) (cwd : option str)
    (check : bool) : M CompletedProcess :=
  root <- get_fs ;;
  let (r, root') := run_process w argv cwd root in
  set_fs root' ;;
  emit (EvRun argv cwd r) ;;
  match r with
  | Completed rc out err =>
      if check && negb (rc =? 0)%Z then raise (CalledProcessError rc err)
      else ret (mkCompletedProcess rc out err)
  | NotFound =>
      raise (FileNotFoundError
               (s "No such file or directory: " ++ hd [] argv))
  | TimedOut => raise (TimeoutExpired (s "Command timed out"))
  end.

(** The components of [p] below the filesystem root. *)
Definition resolve (w : World) (p : Path) : list str :=
  match p with
  | r :: rest => if Str.eqb r root_part then rest else tl (getcwd w) ++ p
  | [] => tl (getcwd w)
  end.

(** What lies at [p]; every directory on the way can be searched, so the
    lookup itself does not raise. *)
Definition stat (w : World) (p : Path) : M (option Node) :=
  root <- get_fs ;; ret (fs_lookup root (resolve w p)).

(** [p.exists()], [p.is_dir()], [p.is_file()] *)
Definition path_exists (w : World) (p : Path) : M bool :=
  n <- stat w p ;; ret (match n with Some _ => true | None => false end).
Definition path_is_dir (w : World) (p : Path) : M bool :=
  n <- stat w p ;; ret (match n with Some (Dir _ _) => true | _ => false end).
Definition path_is_file (w : World) (p : Path) : M bool :=
  n <- stat w p ;; ret (match n with Some (File _ _ _) => true | _ => false end).

(** Universal newlines of text-mode reading: ["\r\n"] and ["\r"] are read
    as ["\n"]. *)
Fixpoint translate_newlines (x : str) : str :=
  match x with
  | [] => []
  | c :: t =>
      if Ascii.eqb c "013"%char then
        match t with
        | c' :: t' =>
            if Ascii.eqb c' "010"%char then "010"%char :: translate_newlines t'
            else "010"%char :: translate_newlines t
        | [] => ["010"%char]
        end
      else c :: translate_newlines t
  end.

(** [p.read_text(encoding="utf-8")] *)
Definition read_text (w : World) (p : Path) : M str :=
  n <- stat w p ;;
  match n with
  | None => raise (FileNotFoundError (s "No such file or directory: " ++ str_of_path p))
  | Some (Dir _ _) => raise (IsADirectoryError (s "Is a directory: " ++ str_of_path p))
  | Some Special => raise (PermissionError (s "Permission denied: " ++ str_of_path p))
  | Some (File readable _ content) =>
      if negb readable
      then raise (PermissionError (s "Permission denied: " ++ str_of_path p))
      else match content with
           | Text t => ret (translate_newlines t)
           | Undecodable =>
               raise (UnicodeDecodeError
                        (s "'utf-8' codec can't decode byte: invalid start byte"))
           end
  end.

(** [p.write_text(data, encoding="utf-8")]: creates the file or replaces
    its content. *)
Definition write_text (w : World) (p : Path) (data : str) : M unit :=
  root <- get_fs ;;
  let denied := PermissionError (s "Permission denied: " ++ str_of_path p) in
  match fs_lookup root (resolve w p) with
  | Some (Dir _ _) => raise (IsADirectoryError (s "Is a directory: " ++ str_of_path p))
  | Some Special => raise denied
  | Some (File r writable _) =>
      if negb writable then raise denied
      else set_fs (fs_put root (resolve w p) (File r true (Text data))) ;;
           emit (EvWrite p data)
  | None =>
      match resolve w p with
      | [] => raise (IsADirectoryError (s "Is a directory: " ++ str_of_path p))
      | _ =>
          match fs_lookup root (removelast (resolve w p)) with
          | Some (Dir true _) =>
              set_fs (fs_put root (resolve w p) (File true true (Text data))) ;;
              emit (EvWrite p data)
          | Some (Dir false _) => raise denied
          | Some _ => raise (NotADirectoryError (s "Not a directory: " ++ str_of_path p))
          | None => raise (FileNotFoundError
                             (s "No such file or directory: " ++ str_of_path p))
          end
      end
  end.

(** One step of [mkdir_parents]: the directory [done ++ [c]] below the
    root exists afterwards or the step raises; [final] tells the last
    component from those on the way. *)
Definition mkdir_step (p : Path) (done : list str) (c : str) (final : bool) : M unit :=
  root <- get_fs ;;
  match fs_lookup root (done ++ [c]) with
  | Some (Dir _ _) => ret tt
  | Some _ =>
      if final then raise (FileExistsError (s "File exists: " ++ str_of_path p))
      else raise (NotADirectoryError (s "Not a directory: " ++ str_of_path p))
  | None =>
      match fs_lookup root done with
      | Some (Dir true _) => set_fs (fs_put root (done ++ [c]) (Dir true []))
      | Some (Dir false _) =>
          raise (PermissionError (s "Permission denied: " ++ str_of_path p))
      | _ => raise (NotADirectoryError (s "Not a directory: " ++ str_of_path p))
      end
  end.

Fixpoint mkdir_from (p : Path) (done todo : list str) : M unit :=
  match todo with
  | [] => ret tt
  | c :: todo' =>
      mkdir_step p done c (match todo' with [] => true | _ => false end) ;;
      mkdir_from p (done ++ [c]) todo'
  end.

(** [p.mkdir(parents=True, exist_ok=True)]: every missing directory on the
    way to [p] is created, from the root downwards. *)
Definition mkdir_parents (w : World) (p : Path) : M unit :=
  emit (EvMkdir p) ;; mkdir_from p [] (resolve w p).

(* ================================================================== *)
(** * git_operations *)
(* ================================================================== *)

(** [except (CalledProcessError, FileNotFoundError, TimeoutExpired)] *)
Definition is_process_error (e : Exn) : bool :=
  match e with
  | CalledProcessError _ _ | FileNotFoundError _ | TimeoutExpired _ => true
  | _ => false
  end.

Definition is_CalledProcessError (e : Exn) : bool :=
  match e with CalledProcessError _ _ => true | _ => false end.

Definition stderr_of (e : Exn) : str :=
  match e with CalledProcessError _ err => err | _ => [] end.

Module git_operations.

Definition is_git_installed (w : World) : M bool :=
  try_except
    (result <- subprocess_run w [s "git"; s "--version"] None true ;;
     ret (returncode result =? 0)%Z)
    is_process_error
    (fun _ => ret false).

Definition is_git_repository (w : World) (path : Path) : M bool :=
  try_except
    (result <- subprocess_run w
                 [s "git"; s "-C"; str_of_path path; s "rev-parse";
                  s "--is-inside-work-tree"] None true ;;
     ret ((returncode result =? 0)%Z && Str.eqb (strip (stdout result)) (s "true")))
    is_process_error
    (fun _ => ret false).

Definition get_repo_root (w : World) : M Path :=
  try_except
    (result <- subprocess_run w
                 [s "git"; s "rev-parse"; s "--show-toplevel"] None true ;;
     ret (Path_of_str (strip (stdout result))))
    is_process_error
    (fun e =>
       if is_CalledProcessError e then
         if contains (s "not a git repository") (lower (stderr_of e))
         then raise (RuntimeError (s "not a git repository"))
         else raise (RuntimeError (s "Git operation failed: " ++ stderr_of e))
       else raise (RuntimeError (s "Git operation failed: " ++ str_of_exn e))).

Definition get_main_branch (w : World) : M str :=
  found <- try_except
             (subprocess_run w
                [s "git"; s "rev-parse"; s "--verify"; s "main"] None true ;;
              ret true)
             is_CalledProcessError
             (fun _ => ret false) ;;
  if found : bool then ret (s "main") else
  found <- try_except
             (subprocess_run w
                [s "git"; s "rev-parse"; s "--verify"; s "master"] None true ;;
              ret true)
             is_CalledProcessError
             (fun _ => ret false) ;;
  if found : bool then ret (s "master") else
  raise (RuntimeError (s "neither 'main' nor 'master' branch found")).

Definition git_fetch (w : World) : M bool :=
  try_except
    (subprocess_run w [s "git"; s "fetch"] None true ;; ret true)
    is_process_error
    (fun _ => ret false).

Definition list_all_branches (w : World) : M (list str) :=
  try_except
    (result <- subprocess_run w
                 [s "git"; s "branch"; s "-a"; s "--format=%(refname:short)"]
                 None true ;;
     let branches := split "010" (strip (stdout result)) in
     ret (filter (fun b => negb (Str.eqb b [])) branches))
    is_process_error
    (fun _ => ret []).

Definition create_worktree (w : World) (path : Path) (branch_name base_branch : str)
  : M bool :=
  try_except
    (subprocess_run w
       [s "git"; s "worktree"; s "add"; str_of_path path; s "-b"; branch_name;
        base_branch] None true ;;
     ret true)
    is_process_error
    (fun e =>
       if is_CalledProcessError e then
         if contains (s "already exists") (stderr_of e)
         then raise (RuntimeError
                       (s "Branch or worktree already exists: " ++ stderr_of e))
         else if contains (s "Permission denied") (stderr_of e)
         then raise (RuntimeError (s "Permission denied: " ++ stderr_of e))
         else raise (RuntimeError
                       (s "Git worktree creation failed: " ++ stderr_of e))
       else raise (RuntimeError
                     (s "Git worktree creation failed: " ++ str_of_exn e))).

End git_operations.

(* ================================================================== *)
(** * claude *)
(* ================================================================== *)

Definition launch_claude_code (w : World) (worktree_path : Path)
    (feature_request : str) : M Z :=
  try_except
    (let initial_message := s "/specify " ++ feature_request in
     result <- subprocess_run w [s "claude"; initial_message]
                 (Some (str_of_path worktree_path)) false ;;
     ret (returncode result))
    is_Exception
    (fun _ => ret 4%Z).

(* ================================================================== *)
(** * validators *)
(* ================================================================== *)

(** Line boundaries of [str.splitlines] below code point 256. *)
Definition is_linebreak (c : ascii) : bool :=
  in_range 10 13 c || in_range 28 30 c || (code c =? 133).

Fixpoint splitlines_from (cur x : str) : list str :=
  match x with
  | [] => match cur with [] => [] | _ => [cur] end
  | c :: t =>
      if is_linebreak c then
        cur :: (if Ascii.eqb c "013"%char then
                  match t with
                  | c' :: t' =>
                      if Ascii.eqb c' "010"%char then splitlines_from [] t'
                      else splitlines_from [] t
                  | [] => splitlines_from [] t
                  end
                else splitlines_from [] t)
      else splitlines_from (cur ++ [c]) t
  end.

(** [x.splitlines()] *)
Definition splitlines (x : str) : list str := splitlines_from [] x.

Module validators.

Definition is_git_installed (w : World) : M ValidationResult :=
  try_except
    (subprocess_run w [s "git"; s "--version"] None true ;;
     lift (ValidationResult_new (s "git_installed") true None None))
    is_process_error
    (fun _ =>
       lift (ValidationResult_new (s "git_installed") false
               (Some (s "Git is not installed or not in PATH"))
               (Some (s "Install git: https://git-scm.com/downloads")))).

(** The test on one stripped line of [.gitignore]. *)
Definition ignores_specify (line : str) : bool :=
  existsb (Str.eqb line) [s ".specify/"; s ".specify"; s ".specify/*"]
  || starts_with (s ".specify/") line.

Definition spec_kit (passed : bool) (error_message suggestion : option str)
  : M ValidationResult :=
  lift (ValidationResult_new (s "spec_kit_on_main") passed error_message suggestion).

(** The body of the loop over [required_paths]; [None] when the path is
    in order. *)
Definition check_required_path (w : World) (repo_path : Path) (main_branch git_path : str)
  : M (option ValidationResult) :=
  try_except
    (result <- subprocess_run w [s "git"; s "ls-tree"; git_path]
                 (Some (str_of_path repo_path)) false ;;
     if negb (returncode result =? 0)%Z || Str.eqb (strip (stdout result)) []
     then
       let path_name := last (split ":" git_path) [] in
       r <- spec_kit false
              (Some (s "Spec Kit incomplete on " ++ main_branch ++ s " branch ("
                     ++ path_name ++ s " missing)"))
              (Some (s "Run 'specify init .' and commit to " ++ main_branch
                     ++ s " branch")) ;;
       ret (Some r)
     else ret None)
    (fun e => is_CalledProcessError e
              || match e with TimeoutExpired _ => true | _ => false end)
    (fun _ =>
       r <- spec_kit false
              (Some (s "Could not verify Spec Kit structure on " ++ main_branch
                     ++ s " branch"))
              (Some (s "Ensure git is working properly")) ;;
       ret (Some r)).

Fixpoint check_required_paths (w : World) (repo_path : Path) (main_branch : str)
    (required_paths : list str) : M (option ValidationResult) :=
  match required_paths with
  | [] => ret None
  | git_path :: rest =>
      r <- check_required_path w repo_path main_branch git_path ;;
      match r with
      | Some failure => ret (Some failure)
      | None => check_required_paths w repo_path main_branch rest
      end
  end.

Definition is_spec_kit_initialized (w : World) (repo_path : Path) (main_branch : str)
  : M ValidationResult :=
  let gitignore_path := path_join repo_path (s ".gitignore") in
  ex <- path_exists w gitignore_path ;;
  ignored <- (if ex : bool then
                gitignore_content <- read_text w gitignore_path ;;
                ret (existsb (fun line => ignores_specify (strip line))
                             (splitlines gitignore_content))
              else ret false) ;;
  if ignored : bool then
    spec_kit false
      (Some (s "Spec Kit (.specify/) is listed in .gitignore"))
      (Some (s "Remove .specify/ from .gitignore to allow committing "
             ++ s "Spec Kit to the repository"))
  else
  shown <- try_except
             (result <- subprocess_run w
                          [s "git"; s "show";
                           main_branch ++ s ":.specify/memory/constitution.md"]
                          (Some (str_of_path repo_path)) false ;;
              if negb (returncode result =? 0)%Z then
                r <- spec_kit false
                       (Some (s "Spec Kit not found on " ++ main_branch ++ s " branch"))
                       (Some (s "Ensure Spec Kit is initialized and committed to "
                              ++ main_branch ++ s " branch "
                              ++ s "before creating feature worktrees")) ;;
                ret (Some r)
              else ret None)
             (fun e => is_CalledProcessError e
                       || match e with TimeoutExpired _ => true | _ => false end)
             (fun _ =>
                r <- spec_kit false
                       (Some (s "Could not verify Spec Kit on " ++ main_branch
                              ++ s " branch"))
                       (Some (s "Ensure git is working and you have network access")) ;;
                ret (Some r)) ;;
  match shown with
  | Some failure => ret failure
  | None =>
      let required_paths :=
        [main_branch ++ s ":.specify/templates";
         main_branch ++ s ":.specify/scripts"] in
      r <- check_required_paths w repo_path main_branch required_paths ;;
      match r with
      | Some failure => ret failure
      | None => spec_kit true None None
      end
  end.

Definition is_claude_code_installed (w : World) : M ValidationResult :=
  try_except
    (subprocess_run w [s "claude"; s "--version"] None true ;;
     lift (ValidationResult_new (s "claude_code_installed") true None None))
    is_process_error
    (fun _ =>
       lift (ValidationResult_new (s "claude_code_installed") false
               (Some (s "Claude Code not found in PATH"))
               (Some (s "Install Claude Code or add to PATH")))).

End validators.

(* ================================================================== *)
(** * env_files *)
(* ================================================================== *)

(** A loop with an accumulator whose body may raise. *)
Fixpoint for_each {A S} (xs : list A) (acc : S) (body : S -> A -> M S) : M S :=
  match xs with
  | [] => ret acc
  | x :: rest => acc' <- body acc x ;; for_each rest acc' body
  end.

(** The glob pattern [.env*] on one name. *)
Definition matches_dotenv (name : str) : bool := starts_with (s ".env") name.

(** [n.rglob(".env*")], as paths relative to [n]: the matching entries of
    a directory, then those of its subdirectories in turn. *)
Fixpoint rglob_dotenv (n : Node) : list Path :=
  match n with
  | Dir _ es =>
      map (fun e => [fst e]) (filter (fun e => matches_dotenv (fst e)) es)
      ++ flat_map (fun e => match e with
                            | (name, child) => map (cons name) (rglob_dotenv child)
                            end) es
  | _ => []
  end.

(** [x in parts] *)
Definition has_part (x : str) (parts : Path) : bool := existsb (Str.eqb x) parts.

Fixpoint insert_sorted (x : str) (l : list str) : list str :=
  match l with
  | [] => [x]
  | y :: r => if Str.leb x y then x :: l else y :: insert_sorted x r
  end.

(** [sorted(l)] on strings. *)
Definition sorted (l : list str) : list str := fold_right insert_sorted [] l.

(** The body of the discovery loop, for one path that [rglob] yields
    relative to the workspace. *)
Definition discover_step (w : World) (workspace_path : Path)
    (env_files : list str) (relative_path : Path) : M (list str) :=
  let file_path := workspace_path ++ relative_path in
  (* Skip files in .git directory and .worktrees directory *)
  if has_part (s ".git") file_path || has_part (s ".worktrees") file_path
  then ret env_files
  else
    (* Only include regular files (not directories) *)
    isf <- path_is_file w file_path ;;
    if isf : bool
    then
      (* Get relative path from workspace root *)
      ret (env_files ++ [str_of_path relative_path])
    else ret env_files.

Definition discover_env_files (w : World) (workspace_path : Path) : M (list str) :=
  ex <- path_exists w workspace_path ;;
  when (negb ex)
    (raise (ValueError (s "Workspace path does not exist: "
                        ++ str_of_path workspace_path))) ;;
  isd <- path_is_dir w workspace_path ;;
  when (negb isd)
    (raise (ValueError (s "Workspace path is not a directory: "
                        ++ str_of_path workspace_path))) ;;
  (* Recursively search for .env* files using glob pattern *)
  top <- stat w workspace_path ;;
  let found := match top with Some n => rglob_dotenv n | None => [] end in
  env_files <- for_each found [] (discover_step w workspace_path) ;;
  ret (sorted env_files).

Definition read_env_file_from_filesystem (w : World) (workspace_path : Path)
    (filepath : str) : M str :=
  ex <- path_exists w workspace_path ;;
  when (negb ex)
    (raise (ValueError (s "Workspace path does not exist: "
                        ++ str_of_path workspace_path))) ;;
  when (Str.eqb filepath [] || Str.eqb (strip filepath) [])
    (raise (ValueError (s "Filepath cannot be empty"))) ;;
  let file_path := path_join workspace_path filepath in
  ex <- path_exists w file_path ;;
  when (negb ex) (raise (FileNotFoundError (s "File not found: " ++ filepath))) ;;
  isf <- path_is_file w file_path ;;
  when (negb isf) (raise (ValueError (s "Path is not a file: " ++ filepath))) ;;
  (* Read file content as UTF-8 *)
  read_text w file_path.

(** The counters of the copy loop: [files_copied], [files_failed],
    [errors]. *)
Record Counters : Type := mkCounters {
  copied : Z;
  failed : Z;
  messages : list str
}.

(** The [try] block of the copy loop. *)
Definition copy_one (w : World) (repo_root worktree_path : Path) (filepath : str)
  : M unit :=
  (* Read file content from main workspace *)
  content <- read_env_file_from_filesystem w repo_root filepath ;;
  (* Determine destination path in worktree *)
  let dest_path := path_join worktree_path filepath in
  (* Create parent directories if needed *)
  mkdir_parents w (path_parent dest_path) ;;
  (* Write content (overwrites existing) *)
  write_text w dest_path content.

(** The body of the copy loop. *)
Definition copy_step (w : World) (repo_root worktree_path : Path)
    (c : Counters) (filepath : str) : M Counters :=
  try_except
    (copy_one w repo_root worktree_path filepath ;;
     ret (mkCounters (copied c + 1) (failed c) (messages c)))
    is_Exception
    (fun e =>
       let error_msg := s "Failed to copy " ++ filepath ++ s ": " ++ str_of_exn e in
       ret (mkCounters (copied c) (failed c + 1) (messages c ++ [error_msg]))).

Definition copy_env_files_to_worktree (w : World) (worktree_path : Path)
  : M EnvFileCopyResult :=
  (* Validate worktree path *)
  ex <- path_exists w worktree_path ;;
  when (negb ex)
    (raise (ValueError (s "Worktree path does not exist: "
                        ++ str_of_path worktree_path))) ;;
  isd <- path_is_dir w worktree_path ;;
  when (negb isd)
    (raise (ValueError (s "Worktree path is not a directory: "
                        ++ str_of_path worktree_path))) ;;
  (* Get repository root (main workspace) *)
  repo_root <- try_except
                 (git_operations.get_repo_root w)
                 is_RuntimeError
                 (fun e => raise (RuntimeError
                                    (s "Cannot determine repository root: "
                                     ++ str_of_exn e))) ;;
  (* Discover all .env files in main workspace *)
  env_files <- discover_env_files w repo_root ;;
  (* Copy each file (best-effort) *)
  c <- for_each env_files (mkCounters 0 0 [])
         (copy_step w repo_root worktree_path) ;;
  lift (EnvFileCopyResult_new (Z.of_nat (length env_files)) (copied c) (failed c) (messages c)).

(* ================================================================== *)
(** * cli *)
(* ================================================================== *)

(** The check mark U+2713 of the progress messages, as its UTF-8 bytes. *)
Definition check_mark : str := s "✓".

(** An [Optional[str]] inside an f-string. *)
Definition fmt (x : option str) : str :=
  match x with Some m => m | None => s "None" end.

(** [WorktreeConfig(...)]: the fields carry no constraint. *)
Definition WorktreeConfig_new (branch_name : str) (directory_path : Path)
    (base_branch : str) (feature_number : FeatureNumber)
    (feature_request : FeatureRequest) : Res WorktreeConfig :=
  Ok (mkWorktreeConfig branch_name directory_path base_branch feature_number
        feature_request).

(** The report of a failed check: message, suggestion when there is one,
    exit code 1. *)
Definition report_failed_check {A} (v : ValidationResult) : M A :=
  echo_err (s "Error: " ++ fmt (error_message v)) ;;
  when (truthy (suggestion v)) (echo_err (s "  " ++ fmt (suggestion v))) ;;
  sys_exit 1.

Definition cli (w : World) (feature_request : str) : M unit :=
  (* Exit code 3 for user error *)
  when (Str.eqb feature_request [] || Str.eqb (strip feature_request) [])
    (echo_err (s "Error: Feature request is required") ;;
     echo_err (s "  Usage: spork <feature-request>") ;;
     echo_err (s "  Example: spork " ++ ["034"%char] ++ s "add user authentication"
               ++ ["034"%char]) ;;
     sys_exit 3) ;;
  (* Validation sequence (fail-fast) *)
  echo (check_mark ++ s " Validating prerequisites...") ;;
  (* 1. Check git installed *)
  git_validation <- validators.is_git_installed w ;;
  when (negb (passed git_validation)) (report_failed_check git_validation) ;;
  echo (check_mark ++ s " Git found") ;;
  (* 2. Check in git repository *)
  let cwd := getcwd w in
  inside <- git_operations.is_git_repository w cwd ;;
  when (negb inside)
    (echo_err (s "Error: Not in a git repository") ;;
     echo_err (s "  Run 'git init' or navigate to an existing repository") ;;
     sys_exit 1) ;;
  (* Get repository root *)
  repo_root <- try_except
                 (repo_root <- git_operations.get_repo_root w ;;
                  echo (check_mark ++ s " In git repository: "
                        ++ str_of_path repo_root) ;;
                  ret repo_root)
                 is_RuntimeError
                 (fun e => echo_err (s "Error: " ++ str_of_exn e) ;; sys_exit 1) ;;
  (* Get main branch early (needed for Spec Kit validation) *)
  main_branch <- try_except
                   (git_operations.get_main_branch w)
                   is_RuntimeError
                   (fun e => echo_err (s "Error: " ++ str_of_exn e) ;; sys_exit 2) ;;
  (* 3. Check Spec Kit initialized on main branch *)
  spec_kit_validation <- validators.is_spec_kit_initialized w repo_root main_branch ;;
  when (negb (passed spec_kit_validation)) (report_failed_check spec_kit_validation) ;;
  echo (check_mark ++ s " Spec Kit initialized on " ++ main_branch ++ s " branch") ;;
  (* 4. Check Claude Code installed *)
  claude_validation <- validators.is_claude_code_installed w ;;
  when (negb (passed claude_validation)) (report_failed_check claude_validation) ;;
  echo (check_mark ++ s " Claude Code found") ;;
  (* 5. Fetch remote branches *)
  echo (check_mark ++ s " Fetching remote branches...") ;;
  fetched <- git_operations.git_fetch w ;;
  when (negb fetched)
    (echo_err (s "  Warning: git fetch failed, continuing without remote updates")) ;;
  (* 6. Get all branches and determine next feature number *)
  branches <- git_operations.list_all_branches w ;;
  feature_number' <- try_except
                      (feature_number <- lift (get_next_feature_number branches) ;;
                       echo (check_mark ++ s " Next feature number: "
                             ++ formatted feature_number) ;;
                       ret feature_number)
                      is_ValueError
                      (fun e => echo_err (s "Error: " ++ str_of_exn e) ;; sys_exit 2) ;;
  (* 8. Create FeatureRequest model *)
  let sanitized_name' := sanitize_feature_name feature_request default_max_length in
  feature_req <- try_except
                   (lift (FeatureRequest_new feature_request sanitized_name'))
                   is_Exception
                   (fun e =>
                      echo_err (s "Error: Invalid feature request: " ++ str_of_exn e) ;;
                      sys_exit 3) ;;
  (* 9. Build WorktreeConfig *)
  let branch_name' := formatted feature_number' ++ s "-" ++ sanitized_name feature_req in
  let worktree_path := path_join (path_join repo_root (s ".worktrees")) branch_name' in
  worktree_config <- try_except
                       (lift (WorktreeConfig_new branch_name' worktree_path main_branch
                                feature_number' feature_req))
                       is_Exception
                       (fun e =>
                          echo_err (s "Error: Failed to create worktree configuration: "
                                    ++ str_of_exn e) ;;
                          sys_exit 4) ;;
  (* 10. Create worktree *)
  echo (check_mark ++ s " Creating worktree at .worktrees/" ++ branch_name') ;;
  try_except
    (git_operations.create_worktree w
       (directory_path worktree_config)
       (branch_name worktree_config)
       (base_branch worktree_config))
    is_RuntimeError
    (fun e => echo_err (s "Error: " ++ str_of_exn e) ;; sys_exit 2) ;;
  (* 11. Launch Claude Code *)
  echo (check_mark ++ s " Launching Claude Code...") ;;
  exit_code <- launch_claude_code w (directory_path worktree_config) (text feature_req) ;;
  (* Propagate Claude's exit code *)
  sys_exit exit_code.

(* ================================================================== *)
(** * Predicates used by the properties *)
(* ================================================================== *)

(** The class [[a-z0-9]]. *)
Definition is_lower_alnum (c : ascii) : bool := is_ascii_lower c || is_digit c.

(** A full match of [^[a-z0-9]([a-z0-9-]*[a-z0-9])?$]. *)
Definition matches_fragment (x : str) : bool :=
  match x with
  | [] => false
  | c :: t =>
      is_lower_alnum c
      && match t with
         | [] => true
         | _ => forallb in_class t && is_lower_alnum (last t c)
         end
  end.

(** No two hyphens in a row. *)
Fixpoint no_double_hyphen (x : str) : bool :=
  match x with
  | c :: t =>
      match t with
      | c' :: _ => negb (is_hyphen c && is_hyphen c') && no_double_hyphen t
      | [] => true
      end
  | [] => true
  end.

(** Only characters of the class [[a-z0-9-]]. *)
Definition clean (x : str) : Prop := forallb in_class x = true.

(** No hyphen in front. *)
Definition head_ok (x : str) : Prop :=
  match x with c :: _ => is_hyphen c = false | [] => True end.

(** No hyphen at the end. *)
Fixpoint last_ok (x : str) : Prop :=
  match x with
  | [] => True
  | c :: t => match t with [] => is_hyphen c = false | _ => last_ok t end
  end.

(** The four facts that hold of every output of the sanitizer. *)
Record well_formed (x : str) : Prop := {
  wf_clean : clean x;
  wf_no_double : no_double_hyphen x = true;
  wf_head : head_ok x;
  wf_last : last_ok x
}.

(** ** Allocation, in the words of the specification *)

Definition digit_value (c : ascii) : Z := Z.of_nat (code c - 48).

(** The substring after the final ['/'] of a name; the whole name when it
    has none. *)
Fixpoint after_final_slash (x : str) : str :=
  match x with
  | [] => []
  | c :: t =>
      if existsb (Ascii.eqb "/") t then after_final_slash t
      else if Ascii.eqb "/" c then t else c :: t
  end.

(** The number of a name that begins with exactly three digits
    immediately followed by a hyphen. *)
Definition three_digit_prefix (x : str) : option Z :=
  match x with
  | d1 :: d2 :: d3 :: h :: _ =>
      if is_digit d1 && is_digit d2 && is_digit d3 && Ascii.eqb h "-"
      then Some (100 * digit_value d1 + 10 * digit_value d2 + digit_value d3)%Z
      else None
  | _ => None
  end.

(** The numbers of the names that match, in the order of the names. *)
Definition matched_numbers (branches : list str) : list Z :=
  flat_map (fun b => match three_digit_prefix (after_final_slash b) with
                     | Some n => [n]
                     | None => []
                     end) branches.

(** [max(matched) + 1], or 1 when nothing matched. *)
Definition next_number (matched : list Z) : Z :=
  match matched with
  | [] => 1%Z
  | x :: t => (fold_right Z.max x t + 1)%Z
  end.

(** The three decimal digits of a number below 1000. *)
Definition zero_pad3 (n : Z) : str :=
  let digit d := ascii_of_nat (48 + Z.to_nat d) in
  [digit (n / 100)%Z; digit ((n / 10) mod 10)%Z; digit (n mod 10)%Z].

(** ** Best-effort copying, in the words of the specification *)

(** Every file is attempted in turn, whatever became of the files before
    it; each attempt leaves its outcome. *)
Fixpoint attempt_all (w : World) (repo_root worktree_path : Path)
    (files : list str) (st : State) : list (str * Res unit) * State :=
  match files with
  | [] => ([], st)
  | f :: rest =>
      let (r, st1) := copy_one w repo_root worktree_path f st in
      let (outs, st2) := attempt_all w repo_root worktree_path rest st1 in
      ((f, r) :: outs, st2)
  end.

Definition is_ok {A} (r : Res A) : bool :=
  match r with Ok _ => true | Raise _ => false end.

Definition count_ok (outs : list (str * Res unit)) : Z :=
  Z.of_nat (length (filter (fun o => is_ok (snd o)) outs)).

Definition count_failed (outs : list (str * Res unit)) : Z :=
  Z.of_nat (length (filter (fun o => negb (is_ok (snd o))) outs)).

(** One description for every failed file, in the order of the files. *)
Definition failure_messages (outs : list (str * Res unit)) : list str :=
  flat_map (fun o => match snd o with
                     | Ok _ => []
                     | Raise e => [s "Failed to copy " ++ fst o ++ s ": " ++ str_of_exn e]
                     end) outs.

(** A computation that never raises [SystemExit]. *)
Definition never_exits {A} (m : M A) : Prop :=
  forall st e st', m st = (Raise e, st') -> is_Exception e = true.

(** A small filesystem: a repository with secret files at several depths,
    one of them unreadable and one that is not UTF-8, both sorted before
    a readable one. *)
Definition demo_fs : Node :=
  Dir true
    [(s "repo",
      Dir true
        [(s ".env", File true true (Text (s "A=1")));
         (s ".env.local", File true true (Text (s "B=2")));
         (s ".envdir", Dir true [(s ".env.x", File true true Undecodable)]);
         (s ".git", Dir true [(s ".env.bak", File true true (Text (s "C=3")))]);
         (s "api", Dir true [(s ".env.test", File false true (Text (s "D=4")));
                             (s "socket", Special)]);
         (s "web", Dir true [(s ".env", File true true (Text (s "F=6")))]);
         (s ".worktrees",
          Dir true [(s "001-a", Dir true [(s ".env", File true true (Text (s "E=5")))])])])].

(** A world in which every tool answers well: [git worktree add] creates
    the directory it is given, the assistant ends with status 7. *)
Definition demo_world : World :=
  mkWorld
    (fun argv cwd root =>
       if has_part (s "--show-toplevel") argv
       then (Completed 0 (s "/repo" ++ ["010"%char]) [], root)
       else if has_part (s "--is-inside-work-tree") argv
       then (Completed 0 (s "true" ++ ["010"%char]) [], root)
       else if has_part (s "-a") argv
       then (Completed 0 (s "main" ++ ["010"%char] ++ s "001-x" ++ ["010"%char]
                          ++ s "origin/002-y" ++ ["010"%char]) [], root)
       else if has_part (s "ls-tree") argv
       then (Completed 0 (s "040000 tree") [], root)
       else if has_part (s "add") argv
       then (Completed 0 [] [],
             fs_put root (tl (Path_of_str (nth 3 argv []))) (Dir true []))
       else if starts_with (s "/specify") (nth 1 argv [])
       then (Completed 7 [] [], root)
       else (Completed 0 [] [], root))
    (Path_of_str (s "/repo")).

(** ** Runs of the command line *)

(** The state after more events. *)
Definition after (st : State) (evs : list Event) : State :=
  mkState (fs st) (log st ++ evs).

(** What [report_failed_check] prints for a failed check. *)
Definition diagnostic (v : ValidationResult) : list Event :=
  EvEcho true (s "Error: " ++ fmt (error_message v))
  :: (if truthy (suggestion v)
      then [EvEcho true (s "  " ++ fmt (suggestion v))]
      else []).

(** A computation adds to the log only events that satisfy [P]. *)
Definition only_emits {A} (P : Event -> bool) (m : M A) : Prop :=
  forall st, exists evs, log (snd (m st)) = log st ++ evs /\ forallb P evs = true.

(** The postcondition [post] holds of the outcome of [m] from [st]. *)
Definition wp {A} (m : M A) (post : Res A -> State -> Prop) (st : State) : Prop :=
  post (fst (m st)) (snd (m st)).

Fixpoint is_prefix (p l : list str) : bool :=
  match p, l with
  | [], _ => true
  | _ :: _, [] => false
  | a :: p', b :: l' => Str.eqb a b && is_prefix p' l'
  end.

(** The answer of a process that did not end with status 0. *)
Definition answer_failed (r : ProcResult) : bool :=
  match r with
  | Completed rc _ _ => negb (rc =? 0)%Z
  | _ => true
  end.

(** The command of the provisioner, [git worktree add ...]. *)
Definition is_worktree_add (e : Event) : bool :=
  match e with
  | EvRun argv _ _ => is_prefix [s "git"; s "worktree"; s "add"] argv
  | _ => false
  end.

Definition is_failed_worktree_add (e : Event) : bool :=
  match e with
  | EvRun argv _ r => is_prefix [s "git"; s "worktree"; s "add"] argv && answer_failed r
  | _ => false
  end.

(** The handoff to the assistant, [claude "/specify ..."]. *)
Definition is_launch (e : Event) : bool :=
  match e with
  | EvRun (c :: m :: _) _ _ => Str.eqb c (s "claude") && starts_with (s "/specify ") m
  | _ => false
  end.

(** A change of the filesystem made by the program itself. *)
Definition is_write (e : Event) : bool :=
  match e with
  | EvMkdir _ | EvWrite _ _ => true
  | _ => false
  end.

(** The announcement of the allocated number, which follows the
    prerequisite checks, the base-branch lookup and the allocation. *)
Definition is_number_announcement (e : Event) : bool :=
  match e with
  | EvEcho false msg => starts_with (check_mark ++ s " Next feature number: ") msg
  | _ => false
  end.

(** Events of the stages before provisioning. *)
Definition is_preparation (e : Event) : bool :=
  negb (is_worktree_add e) && negb (is_launch e) && negb (is_write e).

Definition is_early (e : Event) : bool :=
  is_preparation e && negb (is_number_announcement e).

Definition is_blank (x : str) : bool := Str.eqb x [] || Str.eqb (strip x) [].

(** [demo_world] with one kind of command failing: the commands that
    [bad] picks get [answer] and leave the filesystem as it is. *)
Definition world_with_failure (bad : list str -> bool) (answer : ProcResult) : World :=
  mkWorld
    (fun argv cwd root =>
       if bad argv then (answer, root) else run_process demo_world argv cwd root)
    (getcwd demo_world).

(** No [git] on the machine. *)
Definition world_without_git : World :=
  world_with_failure (fun argv => Str.eqb (hd [] argv) (s "git")) NotFound.

(** No [claude] on the machine. *)
Definition world_without_claude : World :=
  world_with_failure (fun argv => Str.eqb (hd [] argv) (s "claude")) NotFound.

(** The branch of the new worktree is already there. *)
Definition world_with_existing_branch : World :=
  world_with_failure (has_part (s "add"))
    (Completed 128 [] (s "fatal: a branch named '003-add-login' already exists")).

(** ** Discovery of the secret files *)

(** The test of the discovery loop on the parts of a file path. *)
Definition excluded (file_path : Path) : bool :=
  has_part (s ".git") file_path || has_part (s ".worktrees") file_path.




(** ** Further predicates *)

(** A character that the sanitizer keeps: its lower-case form is in
    [[a-z0-9]]. *)
Definition retainable (c : ascii) : bool := is_lower_alnum (lower_char c).

(** The greatest element of a list of numbers that are not negative; 0
    for the empty list. *)
Definition greatest (l : list Z) : Z := fold_right Z.max 0%Z l.

(** Every value that [m] returns satisfies [Q]. *)
Definition returns {A} (Q : A -> Prop) (m : M A) : Prop :=
  forall st a st', m st = (Ok a, st') -> Q a.

(** Every exception that [m] raises satisfies [ok]. *)
Definition raises_only {A} (ok : Exn -> bool) (m : M A) : Prop :=
  forall st e st', m st = (Raise e, st') -> ok e = true.

(** A failed result carries a message and a suggestion that are not
    empty. *)
Definition diagnosed (v : ValidationResult) : Prop :=
  passed v = false ->
  truthy (error_message v) = true /\ truthy (suggestion v) = true.

Definition diagnosed_or_none (r : option ValidationResult) : Prop :=
  match r with Some v => diagnosed v | None => True end.

(** The exit codes that the command line produces on its own, before the
    handoff: [SystemExit] with 1, 2 or 3; other exceptions are not
    exits. *)
Definition exits_1_2_3 (e : Exn) : bool :=
  match e with
  | SystemExit c => (c =? 1)%Z || (c =? 2)%Z || (c =? 3)%Z
  | _ => true
  end.

Definition any_exn (e : Exn) : bool := true.

(** The status that the run reports for an answer of the assistant. *)
Definition status_of (answer : ProcResult) : Z :=
  match answer with
  | Completed rc _ _ => rc
  | _ => 4%Z
  end.

(** The three commands of the Spec Kit check, each with an answer of
    status 0. *)
Definition spec_kit_commands (repo_path : Path) (main_branch : str)
    (o1 e1 o2 e2 o3 e3 : str) : list Event :=
  [EvRun [s "git"; s "show"; main_branch ++ s ":.specify/memory/constitution.md"]
     (Some (str_of_path repo_path)) (Completed 0 o1 e1);
   EvRun [s "git"; s "ls-tree"; main_branch ++ s ":.specify/templates"]
     (Some (str_of_path repo_path)) (Completed 0 o2 e2);
   EvRun [s "git"; s "ls-tree"; main_branch ++ s ":.specify/scripts"]
     (Some (str_of_path repo_path)) (Completed 0 o3 e3)].

(** The command [git fetch]. *)
Definition is_fetch (e : Event) : bool :=
  match e with
  | EvRun argv _ _ => is_prefix [s "git"; s "fetch"] argv
  | _ => false
  end.

(** The command that lists the branches, [git branch -a ...]. *)
Definition is_branch_listing (e : Event) : bool :=
  match e with
  | EvRun argv _ _ => is_prefix [s "git"; s "branch"; s "-a"] argv
  | _ => false
  end.

Definition fetch_warning : Event :=
  EvEcho true (s "  Warning: git fetch failed, continuing without remote updates").

(** Events of the stages before the fetch. *)
Definition before_fetch (e : Event) : bool := is_early e && negb (is_fetch e).

Definition not_fetch (e : Event) : bool := negb (is_fetch e).

(** The exit codes of the stages that do not judge the request:
    [SystemExit] with 1 or 2; other exceptions are not exits. *)
Definition exits_1_2 (e : Exn) : bool :=
  match e with
  | SystemExit c => (c =? 1)%Z || (c =? 2)%Z
  | _ => true
  end.

(** The log of [st'] continues the log of [st]. *)
Definition extends (st st' : State) : Prop :=
  exists evs, log st' = log st ++ evs.

(** What [list_all_branches] makes of the answer to [git branch -a]. *)
Definition listed_branches (answer : ProcResult) : list str :=
  match answer with
  | Completed rc out _ =>
      if (rc =? 0)%Z
      then filter (fun b => negb (Str.eqb b [])) (split "010" (strip out))
      else []
  | _ => []
  end.

(** The stages of [cli] that come before the construction of the
    FeatureRequest (cli.py l.46-110): the prerequisite checks, the lookup
    of the root and of the base branch, the fetch and the allocation of
    the number. *)
Definition preparation (w : World) : M unit :=
  echo (check_mark ++ s " Validating prerequisites...") ;;
  git_validation <- validators.is_git_installed w ;;
  when (negb (passed git_validation)) (report_failed_check git_validation) ;;
  echo (check_mark ++ s " Git found") ;;
  let cwd := getcwd w in
  inside <- git_operations.is_git_repository w cwd ;;
  when (negb inside)
    (echo_err (s "Error: Not in a git repository") ;;
     echo_err (s "  Run 'git init' or navigate to an existing repository") ;;
     sys_exit 1) ;;
  repo_root <- try_except
                 (repo_root <- git_operations.get_repo_root w ;;
                  echo (check_mark ++ s " In git repository: "
                        ++ str_of_path repo_root) ;;
                  ret repo_root)
                 is_RuntimeError
                 (fun e => echo_err (s "Error: " ++ str_of_exn e) ;; sys_exit 1) ;;
  main_branch <- try_except
                   (git_operations.get_main_branch w)
                   is_RuntimeError
                   (fun e => echo_err (s "Error: " ++ str_of_exn e) ;; sys_exit 2) ;;
  spec_kit_validation <- validators.is_spec_kit_initialized w repo_root main_branch ;;
  when (negb (passed spec_kit_validation)) (report_failed_check spec_kit_validation) ;;
  echo (check_mark ++ s " Spec Kit initialized on " ++ main_branch ++ s " branch") ;;
  claude_validation <- validators.is_claude_code_installed w ;;
  when (negb (passed claude_validation)) (report_failed_check claude_validation) ;;
  echo (check_mark ++ s " Claude Code found") ;;
  echo (check_mark ++ s " Fetching remote branches...") ;;
  fetched <- git_operations.git_fetch w ;;
  when (negb fetched)
    (echo_err (s "  Warning: git fetch failed, continuing without remote updates")) ;;
  branches <- git_operations.list_all_branches w ;;
  try_except
    (feature_number <- lift (get_next_feature_number branches) ;;
     echo (check_mark ++ s " Next feature number: "
           ++ formatted feature_number) ;;
     ret feature_number)
    is_ValueError
    (fun e => echo_err (s "Error: " ++ str_of_exn e) ;; sys_exit 2) ;;
  ret tt.

(* ================================================================== *)
(** * Properties *)
(* ================================================================== *)

(** ** Sanitization *)

Section Sanitize.

Local Ltac by_cases_on c :=
  destruct c as [[|] [|] [|] [|] [|] [|] [|] [|]]; vm_compute; congruence.

Lemma lower_char_in_class c : in_class c = true -> lower_char c = c.
Proof. by_cases_on c. Qed.

Lemma underscore_not_in_class c : in_class c = true -> Ascii.eqb c "_" = false.
Proof. by_cases_on c. Qed.

Lemma space_not_in_class c : in_class c = true -> Ascii.eqb c " " = false.
Proof. by_cases_on c. Qed.

Lemma hyphen_in_class c : is_hyphen c = true -> in_class c = true.
Proof. by_cases_on c. Qed.

Lemma in_class_not_hyphen c :
  in_class c = true -> is_hyphen c = false -> is_lower_alnum c = true.
Proof. by_cases_on c. Qed.

Lemma clean_cons c x : clean (c :: x) <-> in_class c = true /\ clean x.
Proof. unfold clean; simpl; rewrite andb_true_iff; tauto. Qed.

(** What the first five steps leave unchanged. *)

Lemma lower_clean x : clean x -> lower x = x.
Proof.
  induction x as [|c x IH]; intros H; [reflexivity|].
  apply clean_cons in H as [Hc Hx]; simpl.
  now rewrite lower_char_in_class, IH.
Qed.

Lemma replace_underscore_clean x : clean x -> replace "_" "-" x = x.
Proof.
  induction x as [|c x IH]; intros H; [reflexivity|].
  apply clean_cons in H as [Hc Hx]; simpl.
  now rewrite underscore_not_in_class, IH.
Qed.

Lemma replace_space_clean x : clean x -> replace " " "-" x = x.
Proof.
  induction x as [|c x IH]; intros H; [reflexivity|].
  apply clean_cons in H as [Hc Hx]; simpl.
  now rewrite space_not_in_class, IH.
Qed.

Lemma sub_outside_class_clean x : clean x -> sub_outside_class x = x.
Proof.
  induction x as [|c x IH]; intros H; [reflexivity|].
  apply clean_cons in H as [Hc Hx]; simpl.
  now rewrite Hc, IH.
Qed.

Lemma sub_hyphen_runs_fixed x : no_double_hyphen x = true -> sub_hyphen_runs x = x.
Proof.
  induction x as [|c x IH]; intros H; [reflexivity|].
  simpl in *. destruct x as [|c' x']; [reflexivity|].
  apply andb_true_iff in H as [H1 H2].
  apply negb_true_iff in H1. rewrite H1. now rewrite IH.
Qed.

Lemma lstrip_fixed x : head_ok x -> lstrip_hyphen x = x.
Proof. destruct x as [|c x]; simpl; intros H; [reflexivity | now rewrite H]. Qed.

Lemma rstrip_fixed x : last_ok x -> rstrip_hyphen x = x.
Proof.
  induction x as [|c x IH]; intros H; [reflexivity|].
  simpl in *. destruct x as [|c' x'].
  - simpl. now rewrite H.
  - rewrite IH by exact H. reflexivity.
Qed.

(** What each step establishes or keeps. *)

Lemma sub_outside_class_is_clean x : clean (sub_outside_class x).
Proof.
  induction x as [|c x IH]; [reflexivity|].
  simpl. apply clean_cons; split; [|exact IH].
  destruct (in_class c) eqn:E; [exact E | reflexivity].
Qed.

Lemma sub_hyphen_runs_clean x : clean x -> clean (sub_hyphen_runs x).
Proof.
  induction x as [|c x IH]; intros H; [reflexivity|].
  apply clean_cons in H as [Hc Hx]. simpl.
  destruct x as [|c' x']; [apply clean_cons; now split|].
  destruct (is_hyphen c && is_hyphen c'); [now apply IH|].
  apply clean_cons; split; [exact Hc | now apply IH].
Qed.

Lemma sub_hyphen_runs_cons2 c c' x :
  sub_hyphen_runs (c :: c' :: x)
  = if is_hyphen c && is_hyphen c' then sub_hyphen_runs (c' :: x)
    else c :: sub_hyphen_runs (c' :: x).
Proof. reflexivity. Qed.

Lemma sub_hyphen_runs_head c x :
  exists d r, sub_hyphen_runs (c :: x) = d :: r /\ is_hyphen d = is_hyphen c.
Proof.
  revert c; induction x as [|c' x IH]; intros c.
  - exists c, []. split; reflexivity.
  - rewrite sub_hyphen_runs_cons2.
    destruct (is_hyphen c) eqn:Ec, (is_hyphen c') eqn:Ec'; cbv [andb].
    + destruct (IH c') as (d & r & E & Hd). exists d, r. split; [exact E | congruence].
    + eexists _, _. split; [reflexivity | exact Ec].
    + eexists _, _. split; [reflexivity | exact Ec].
    + eexists _, _. split; [reflexivity | exact Ec].
Qed.

Lemma sub_hyphen_runs_no_double x : no_double_hyphen (sub_hyphen_runs x) = true.
Proof.
  induction x as [|c x IH]; [reflexivity|].
  destruct x as [|c' x']; [reflexivity|].
  rewrite sub_hyphen_runs_cons2.
  destruct (is_hyphen c && is_hyphen c') eqn:E; [exact IH|].
  destruct (sub_hyphen_runs_head c' x') as (d & r & Er & Hd).
  rewrite Er in *.
  change (negb (is_hyphen c && is_hyphen d) && no_double_hyphen (d :: r) = true).
  rewrite Hd, E, IH. reflexivity.
Qed.

Lemma no_double_tail c x : no_double_hyphen (c :: x) = true -> no_double_hyphen x = true.
Proof.
  simpl. destruct x; [reflexivity|]. intros H; now apply andb_true_iff in H as [_ H].
Qed.

Lemma lstrip_clean x : clean x -> clean (lstrip_hyphen x).
Proof.
  induction x as [|c x IH]; intros H; [reflexivity|].
  simpl. destruct (is_hyphen c); [|exact H].
  apply clean_cons in H as [_ H]. now apply IH.
Qed.

Lemma lstrip_no_double x :
  no_double_hyphen x = true -> no_double_hyphen (lstrip_hyphen x) = true.
Proof.
  induction x as [|c x IH]; intros H; [reflexivity|].
  simpl lstrip_hyphen. destruct (is_hyphen c); [|exact H].
  apply IH. now apply no_double_tail in H.
Qed.

Lemma lstrip_head_ok x : head_ok (lstrip_hyphen x).
Proof.
  induction x as [|c x IH]; [exact I|].
  simpl. destruct (is_hyphen c) eqn:E; [exact IH | exact E].
Qed.

Lemma rstrip_cons c x :
  rstrip_hyphen (c :: x) = [] \/ exists r, rstrip_hyphen (c :: x) = c :: r.
Proof.
  simpl. destruct (rstrip_hyphen x); [destruct (is_hyphen c)|]; eauto.
Qed.

Lemma rstrip_clean x : clean x -> clean (rstrip_hyphen x).
Proof.
  induction x as [|c x IH]; intros H; [reflexivity|].
  apply clean_cons in H as [Hc Hx]. specialize (IH Hx). simpl.
  destruct (rstrip_hyphen x) as [|d r].
  - destruct (is_hyphen c); [reflexivity | apply clean_cons; now split].
  - apply clean_cons; now split.
Qed.

Lemma rstrip_head_ok x : head_ok x -> head_ok (rstrip_hyphen x).
Proof.
  destruct x as [|c x]; [trivial|]. intros H.
  destruct (rstrip_cons c x) as [E | [r E]]; rewrite E; [exact I | exact H].
Qed.

Lemma rstrip_no_double x :
  no_double_hyphen x = true -> no_double_hyphen (rstrip_hyphen x) = true.
Proof.
  induction x as [|c x IH]; intros H; [reflexivity|].
  pose proof (no_double_tail _ _ H) as Ht. specialize (IH Ht).
  simpl rstrip_hyphen.
  destruct x as [|c' x'].
  - simpl. destruct (is_hyphen c); reflexivity.
  - destruct (rstrip_cons c' x') as [E | [r E]]; rewrite E in *.
    + destruct (is_hyphen c); reflexivity.
    + change (negb (is_hyphen c && is_hyphen c') && no_double_hyphen (c' :: r) = true).
      rewrite IH. simpl in H. apply andb_true_iff in H as [H _]. now rewrite H.
Qed.

Lemma rstrip_last_ok x : last_ok (rstrip_hyphen x).
Proof.
  induction x as [|c x IH]; [exact I|].
  simpl. destruct (rstrip_hyphen x) as [|d r] eqn:E.
  - destruct (is_hyphen c) eqn:Ec; [exact I | exact Ec].
  - exact IH.
Qed.

Lemma rstrip_length x : (length (rstrip_hyphen x) <= length x)%nat.
Proof.
  induction x as [|c x IH]; [reflexivity|].
  simpl. destruct (rstrip_hyphen x); [destruct (is_hyphen c)|]; simpl in *; lia.
Qed.

Lemma firstn_clean n x : clean x -> clean (firstn n x).
Proof.
  revert x; induction n as [|n IH]; intros [|c x] H; try reflexivity.
  apply clean_cons in H as [Hc Hx]. simpl. apply clean_cons; split; auto.
Qed.

Lemma firstn_no_double n x :
  no_double_hyphen x = true -> no_double_hyphen (firstn n x) = true.
Proof.
  revert x; induction n as [|n IH]; intros [|c x] H; try reflexivity.
  pose proof (no_double_tail _ _ H) as Ht. specialize (IH _ Ht).
  simpl firstn. destruct n as [|n]; [reflexivity|].
  destruct x as [|c' x']; [reflexivity|].
  simpl firstn in *.
  change (negb (is_hyphen c && is_hyphen c') && no_double_hyphen (c' :: firstn n x') = true).
  rewrite IH. simpl in H. apply andb_true_iff in H as [H _]. now rewrite H.
Qed.

Lemma firstn_head_ok n x : head_ok x -> head_ok (firstn n x).
Proof. destruct n, x; simpl; trivial. Qed.

Lemma slice_to_firstn x m : exists n, slice_to x m = firstn n x.
Proof. unfold slice_to. destruct (m <? 0)%Z; eauto. Qed.

Lemma sanitize_well_formed name m : well_formed (sanitize_feature_name name m).
Proof.
  unfold sanitize_feature_name, strip_hyphen.
  set (y := sub_hyphen_runs _).
  assert (Hc : clean y) by apply sub_hyphen_runs_clean, sub_outside_class_is_clean.
  assert (Hd : no_double_hyphen y = true) by apply sub_hyphen_runs_no_double.
  set (z := rstrip_hyphen (lstrip_hyphen y)).
  assert (Hz : well_formed z).
  { split.
    - now apply rstrip_clean, lstrip_clean.
    - now apply rstrip_no_double, lstrip_no_double.
    - apply rstrip_head_ok, lstrip_head_ok.
    - apply rstrip_last_ok. }
  destruct (len z >? m)%Z; [|exact Hz].
  destruct (slice_to_firstn z m) as [n ->].
  destruct Hz as [H1 H2 H3 _]. split.
  - now apply rstrip_clean, firstn_clean.
  - now apply rstrip_no_double, firstn_no_double.
  - now apply rstrip_head_ok, firstn_head_ok.
  - apply rstrip_last_ok.
Qed.

Lemma sanitize_well_formed_fixed x m :
  well_formed x -> (len x <= m)%Z -> sanitize_feature_name x m = x.
Proof.
  intros [H1 H2 H3 H4] Hl. unfold sanitize_feature_name, strip_hyphen.
  rewrite lower_clean, replace_underscore_clean, replace_space_clean,
    sub_outside_class_clean, sub_hyphen_runs_fixed, lstrip_fixed, rstrip_fixed
    by assumption.
  destruct (len x >? m)%Z eqn:E; [lia | reflexivity].
Qed.

Lemma sanitize_length name m :
  (0 <= m)%Z -> (len (sanitize_feature_name name m) <= m)%Z.
Proof.
  intros Hm. unfold sanitize_feature_name.
  set (z := strip_hyphen _).
  destruct (len z >? m)%Z eqn:E; [|lia].
  unfold slice_to. destruct (m <? 0)%Z eqn:E'; [lia|].
  unfold len. pose proof (rstrip_length (firstn (Z.to_nat m) z)) as H.
  rewrite length_firstn in H. lia.
Qed.

Lemma last_cons_default (a : ascii) l d d' : last (a :: l) d = last (a :: l) d'.
Proof.
  revert a; induction l as [|b l IH]; intros a; [reflexivity|].
  change (last (b :: l) d = last (b :: l) d'). apply IH.
Qed.

Lemma last_ok_last c x : last_ok (c :: x) -> is_hyphen (last x c) = false.
Proof.
  revert c; induction x as [|d x IH]; intros c H; [exact H|].
  change (last_ok (d :: x)) in H. apply IH in H.
  destruct x as [|e x']; [exact H|].
  rewrite (last_cons_default d (e :: x') c d).
  exact H.
Qed.

Lemma clean_last c x : clean (c :: x) -> in_class (last x c) = true.
Proof.
  revert c; induction x as [|d x IH]; intros c H.
  - now apply clean_cons in H as [H _].
  - apply clean_cons in H as [_ H]. apply IH in H.
    destruct x as [|e x']; [exact H|].
    rewrite (last_cons_default d (e :: x') c d).
    exact H.
Qed.

Lemma well_formed_matches x : well_formed x -> x <> [] -> matches_fragment x = true.
Proof.
  intros [H1 H2 H3 H4] Hne. destruct x as [|c t]; [congruence|].
  simpl. pose proof H1 as H1'. apply clean_cons in H1 as [Hc Ht].
  rewrite (in_class_not_hyphen c Hc H3). simpl.
  destruct t as [|d t']; [reflexivity|].
  fold (clean (d :: t')) in Ht. unfold clean in Ht. rewrite Ht. simpl andb.
  apply in_class_not_hyphen.
  - apply (clean_last _ _ H1').
  - apply (last_ok_last _ _ H4).
Qed.

End Sanitize.

(** C5. Sanitization is idempotent at the default [max_length]: sanitizing
    an already sanitized name gives the same name. *)
Theorem sanitize_idempotent (x : str) :
  sanitize_feature_name (sanitize_feature_name x default_max_length) default_max_length
  = sanitize_feature_name x default_max_length.
Proof.
  apply sanitize_well_formed_fixed.
  - apply sanitize_well_formed.
  - apply sanitize_length. unfold default_max_length. lia.
Qed.

(** C6 as stated fails for a negative [max_length]: the slice [x[:-2]]
    drops two characters, and the four that remain are more than -2. *)
Lemma sanitize_negative_max_length :
  ~ (forall (name : str) (max_length : Z),
        sanitize_feature_name name max_length <> [] ->
        matches_fragment (sanitize_feature_name name max_length) = true
        /\ no_double_hyphen (sanitize_feature_name name max_length) = true
        /\ (len (sanitize_feature_name name max_length) <= max_length)%Z).
Proof.
  intros H. specialize (H (s "abcdef") (-2)%Z).
  vm_compute in H. destruct H as (_ & _ & H); [discriminate|]. apply H. reflexivity.
Qed.

(** C6, amended. For every input and every [max_length], a non-empty
    output of the sanitizer matches [^[a-z0-9]([a-z0-9-]*[a-z0-9])?$] and
    has no two hyphens in a row; when [max_length] is not negative its
    length is at most [max_length]. *)
Theorem sanitize_output_shape (name : str) (max_length : Z) :
  sanitize_feature_name name max_length <> [] ->
  matches_fragment (sanitize_feature_name name max_length) = true
  /\ no_double_hyphen (sanitize_feature_name name max_length) = true
  /\ ((0 <= max_length)%Z ->
      (len (sanitize_feature_name name max_length) <= max_length)%Z).
Proof.
  intros Hne. pose proof (sanitize_well_formed name max_length) as Hw.
  split; [now apply well_formed_matches|].
  split; [apply Hw|]. apply sanitize_length.
Qed.

Lemma sanitize_output_shape_witness :
  sanitize_feature_name (s "Fix bug #123 (critical!)") 7 = s "fix-bug"
  /\ matches_fragment (s "fix-bug") = true
  /\ (len (s "fix-bug") <= 7)%Z.
Proof.
  assert (E : sanitize_feature_name (s "Fix bug #123 (critical!)") 7 = s "fix-bug")
    by reflexivity.
  destruct (sanitize_output_shape (s "Fix bug #123 (critical!)") 7) as (H1 & _ & H3).
  - rewrite E. discriminate.
  - rewrite E in *. split; [reflexivity|]. split; [exact H1|]. apply H3. lia.
Defined.

(** ** Allocation of feature numbers *)

Section Allocation.

Lemma split_nonempty sep x : split sep x <> [].
Proof.
  induction x as [|c x IH]; simpl; [discriminate|].
  destruct (Ascii.eqb c sep); [discriminate|].
  destruct (split sep x); [congruence | discriminate].
Qed.

Lemma split_no_sep sep x :
  existsb (Ascii.eqb sep) x = false -> split sep x = [x].
Proof.
  induction x as [|c x IH]; simpl; [reflexivity|].
  rewrite (Ascii.eqb_sym sep c). intros H. apply orb_false_iff in H as [H1 H2].
  rewrite H1, (IH H2). reflexivity.
Qed.

Lemma split_has_sep sep x :
  existsb (Ascii.eqb sep) x = true -> exists h h' r, split sep x = h :: h' :: r.
Proof.
  induction x as [|c x IH]; simpl; [discriminate|].
  rewrite (Ascii.eqb_sym sep c).
  destruct (Ascii.eqb c sep); simpl.
  - intros _. pose proof (split_nonempty sep x).
    destruct (split sep x) as [|h r]; [congruence | eauto].
  - intros H. destruct (IH H) as (h & h' & r & ->). eauto.
Qed.

Lemma last_split_cons sep c x :
  last (split sep (c :: x)) []
  = if existsb (Ascii.eqb sep) x then last (split sep x) []
    else if Ascii.eqb sep c then x else c :: x.
Proof.
  simpl split. rewrite (Ascii.eqb_sym sep c).
  destruct (existsb (Ascii.eqb sep) x) eqn:Ex.
  - destruct (split_has_sep sep x Ex) as (h & h' & r & ->).
    destruct (Ascii.eqb c sep); reflexivity.
  - rewrite (split_no_sep sep x Ex).
    destruct (Ascii.eqb c sep); reflexivity.
Qed.

(** [branch.split("/")[-1]] is the substring after the final slash. *)
Lemma last_split_after_final_slash x :
  last (split "/" x) [] = after_final_slash x.
Proof.
  induction x as [|c x IH]; [reflexivity|].
  rewrite last_split_cons, IH. reflexivity.
Qed.

Lemma after_final_slash_cons c t :
  after_final_slash (c :: t)
  = if existsb (Ascii.eqb "/") t then after_final_slash t
    else if Ascii.eqb "/" c then t else c :: t.
Proof. reflexivity. Qed.

Lemma no_slash_existsb x :
  ~ In "/"%char x -> existsb (Ascii.eqb "/") x = false.
Proof.
  intros H. destruct (existsb _ x) eqn:E; [|reflexivity].
  apply existsb_exists in E as (d & Hd & E). apply Ascii.eqb_eq in E. subst d.
  contradiction.
Qed.

(** What [after_final_slash] returns, for a name without and with a
    slash. *)
Lemma after_final_slash_none x :
  ~ In "/"%char x -> after_final_slash x = x.
Proof.
  induction x as [|c x IH]; intros H; [reflexivity|].
  apply not_in_cons in H as [Hc Hx].
  rewrite after_final_slash_cons, (no_slash_existsb x Hx).
  destruct (Ascii.eqb "/" c) eqn:E; [|reflexivity].
  apply Ascii.eqb_eq in E. congruence.
Qed.

Lemma after_final_slash_some pre r :
  ~ In "/"%char r -> after_final_slash (pre ++ "/"%char :: r) = r.
Proof.
  intros Hr. pose proof (no_slash_existsb r Hr) as Hx.
  induction pre as [|c pre IH].
  - change ([] ++ "/"%char :: r) with ("/"%char :: r).
    rewrite after_final_slash_cons, Hx. reflexivity.
  - change ((c :: pre) ++ "/"%char :: r) with (c :: (pre ++ "/"%char :: r)).
    rewrite after_final_slash_cons, existsb_app.
    change (existsb (Ascii.eqb "/") ("/"%char :: r)) with (true || existsb (Ascii.eqb "/") r).
    rewrite orb_true_r. exact IH.
Qed.

Lemma pattern_match_prefix x :
  option_map int_of_digits (pattern_match x) = three_digit_prefix x.
Proof.
  destruct x as [|d1 [|d2 [|d3 [|h r]]]]; try reflexivity.
  unfold pattern_match, three_digit_prefix, is_hyphen.
  destruct (is_digit d1 && is_digit d2 && is_digit d3 && Ascii.eqb h "-"); [|reflexivity].
  unfold option_map, int_of_digits, digit_value. cbn [fold_left]. f_equal. lia.
Qed.

Lemma collect_feature_numbers_matched branches :
  collect_feature_numbers branches = matched_numbers branches.
Proof.
  unfold collect_feature_numbers, matched_numbers.
  enough (G : forall acc,
             fold_left
               (fun feature_numbers branch =>
                  match pattern_match (last (split "/" branch) []) with
                  | Some group1 => feature_numbers ++ [int_of_digits group1]
                  | None => feature_numbers
                  end) branches acc
             = acc ++ flat_map
                        (fun b => match three_digit_prefix (after_final_slash b) with
                                  | Some n => [n]
                                  | None => []
                                  end) branches)
    by apply (G []).
  induction branches as [|b l IH]; intros acc; simpl.
  - now rewrite app_nil_r.
  - rewrite IH, last_split_after_final_slash, <- pattern_match_prefix.
    destruct (pattern_match (after_final_slash b)); simpl.
    + now rewrite <- app_assoc.
    + reflexivity.
Qed.

Lemma fold_left_max_right t : forall x, fold_left Z.max t x = fold_right Z.max x t.
Proof.
  induction t as [|y t IH]; intros x; simpl; [reflexivity|].
  rewrite IH. clear IH. revert x y.
  induction t as [|z t IH]; intros x y; simpl; [apply Z.max_comm|].
  rewrite IH. lia.
Qed.

Lemma py_max_next matched :
  matched <> [] -> (py_max matched + 1)%Z = next_number matched.
Proof.
  destruct matched as [|x t]; [congruence|]. intros _. simpl.
  now rewrite fold_left_max_right.
Qed.

Lemma digit_value_range c : is_digit c = true -> (0 <= digit_value c <= 9)%Z.
Proof.
  unfold is_digit, in_range, digit_value. intros H.
  apply andb_true_iff in H as [H1 H2].
  apply Nat.leb_le in H1, H2. lia.
Qed.

Lemma three_digit_prefix_cons d1 d2 d3 h r :
  three_digit_prefix (d1 :: d2 :: d3 :: h :: r)
  = if is_digit d1 && is_digit d2 && is_digit d3 && Ascii.eqb h "-"
    then Some (100 * digit_value d1 + 10 * digit_value d2 + digit_value d3)%Z
    else None.
Proof. reflexivity. Qed.

Lemma three_digit_prefix_range x n :
  three_digit_prefix x = Some n -> (0 <= n <= 999)%Z.
Proof.
  destruct x as [|d1 [|d2 [|d3 [|h r]]]]; try discriminate.
  rewrite three_digit_prefix_cons.
  destruct (is_digit d1) eqn:E1, (is_digit d2) eqn:E2, (is_digit d3) eqn:E3;
    try discriminate.
  destruct (Ascii.eqb h "-"); try discriminate. cbn [andb]. intros H.
  assert (Hn : (100 * digit_value d1 + 10 * digit_value d2 + digit_value d3)%Z = n)
    by congruence.
  rewrite <- Hn. clear H Hn.
  apply digit_value_range in E1, E2, E3. lia.
Qed.

Lemma matched_numbers_range branches :
  Forall (fun n => 0 <= n <= 999)%Z (matched_numbers branches).
Proof.
  unfold matched_numbers. induction branches as [|b l IH]; simpl; [constructor|].
  apply Forall_app; split; [|exact IH].
  destruct (three_digit_prefix (after_final_slash b)) eqn:E; constructor; [|constructor].
  now apply three_digit_prefix_range in E.
Qed.

Lemma next_number_range matched :
  Forall (fun n => 0 <= n <= 999)%Z matched -> (1 <= next_number matched <= 1000)%Z.
Proof.
  destruct matched as [|x t]; simpl; [lia|]. intros H.
  inversion H as [|? ? Hx Ht]; subst. clear H.
  induction Ht as [|y t Hy Ht IH]; simpl; lia.
Qed.

(** [f"{n:03d}"] passes the validators of [FeatureNumber] on 1..999 and is
    the three decimal digits of [n]. *)
Lemma FeatureNumber_new_in_range n :
  (1 <= n <= 999)%Z ->
  FeatureNumber_new n (format_03d n) = Ok (mkFeatureNumber n (zero_pad3 n)).
Proof.
  intros Hn.
  assert (A : forallb (fun k =>
                match FeatureNumber_new (Z.of_nat k) (format_03d (Z.of_nat k)) with
                | Ok f => Z.eqb (number f) (Z.of_nat k)
                          && Str.eqb (formatted f) (zero_pad3 (Z.of_nat k))
                | Raise _ => false
                end) (seq 1 999) = true) by (vm_compute; reflexivity).
  rewrite forallb_forall in A. specialize (A (Z.to_nat n)).
  rewrite Z2Nat.id in A by lia.
  assert (Hin : In (Z.to_nat n) (seq 1 999)) by (apply in_seq; lia).
  specialize (A Hin).
  destruct (FeatureNumber_new n (format_03d n)) as [[k f]|]; [|discriminate].
  simpl in A. apply andb_true_iff in A as [A1 A2].
  apply Z.eqb_eq in A1. unfold Str.eqb in A2.
  destruct (list_eq_dec ascii_dec f (zero_pad3 n)); [|discriminate].
  now subst.
Qed.

End Allocation.

(** C3. For every list of branch names the allocator takes of each name
    the part after its final slash, keeps the numbers of those parts that
    begin with exactly three digits and a hyphen, and answers with
    [max + 1] of these numbers (1 when there is none) and its three-digit
    zero-padded form; it raises [ValueError] exactly when that number is
    above 999.  The three examples of the specification follow. *)
Theorem get_next_feature_number_spec :
  (forall branches : list str,
      let next := next_number (matched_numbers branches) in
      get_next_feature_number branches
      = if (next >? 999)%Z
        then Raise (ValueError (s "Feature number " ++ of_Z next
                                ++ s " exceeds maximum of 999"))
        else Ok (mkFeatureNumber next (zero_pad3 next)))
  /\ get_next_feature_number
       [s "main"; s "001-add-auth"; s "002-fix-bug"; s "003-new"]
     = Ok (mkFeatureNumber 4 (s "004"))
  /\ get_next_feature_number [s "main"; s "origin/005-remote"]
     = Ok (mkFeatureNumber 6 (s "006"))
  /\ (exists msg, get_next_feature_number [s "main"; s "999-last"]
                  = Raise (ValueError msg)).
Proof.
  split; [|split; [reflexivity | split; [reflexivity | eexists; reflexivity]]].
  intros branches next. unfold get_next_feature_number.
  rewrite collect_feature_numbers_matched.
  assert (E : match matched_numbers branches with
              | [] => 1%Z
              | _ :: _ => (py_max (matched_numbers branches) + 1)%Z
              end = next).
  { unfold next. destruct (matched_numbers branches) eqn:Em; [reflexivity|].
    apply py_max_next. discriminate. }
  rewrite E.
  destruct (next >? 999)%Z eqn:Hn; [reflexivity|].
  apply FeatureNumber_new_in_range.
  pose proof (next_number_range _ (matched_numbers_range branches)). fold next in H. lia.
Qed.

(** ** Reasoning about the monad *)

Section Monad.

Context {A B : Type}.

Lemma bind_ok (m : M A) (k : A -> M B) st a st' :
  m st = (Ok a, st') -> bind m k st = k a st'.
Proof. unfold bind. now intros ->. Qed.

Lemma bind_raise (m : M A) (k : A -> M B) st e st' :
  m st = (Raise e, st') -> bind m k st = (Raise e, st').
Proof. unfold bind. now intros ->. Qed.

Lemma try_except_ok (m : M A) handles h st a st' :
  m st = (Ok a, st') -> try_except m handles h st = (Ok a, st').
Proof. unfold try_except. now intros ->. Qed.

Lemma try_except_caught (m : M A) handles h st e st' :
  m st = (Raise e, st') -> handles e = true ->
  try_except m handles h st = h e st'.
Proof. unfold try_except. now intros -> ->. Qed.

Lemma try_except_passed (m : M A) handles h st e st' :
  m st = (Raise e, st') -> handles e = false ->
  try_except m handles h st = (Raise e, st').
Proof. unfold try_except. now intros -> ->. Qed.

Lemma never_exits_ret (a : A) : never_exits (ret a).
Proof. intros st e st'; discriminate. Qed.

Lemma never_exits_raise e : is_Exception e = true -> never_exits (@raise A e).
Proof. intros H st e' st' [= <- _]. exact H. Qed.

Lemma never_exits_bind (m : M A) (k : A -> M B) :
  never_exits m -> (forall a, never_exits (k a)) -> never_exits (bind m k).
Proof.
  intros Hm Hk st e st'. unfold bind.
  destruct (m st) as [[a|e'] st1] eqn:E.
  - apply Hk.
  - intros [= <- <-]. exact (Hm _ _ _ E).
Qed.

End Monad.

Lemma never_exits_emit ev : never_exits (emit ev).
Proof. intros st e st'; discriminate. Qed.

Lemma never_exits_get_fs : never_exits get_fs.
Proof. intros st e st'; discriminate. Qed.

Lemma never_exits_set_fs n : never_exits (set_fs n).
Proof. intros st e st'; discriminate. Qed.

Lemma never_exits_when c m : never_exits m -> never_exits (when c m).
Proof. destruct c; [trivial | intros _; apply never_exits_ret]. Qed.

(** Splits a goal [never_exits m] along the structure of [m]. *)
Ltac split_never_exits :=
  repeat first
    [ apply never_exits_ret
    | apply never_exits_emit
    | apply never_exits_get_fs
    | apply never_exits_set_fs
    | apply never_exits_raise; reflexivity
    | apply never_exits_when
    | apply never_exits_bind; [|intros ?]
    | match goal with
      | |- never_exits (match ?x with _ => _ end) => destruct x
      end ].

Lemma never_exits_stat w p : never_exits (stat w p).
Proof. unfold stat. split_never_exits. Qed.

Lemma never_exits_path_exists w p : never_exits (path_exists w p).
Proof. unfold path_exists. apply never_exits_bind; [apply never_exits_stat|]. intros; split_never_exits. Qed.

Lemma never_exits_path_is_file w p : never_exits (path_is_file w p).
Proof. unfold path_is_file. apply never_exits_bind; [apply never_exits_stat|]. intros; split_never_exits. Qed.

Lemma never_exits_read_text w p : never_exits (read_text w p).
Proof. unfold read_text. apply never_exits_bind; [apply never_exits_stat|]. intros; split_never_exits. Qed.

Lemma never_exits_write_text w p data : never_exits (write_text w p data).
Proof. unfold write_text. split_never_exits. Qed.

Lemma never_exits_mkdir_parents w p : never_exits (mkdir_parents w p).
Proof.
  unfold mkdir_parents. apply never_exits_bind; [apply never_exits_emit|]. intros _.
  generalize (@nil str) as done. generalize (resolve w p) as todo.
  induction todo as [|c todo IH]; intros done; simpl; [apply never_exits_ret|].
  apply never_exits_bind; [|intros _; apply IH].
  unfold mkdir_step. split_never_exits.
Qed.

Lemma never_exits_read_env_file w workspace_path filepath :
  never_exits (read_env_file_from_filesystem w workspace_path filepath).
Proof.
  unfold read_env_file_from_filesystem.
  repeat first
    [ apply never_exits_path_exists | apply never_exits_path_is_file
    | apply never_exits_read_text
    | apply never_exits_when; apply never_exits_raise; reflexivity
    | apply never_exits_bind; [|intros ?] ].
Qed.

Lemma never_exits_copy_one w repo_root worktree_path filepath :
  never_exits (copy_one w repo_root worktree_path filepath).
Proof.
  unfold copy_one.
  apply never_exits_bind; [apply never_exits_read_env_file|]. intros content.
  apply never_exits_bind; [apply never_exits_mkdir_parents|]. intros _.
  apply never_exits_write_text.
Qed.

(** ** The copy loop *)

Lemma count_ok_cons f r outs :
  count_ok ((f, r) :: outs) = ((if is_ok r then 1 else 0) + count_ok outs)%Z.
Proof. unfold count_ok. simpl. destruct (is_ok r); simpl length; lia. Qed.

Lemma count_failed_cons f r outs :
  count_failed ((f, r) :: outs) = ((if is_ok r then 0 else 1) + count_failed outs)%Z.
Proof. unfold count_failed. simpl. destruct (is_ok r); simpl length; lia. Qed.

Lemma counts_total outs :
  (count_ok outs + count_failed outs)%Z = Z.of_nat (length outs).
Proof.
  induction outs as [|[f r] outs IH]; [reflexivity|].
  rewrite count_ok_cons, count_failed_cons. simpl length.
  destruct (is_ok r); lia.
Qed.

Lemma failure_messages_cons f r outs :
  failure_messages ((f, r) :: outs) = failure_messages [(f, r)] ++ failure_messages outs.
Proof. unfold failure_messages. simpl. now rewrite app_nil_r. Qed.

Lemma failure_messages_length outs :
  Z.of_nat (length (failure_messages outs)) = count_failed outs.
Proof.
  induction outs as [|[f r] outs IH]; [reflexivity|].
  rewrite count_failed_cons, failure_messages_cons, length_app, Nat2Z.inj_add, IH.
  destruct r; reflexivity.
Qed.

Lemma attempt_all_files w repo_root worktree_path files st :
  map fst (fst (attempt_all w repo_root worktree_path files st)) = files.
Proof.
  revert st; induction files as [|f rest IH]; intros st; [reflexivity|].
  simpl. destruct (copy_one _ _ _ f st) as [r st1].
  specialize (IH st1). destruct (attempt_all _ _ _ rest st1) as [outs st2].
  simpl in *. now rewrite IH.
Qed.

(** The loop of [copy_env_files_to_worktree] attempts every file and
    counts each outcome once. *)
Lemma copy_loop w repo_root worktree_path files :
  forall c st,
    for_each files c (copy_step w repo_root worktree_path) st
    = (Ok (mkCounters
             (copied c + count_ok (fst (attempt_all w repo_root worktree_path files st)))
             (failed c + count_failed (fst (attempt_all w repo_root worktree_path files st)))
             (messages c
              ++ failure_messages (fst (attempt_all w repo_root worktree_path files st)))),
       snd (attempt_all w repo_root worktree_path files st)).
Proof.
  induction files as [|f rest IH]; intros c st.
  - simpl. unfold ret, count_ok, count_failed. simpl.
    rewrite !Z.add_0_r, app_nil_r. now destruct c.
  - simpl for_each. simpl attempt_all.
    destruct (copy_one w repo_root worktree_path f st) as [r st1] eqn:E.
    assert (Hstep : copy_step w repo_root worktree_path c f st
                    = (Ok (mkCounters
                             (copied c + (if is_ok r then 1 else 0))
                             (failed c + (if is_ok r then 0 else 1))
                             (messages c ++ failure_messages [(f, r)])), st1)).
    { unfold copy_step. destruct r as [[]|e].
      - erewrite try_except_ok; [|erewrite bind_ok by exact E; reflexivity].
        simpl. now rewrite Z.add_0_r, app_nil_r.
      - pose proof (never_exits_copy_one _ _ _ _ _ _ _ E) as He.
        erewrite try_except_caught; [| erewrite bind_raise by exact E; reflexivity | exact He].
        unfold ret. simpl. now rewrite Z.add_0_r. }
    erewrite bind_ok by exact Hstep. rewrite IH.
    destruct (attempt_all w repo_root worktree_path rest st1) as [outs st2].
    cbn [fst snd copied failed messages].
    rewrite count_ok_cons, count_failed_cons.
    now rewrite !Z.add_assoc, (failure_messages_cons f r outs), app_assoc.
Qed.

Lemma path_exists_found w p st n :
  fs_lookup (fs st) (resolve w p) = Some n -> path_exists w p st = (Ok true, st).
Proof. intros H. unfold path_exists, stat, bind, get_fs, ret. now rewrite H. Qed.

Lemma path_is_dir_found w p st wr es :
  fs_lookup (fs st) (resolve w p) = Some (Dir wr es) -> path_is_dir w p st = (Ok true, st).
Proof. intros H. unfold path_is_dir, stat, bind, get_fs, ret. now rewrite H. Qed.

Lemma count_ok_nonneg outs : (0 <= count_ok outs)%Z.
Proof. unfold count_ok. lia. Qed.

Lemma count_failed_nonneg outs : (0 <= count_failed outs)%Z.
Proof. unfold count_failed. lia. Qed.

(** The counts of a finished loop pass [validate_counts]. *)
Lemma EnvFileCopyResult_new_counts outs msgs :
  EnvFileCopyResult_new (Z.of_nat (length outs)) (count_ok outs) (count_failed outs) msgs
  = Ok (mkEnvFileCopyResult (Z.of_nat (length outs)) (count_ok outs) (count_failed outs)
          msgs).
Proof.
  unfold EnvFileCopyResult_new.
  pose proof (count_ok_nonneg outs). pose proof (count_failed_nonneg outs).
  pose proof (counts_total outs).
  replace (0 <=? Z.of_nat (length outs))%Z with true by (symmetry; apply Z.leb_le; lia).
  replace (0 <=? count_ok outs)%Z with true by (symmetry; apply Z.leb_le; lia).
  replace (0 <=? count_failed outs)%Z with true by (symmetry; apply Z.leb_le; lia).
  replace (count_ok outs + count_failed outs >? Z.of_nat (length outs))%Z with false
    by (symmetry; rewrite Z.gtb_ltb; apply Z.ltb_ge; lia).
  reflexivity.
Qed.

Lemma attempt_all_length w repo_root worktree_path files st :
  length (fst (attempt_all w repo_root worktree_path files st)) = length files.
Proof.
  rewrite <- (attempt_all_files w repo_root worktree_path files st) at 2.
  now rewrite length_map.
Qed.

(** C8. With the destination an existing directory and the source root
    resolved, [copy_env_files_to_worktree] attempts every discovered file
    in turn, whatever the outcome of the files before it: the state it
    ends in is the one left by all attempts, [files_copied] counts the
    attempts that succeeded, [files_failed] those that raised, [errors]
    holds one description per failed file, and the function returns the
    report.  Only a failure of the discovery itself is raised. *)
Theorem copy_env_files_best_effort
    (w : World) (worktree_path : Path) (st : State)
    (wr : bool) (es : list (str * Node)) (repo_root : Path) (st1 : State) :
  fs_lookup (fs st) (resolve w worktree_path) = Some (Dir wr es) ->
  git_operations.get_repo_root w st = (Ok repo_root, st1) ->
  match discover_env_files w repo_root st1 with
  | (Raise e, st2) =>
      copy_env_files_to_worktree w worktree_path st = (Raise e, st2)
  | (Ok env_files, st2) =>
      let outs := fst (attempt_all w repo_root worktree_path env_files st2) in
      let st3 := snd (attempt_all w repo_root worktree_path env_files st2) in
      map fst outs = env_files
      /\ copy_env_files_to_worktree w worktree_path st
         = (Ok (mkEnvFileCopyResult (Z.of_nat (length env_files)) (count_ok outs)
                  (count_failed outs) (failure_messages outs)), st3)
  end.
Proof.
  intros Hdir Hroot. unfold copy_env_files_to_worktree.
  erewrite bind_ok by (eapply path_exists_found; exact Hdir).
  erewrite bind_ok by reflexivity.
  erewrite bind_ok by (eapply path_is_dir_found; exact Hdir).
  erewrite bind_ok by reflexivity.
  erewrite bind_ok by (eapply try_except_ok; exact Hroot).
  destruct (discover_env_files w repo_root st1) as [[env_files|e] st2] eqn:Ed.
  - cbv zeta. split; [apply attempt_all_files|].
    erewrite bind_ok by exact Ed.
    erewrite bind_ok by apply copy_loop.
    cbn [copied failed messages app]. unfold lift.
    rewrite !Z.add_0_l, <- (attempt_all_length w repo_root worktree_path env_files st2).
    now rewrite EnvFileCopyResult_new_counts.
  - now erewrite bind_raise by exact Ed.
Qed.

Lemma copy_env_files_best_effort_witness :
  exists st3,
    copy_env_files_to_worktree demo_world
      (Path_of_str (s "/repo/.worktrees/001-a")) (mkState demo_fs [])
    = (Ok (mkEnvFileCopyResult 5 3 2
             [s "Failed to copy .envdir/.env.x: 'utf-8' codec can't decode byte: invalid start byte";
              s "Failed to copy api/.env.test: Permission denied: /repo/api/.env.test"]),
       st3)
    /\ fs_lookup (fs st3) [s "repo"; s ".worktrees"; s "001-a"; s "web"; s ".env"]
       = Some (File true true (Text (s "F=6"))).
Proof.
  pose proof (copy_env_files_best_effort demo_world
                (Path_of_str (s "/repo/.worktrees/001-a")) (mkState demo_fs [])
                true [(s ".env", File true true (Text (s "E=5")))]
                (Path_of_str (s "/repo"))
                (mkState demo_fs
                   [EvRun [s "git"; s "rev-parse"; s "--show-toplevel"] None
                      (Completed 0 (s "/repo" ++ ["010"%char]) [])])
                eq_refl eq_refl) as H.
  vm_compute in H. destruct H as [_ H].
  eexists. split; [exact H | reflexivity].
Defined.

(** C10. Every report that [copy_env_files_to_worktree] returns has
    [files_copied + files_failed = files_discovered] and as many error
    descriptions as failed files. *)
Theorem copy_report_counts
    (w : World) (worktree_path : Path) (st st' : State) (r : EnvFileCopyResult) :
  copy_env_files_to_worktree w worktree_path st = (Ok r, st') ->
  (files_copied r + files_failed r = files_discovered r)%Z
  /\ Z.of_nat (length (errors r)) = files_failed r.
Proof.
  unfold copy_env_files_to_worktree, bind. intros H.
  repeat match type of H with
         | context [match ?m ?x with _ => _ end] =>
             destruct (m x) as [[?|?] ?] eqn:?; try discriminate
         end.
  match goal with
  | E : for_each _ _ _ _ = _ |- _ => rewrite copy_loop in E; injection E as <- <-
  end.
  cbn [copied failed messages app] in H. unfold lift in H.
  rewrite ?Z.add_0_l in H.
  match type of H with
  | context [attempt_all ?a ?b ?c ?d ?e] =>
      rewrite <- (attempt_all_length a b c d e), EnvFileCopyResult_new_counts in H;
      injection H as <- <-;
      cbn [files_copied files_failed files_discovered errors];
      split; [apply counts_total | apply failure_messages_length]
  end.
Qed.

Lemma copy_report_counts_witness :
  (3 + 2 = 5)%Z /\ Z.of_nat 2 = 2%Z.
Proof.
  eapply (copy_report_counts demo_world (Path_of_str (s "/repo/.worktrees/001-a"))
            (mkState demo_fs []) _
            (mkEnvFileCopyResult 5 3 2
               [s "Failed to copy .envdir/.env.x: 'utf-8' codec can't decode byte: invalid start byte";
                s "Failed to copy api/.env.test: Permission denied: /repo/api/.env.test"])).
  vm_compute. reflexivity.
Defined.

(** ** What a computation adds to the log *)

Section OnlyEmits.

Variable P : Event -> bool.

Lemma only_emits_same {A} (m : M A) :
  (forall st, log (snd (m st)) = log st) -> only_emits P m.
Proof. intros H st. exists []. now rewrite H, app_nil_r. Qed.

Lemma only_emits_ret {A} (a : A) : only_emits P (ret a).
Proof. now apply only_emits_same. Qed.

Lemma only_emits_raise {A} e : only_emits P (@raise A e).
Proof. now apply only_emits_same. Qed.

Lemma only_emits_lift {A} (r : Res A) : only_emits P (lift r).
Proof. now apply only_emits_same. Qed.

Lemma only_emits_get_fs : only_emits P get_fs.
Proof. now apply only_emits_same. Qed.

Lemma only_emits_set_fs n : only_emits P (set_fs n).
Proof. now apply only_emits_same. Qed.

Lemma only_emits_emit ev : P ev = true -> only_emits P (emit ev).
Proof. intros H st. exists [ev]. simpl. now rewrite H. Qed.

Lemma only_emits_bind {A B} (m : M A) (k : A -> M B) :
  only_emits P m -> (forall a, only_emits P (k a)) -> only_emits P (bind m k).
Proof.
  intros Hm Hk st. unfold bind. destruct (Hm st) as (evs & E & F).
  destruct (m st) as [[a|e] st1]; simpl in E.
  - destruct (Hk a st1) as (evs' & E' & F'). exists (evs ++ evs').
    rewrite E', E, app_assoc, forallb_app, F, F'. now split.
  - exists evs. now split.
Qed.

Lemma only_emits_try_except {A} (m : M A) handles h :
  only_emits P m -> (forall e, only_emits P (h e)) -> only_emits P (try_except m handles h).
Proof.
  intros Hm Hh st. unfold try_except. destruct (Hm st) as (evs & E & F).
  destruct (m st) as [[a|e] st1]; simpl in E.
  - exists evs. now split.
  - destruct (handles e).
    + destruct (Hh e st1) as (evs' & E' & F'). exists (evs ++ evs').
      rewrite E', E, app_assoc, forallb_app, F, F'. now split.
    + exists evs. now split.
Qed.

Lemma only_emits_when c m : only_emits P m -> only_emits P (when c m).
Proof. destruct c; [trivial | intros _; apply only_emits_ret]. Qed.

Lemma only_emits_subprocess_run w argv cwd check :
  (forall r, P (EvRun argv cwd r) = true) ->
  only_emits P (subprocess_run w argv cwd check).
Proof.
  intros H st. unfold subprocess_run, bind, get_fs, set_fs, emit.
  destruct (run_process w argv cwd (fs st)) as [r root'].
  exists [EvRun argv cwd r]. simpl. rewrite H.
  split; [|reflexivity].
  destruct r as [rc out err| |]; [destruct (check && negb (rc =? 0)%Z)| |]; reflexivity.
Qed.

Lemma only_emits_stat w p : only_emits P (stat w p).
Proof. now apply only_emits_same. Qed.

Lemma only_emits_path_exists w p : only_emits P (path_exists w p).
Proof. now apply only_emits_same. Qed.

Lemma only_emits_read_text w p : only_emits P (read_text w p).
Proof.
  unfold read_text. apply only_emits_bind; [apply only_emits_stat|].
  intros n.
  repeat first [ apply only_emits_ret | apply only_emits_raise
               | match goal with
                 | |- only_emits _ (match ?x with _ => _ end) => destruct x
                 end ].
Qed.

End OnlyEmits.

(** Splits a goal [only_emits P m] along the structure of [m]; what an
    event must satisfy is decided by evaluation. *)
Ltac only_emits_step :=
  first
    [ apply only_emits_ret
    | apply only_emits_raise
    | apply only_emits_lift
    | apply only_emits_path_exists
    | apply only_emits_read_text
    | apply only_emits_emit; reflexivity
    | apply only_emits_subprocess_run; intros ?; reflexivity
    | apply only_emits_when
    | apply only_emits_bind; [|intros ?]
    | apply only_emits_try_except; [|intros ?]
    | match goal with
      | |- only_emits _ (match ?x with _ => _ end) => destruct x
      | |- only_emits _ (let _ := _ in _) => cbv zeta
      end ].

Ltac split_only_emits := repeat only_emits_step.

Section Footprints.

Variable P : Event -> bool.
Variable w : World.

(** The events of the stages before provisioning all satisfy [P]. *)
Hypothesis P_echo : forall err msg, is_early (EvEcho err msg) = true -> P (EvEcho err msg) = true.
Hypothesis P_run : forall argv cwd r,
    is_early (EvRun argv cwd r) = true -> P (EvRun argv cwd r) = true.

Local Ltac by_P :=
  first [ apply only_emits_emit; apply P_echo; reflexivity
        | apply only_emits_subprocess_run; intros ?; apply P_run; reflexivity ].

Local Ltac go :=
  repeat first [ by_P | progress unfold echo, echo_err, sys_exit | only_emits_step ].

Lemma footprint_validate_git : only_emits P (validators.is_git_installed w).
Proof. unfold validators.is_git_installed. go. Qed.

Lemma footprint_is_git_repository path :
  only_emits P (git_operations.is_git_repository w path).
Proof. unfold git_operations.is_git_repository. go. Qed.

Lemma footprint_get_repo_root : only_emits P (git_operations.get_repo_root w).
Proof. unfold git_operations.get_repo_root. go. Qed.

Lemma footprint_get_main_branch : only_emits P (git_operations.get_main_branch w).
Proof. unfold git_operations.get_main_branch. go. Qed.

Lemma footprint_check_required_paths repo_path main_branch paths :
  only_emits P (validators.check_required_paths w repo_path main_branch paths).
Proof.
  induction paths as [|git_path rest IH]; simpl; [apply only_emits_ret|].
  apply only_emits_bind.
  - unfold validators.check_required_path, validators.spec_kit. go.
  - intros [failure|]; [apply only_emits_ret | exact IH].
Qed.

Lemma footprint_is_spec_kit_initialized repo_path main_branch :
  only_emits P (validators.is_spec_kit_initialized w repo_path main_branch).
Proof.
  unfold validators.is_spec_kit_initialized, validators.spec_kit.
  repeat first [ apply footprint_check_required_paths | by_P | only_emits_step ].
Qed.

Lemma footprint_is_claude_code_installed :
  only_emits P (validators.is_claude_code_installed w).
Proof. unfold validators.is_claude_code_installed. go. Qed.

Lemma footprint_git_fetch : only_emits P (git_operations.git_fetch w).
Proof. unfold git_operations.git_fetch. go. Qed.

Lemma footprint_list_all_branches : only_emits P (git_operations.list_all_branches w).
Proof. unfold git_operations.list_all_branches. go. Qed.

Lemma footprint_report_failed_check {A} v : only_emits P (@report_failed_check A v).
Proof. unfold report_failed_check. go. Qed.

End Footprints.

(** ** The validation sequence *)

Lemma report_failed_check_run {A} (v : ValidationResult) (st : State) :
  @report_failed_check A v st = (Raise (SystemExit 1), after st (diagnostic v)).
Proof.
  unfold report_failed_check, diagnostic, after, echo_err, emit, bind, when, sys_exit,
    raise, ret.
  destruct (truthy (suggestion v)); simpl; now rewrite <- ?app_assoc, ?app_nil_r.
Qed.

Lemma failed_check_exits {B} (v : ValidationResult) (k : unit -> M B) (st : State) :
  passed v = false ->
  bind (when (negb (passed v)) (report_failed_check v)) k st
  = (Raise (SystemExit 1), after st (diagnostic v)).
Proof.
  intros Hp. apply bind_raise. rewrite Hp. apply report_failed_check_run.
Qed.

Lemma passed_check_continues {B} (v : ValidationResult) (k : unit -> M B) (st : State) :
  passed v = true ->
  bind (when (negb (passed v)) (report_failed_check v)) k st = k tt st.
Proof. intros Hp. apply bind_ok. now rewrite Hp. Qed.

Lemma echo_run {B} (msg : str) (k : unit -> M B) (st : State) :
  bind (echo msg) k st = k tt (after st [EvEcho false msg]).
Proof. reflexivity. Qed.

(** What check 1 answers, by the answer of [git --version]. *)
Lemma validate_git_run (w : World) (st : State) :
  let answer := run_process w [s "git"; s "--version"] None (fs st) in
  exists v,
    validators.is_git_installed w st
    = (Ok v, mkState (snd answer)
               (log st ++ [EvRun [s "git"; s "--version"] None (fst answer)]))
    /\ passed v = negb (answer_failed (fst answer))
    /\ (passed v = false ->
        diagnostic v
        = [EvEcho true (s "Error: Git is not installed or not in PATH");
           EvEcho true (s "  Install git: https://git-scm.com/downloads")]).
Proof.
  cbv zeta. unfold validators.is_git_installed, try_except, subprocess_run, bind,
    get_fs, set_fs, emit.
  destruct (run_process w [s "git"; s "--version"] None (fs st)) as [[rc out err| |] root'];
    simpl.
  - destruct (rc =? 0)%Z; simpl; eexists; (split; [reflexivity|]);
      split; try reflexivity; intros; try discriminate; reflexivity.
  - eexists; split; [reflexivity|]. split; reflexivity.
  - eexists; split; [reflexivity|]. split; reflexivity.
Qed.

(** C4. The four prerequisite checks run in the fixed order (git
    installed, inside a working tree, scaffold on the base branch,
    assistant installed), and the first one that fails ends the run: the
    final state is the one the failing check left, followed only by its
    diagnostic, and the exit code is 1.  In particular, when
    [git --version] fails the whole log is the progress line, that one
    command and the diagnostic of check 1: checks 2 to 4 are not
    evaluated. *)
Theorem validation_fail_fast (w : World) (text : str) (st0 : State) :
  is_blank text = false ->
  (forall v1 s1,
      validators.is_git_installed w
        (after st0 [EvEcho false (check_mark ++ s " Validating prerequisites...")])
      = (Ok v1, s1) ->
      (passed v1 = false ->
       cli w text st0 = (Raise (SystemExit 1), after s1 (diagnostic v1)))
      /\ (passed v1 = true ->
          forall inside s2,
            git_operations.is_git_repository w (getcwd w)
              (after s1 [EvEcho false (check_mark ++ s " Git found")])
            = (Ok inside, s2) ->
            (inside = false ->
             cli w text st0
             = (Raise (SystemExit 1),
                after s2
                  [EvEcho true (s "Error: Not in a git repository");
                   EvEcho true
                     (s "  Run 'git init' or navigate to an existing repository")]))
            /\ (inside = true ->
                forall repo_root s3 main_branch s4,
                  git_operations.get_repo_root w s2 = (Ok repo_root, s3) ->
                  git_operations.get_main_branch w
                    (after s3 [EvEcho false (check_mark ++ s " In git repository: "
                                             ++ str_of_path repo_root)])
                  = (Ok main_branch, s4) ->
                  forall v3 s5,
                    validators.is_spec_kit_initialized w repo_root main_branch s4
                    = (Ok v3, s5) ->
                    (passed v3 = false ->
                     cli w text st0 = (Raise (SystemExit 1), after s5 (diagnostic v3)))
                    /\ (passed v3 = true ->
                        forall v4 s6,
                          validators.is_claude_code_installed w
                            (after s5 [EvEcho false
                                         (check_mark ++ s " Spec Kit initialized on "
                                          ++ main_branch ++ s " branch")])
                          = (Ok v4, s6) ->
                          passed v4 = false ->
                          cli w text st0
                          = (Raise (SystemExit 1), after s6 (diagnostic v4))))))
  /\ (forall root,
        answer_failed (fst (run_process w [s "git"; s "--version"] None root)) = true ->
        cli w text (mkState root [])
        = (Raise (SystemExit 1),
           mkState (snd (run_process w [s "git"; s "--version"] None root))
             [EvEcho false (check_mark ++ s " Validating prerequisites...");
              EvRun [s "git"; s "--version"] None
                (fst (run_process w [s "git"; s "--version"] None root));
              EvEcho true (s "Error: Git is not installed or not in PATH");
              EvEcho true (s "  Install git: https://git-scm.com/downloads")])).
Proof.
  intros Hblank.
  assert (Hstart : forall st k,
             bind (when (Str.eqb text [] || Str.eqb (strip text) [])
                     (echo_err (s "Error: Feature request is required") ;;
                      echo_err (s "  Usage: spork <feature-request>") ;;
                      echo_err (s "  Example: spork " ++ ["034"%char]
                                ++ s "add user authentication" ++ ["034"%char]) ;;
                      sys_exit 3)) k st = k tt st :> (Res unit * State)).
  { intros st k. apply bind_ok. unfold is_blank in Hblank. now rewrite Hblank. }
  split.
  - intros v1 s1 H1. split.
    { intros Hp1. unfold cli. rewrite Hstart, echo_run.
      erewrite bind_ok by exact H1. now apply failed_check_exits. }
    intros Hp1 inside s2 H2. split.
    { intros ->. unfold cli. rewrite Hstart, echo_run.
      erewrite bind_ok by exact H1. rewrite passed_check_continues, echo_run by exact Hp1.
      erewrite bind_ok by exact H2.
      apply bind_raise. unfold when, negb. unfold after, echo_err, emit, bind, sys_exit, raise.
      simpl. now rewrite <- app_assoc. }
    intros -> repo_root s3 main_branch s4 H3 H4 v3 s5 H5.
    assert (Hwhen : when (negb true)
                      (echo_err (s "Error: Not in a git repository") ;;
                       echo_err
                         (s "  Run 'git init' or navigate to an existing repository") ;;
                       sys_exit 1) = ret tt) by reflexivity.
    split.
    { intros Hp3. unfold cli. rewrite Hstart, echo_run.
      erewrite bind_ok by exact H1. rewrite passed_check_continues, echo_run by exact Hp1.
      erewrite bind_ok by exact H2. rewrite Hwhen. erewrite bind_ok by reflexivity.
      erewrite bind_ok
        by (eapply try_except_ok; erewrite bind_ok by exact H3; reflexivity).
      erewrite bind_ok by (eapply try_except_ok; exact H4).
      erewrite bind_ok by exact H5.
      now apply failed_check_exits. }
    intros Hp3 v4 s6 H6 Hp4.
    unfold cli. rewrite Hstart, echo_run.
    erewrite bind_ok by exact H1. rewrite passed_check_continues, echo_run by exact Hp1.
    erewrite bind_ok by exact H2. rewrite Hwhen. erewrite bind_ok by reflexivity.
    erewrite bind_ok
      by (eapply try_except_ok; erewrite bind_ok by exact H3; reflexivity).
    erewrite bind_ok by (eapply try_except_ok; exact H4).
    erewrite bind_ok by exact H5.
    rewrite passed_check_continues, echo_run by exact Hp3.
    erewrite bind_ok by exact H6. now apply failed_check_exits.
  - intros root Hfail.
    destruct (validate_git_run w
                (after (mkState root [])
                   [EvEcho false (check_mark ++ s " Validating prerequisites...")]))
      as (v & Hv & Hp & Hd).
    cbn [after fs log app] in Hv, Hp.
    rewrite Hfail in Hp. simpl in Hp. specialize (Hd Hp).
    unfold cli. rewrite Hstart, echo_run.
    erewrite bind_ok by exact Hv.
    rewrite failed_check_exits by exact Hp. now rewrite Hd.
Qed.

(** ** The log of a whole run *)

Lemma footprint_create_worktree P w path branch base :
  (forall argv cwd r, P (EvRun argv cwd r) = true) ->
  only_emits P (git_operations.create_worktree w path branch base).
Proof.
  intros Hrun. unfold git_operations.create_worktree.
  repeat first [ apply only_emits_subprocess_run; intros ?; apply Hrun | only_emits_step ].
Qed.

Lemma footprint_launch_claude_code P w path text :
  (forall argv cwd r, P (EvRun argv cwd r) = true) ->
  only_emits P (launch_claude_code w path text).
Proof.
  intros Hrun. unfold launch_claude_code.
  repeat first [ apply only_emits_subprocess_run; intros ?; apply Hrun | only_emits_step ].
Qed.

(** A run adds to the log only what it prints and the commands it runs. *)
Lemma footprint_cli P w text :
  (forall err msg, P (EvEcho err msg) = true) ->
  (forall argv cwd r, P (EvRun argv cwd r) = true) ->
  only_emits P (cli w text).
Proof.
  intros Hecho Hrun. unfold cli, echo, echo_err, sys_exit.
  repeat first
    [ apply only_emits_emit; apply Hecho
    | apply footprint_validate_git; intros; auto
    | apply footprint_is_git_repository; intros; auto
    | apply footprint_get_repo_root; intros; auto
    | apply footprint_get_main_branch; intros; auto
    | apply footprint_is_spec_kit_initialized; intros; auto
    | apply footprint_is_claude_code_installed; intros; auto
    | apply footprint_git_fetch; intros; auto
    | apply footprint_list_all_branches; intros; auto
    | apply footprint_report_failed_check; intros; auto
    | apply footprint_create_worktree; exact Hrun
    | apply footprint_launch_claude_code; exact Hrun
    | only_emits_step ].
Qed.

(** ** Invariants of the log along a run *)

Lemma wp_bind_inv {A B} (P : Event -> bool) (m : M A) (k : A -> M B)
    (post : Res B -> State -> Prop) (st : State) :
  only_emits P m ->
  forallb P (log st) = true ->
  (forall e st', forallb P (log st') = true -> post (Raise e) st') ->
  (forall a st', forallb P (log st') = true -> wp (k a) post st') ->
  wp (bind m k) post st.
Proof.
  intros Hm Hst Hraise Hk. unfold wp, bind.
  destruct (Hm st) as (evs & E & F).
  assert (Hinv : forallb P (log (snd (m st))) = true)
    by (rewrite E, forallb_app, Hst, F; reflexivity).
  destruct (m st) as [[a|e] st1]; simpl in Hinv.
  - apply Hk, Hinv.
  - simpl. apply Hraise, Hinv.
Qed.

Lemma early_is_preparation e : is_early e = true -> is_preparation e = true.
Proof. unfold is_early. intros H. now apply andb_true_iff in H. Qed.

Lemma forallb_existsb_false {X} (P Q : X -> bool) l :
  (forall x, Q x = true -> P x = false) ->
  forallb P l = true -> existsb Q l = false.
Proof.
  intros H. induction l as [|x l IH]; simpl; [reflexivity|].
  intros Hl. apply andb_true_iff in Hl as [Hx Hl].
  rewrite (IH Hl), orb_false_r.
  destruct (Q x) eqn:E; [|reflexivity]. rewrite (H x E) in Hx. discriminate.
Qed.

Lemma preparation_not_worktree_add l :
  forallb is_preparation l = true -> existsb is_worktree_add l = false.
Proof.
  apply forallb_existsb_false. intros e H. unfold is_preparation. now rewrite H.
Qed.

Lemma preparation_not_launch l :
  forallb is_preparation l = true -> existsb is_launch l = false.
Proof.
  apply forallb_existsb_false. intros e H. unfold is_preparation.
  rewrite H. now rewrite andb_false_r.
Qed.

Lemma preparation_not_write l :
  forallb is_preparation l = true -> existsb is_write l = false.
Proof.
  apply forallb_existsb_false. intros e H. unfold is_preparation.
  rewrite H. now rewrite andb_false_r.
Qed.

Lemma preparation_not_failed_worktree_add l :
  forallb is_preparation l = true -> existsb is_failed_worktree_add l = false.
Proof.
  apply forallb_existsb_false. intros e H. unfold is_preparation.
  destruct e as [argv cwd r| | |]; try discriminate. simpl in *.
  apply andb_true_iff in H as [H _]. now rewrite H.
Qed.

(** What the provisioner and the handoff do to the state. *)

Lemma create_worktree_run w path branch base st :
  let argv := [s "git"; s "worktree"; s "add"; str_of_path path; s "-b"; branch; base] in
  let answer := run_process w argv None (fs st) in
  exists r,
    git_operations.create_worktree w path branch base st
    = (r, mkState (snd answer) (log st ++ [EvRun argv None (fst answer)]))
    /\ ((answer_failed (fst answer) = false /\ r = Ok true)
        \/ (answer_failed (fst answer) = true /\ exists msg, r = Raise (RuntimeError msg))).
Proof.
  cbv zeta. unfold git_operations.create_worktree, try_except, subprocess_run, bind,
    get_fs, set_fs, emit.
  destruct (run_process w _ None (fs st)) as [[rc out err| |] root']; cbn [fst snd].
  - cbn [answer_failed andb]. destruct (rc =? 0)%Z; cbn [negb].
    + eexists. split; [reflexivity|]. left. now split.
    + cbn [raise is_process_error is_CalledProcessError stderr_of].
      destruct (contains (s "already exists") err);
        [|destruct (contains (s "Permission denied") err)];
        (eexists; split; [reflexivity|]; right; split; [reflexivity | eexists; reflexivity]).
  - eexists. split; [reflexivity|]. right. split; [reflexivity | eexists; reflexivity].
  - eexists. split; [reflexivity|]. right. split; [reflexivity | eexists; reflexivity].
Qed.

Lemma launch_claude_code_run w path text st :
  exists code answer root',
    launch_claude_code w path text st
    = (Ok code,
       mkState root'
         (log st ++ [EvRun [s "claude"; s "/specify " ++ text]
                       (Some (str_of_path path)) answer])).
Proof.
  unfold launch_claude_code, try_except, subprocess_run, bind, get_fs, set_fs, emit.
  destruct (run_process w _ _ (fs st)) as [[rc out err| |] root']; cbn;
    do 3 eexists; reflexivity.
Qed.

(** One stage of the run before provisioning: it keeps the log within
    [P], and ends the run only with an outcome that [post] accepts. *)
Ltac footprint_of_stage close :=
  solve
    [ apply footprint_validate_git; close
    | apply footprint_is_git_repository; close
    | apply footprint_get_repo_root; close
    | apply footprint_get_main_branch; close
    | apply footprint_is_spec_kit_initialized; close
    | apply footprint_is_claude_code_installed; close
    | apply footprint_git_fetch; close
    | apply footprint_list_all_branches; close
    | apply only_emits_when; apply footprint_report_failed_check; close
    | apply only_emits_try_except;
      [ first [ apply footprint_get_repo_root; close
              | apply footprint_get_main_branch; close
              | apply only_emits_bind;
                [ apply footprint_get_repo_root; close
                | intros ?; unfold echo; split_only_emits ] ]
      | intros ?; unfold echo_err, sys_exit; split_only_emits ]
    | unfold echo, echo_err, sys_exit; split_only_emits ].

Ltac stage P close vacuous :=
  cbv beta zeta;
  apply (wp_bind_inv P);
  [ footprint_of_stage close
  | assumption
  | intros ? ? ?; vacuous
  | intros ? ? ? ].

(** C2, amended. Whenever [git worktree add] fails, whatever the failure,
    the run ends with exit code 2 and the assistant is not launched. *)
Theorem provisioning_failure_exits_2 (w : World) (text : str) (root : Node) :
  existsb is_failed_worktree_add (log (snd (cli w text (mkState root [])))) = true ->
  fst (cli w text (mkState root [])) = Raise (SystemExit 2)
  /\ existsb is_launch (log (snd (cli w text (mkState root [])))) = false.
Proof.
  change (wp (cli w text)
            (fun r st' =>
               existsb is_failed_worktree_add (log st') = true ->
               r = Raise (SystemExit 2) /\ existsb is_launch (log st') = false)
            (mkState root [])).
  assert (Hinit : forallb is_preparation (log (mkState root [])) = true) by reflexivity.
  revert Hinit. generalize (mkState root []) as st. intros st Hinit.
  unfold cli.
  repeat stage is_preparation
    ltac:(intros; apply early_is_preparation; assumption)
    ltac:(intros Hf;
          match goal with
          | H : forallb is_preparation _ = true |- _ =>
              rewrite (preparation_not_failed_worktree_add _ H) in Hf; discriminate
          end).
  cbv beta zeta. unfold wp, bind, try_except.
  match goal with
  | |- context [git_operations.create_worktree ?w ?p ?b ?base ?st] =>
      destruct (create_worktree_run w p b base st) as (r & E & [[Hok ->] | [Hfail [msg ->]]]);
      rewrite E; clear E
  end.
  - (* provisioning succeeded: the handoff follows *)
    unfold echo, emit. cbn [fst snd fs log].
    match goal with
    | |- context [launch_claude_code ?w ?p ?t ?st] =>
        destruct (launch_claude_code_run w p t st) as (code & answer & root' & E);
        rewrite E; clear E
    end.
    cbn [fst snd fs log sys_exit raise].
    intros Hf. exfalso. revert Hf.
    rewrite !existsb_app, (preparation_not_failed_worktree_add _ H21).
    cbn [existsb is_failed_worktree_add is_prefix orb]. rewrite Hok.
    cbn. discriminate.
  - (* provisioning failed: exit code 2, no handoff *)
    cbn [is_RuntimeError]. unfold echo_err, emit, sys_exit, raise.
    cbn [fst snd fs log]. intros _. split; [reflexivity|].
    rewrite !existsb_app, (preparation_not_launch _ H21). reflexivity.
Qed.

(** In a world where the branch exists already the run ends with code 2,
    not with code 4 as C2 states. *)
Lemma provisioning_failure_not_4 :
  existsb is_failed_worktree_add
    (log (snd (cli world_with_existing_branch (s "add login") (mkState demo_fs []))))
  = true
  /\ fst (cli world_with_existing_branch (s "add login") (mkState demo_fs []))
     = Raise (SystemExit 2)
  /\ fst (cli world_with_existing_branch (s "add login") (mkState demo_fs []))
     <> Raise (SystemExit 4).
Proof.
  assert (E : fst (cli world_with_existing_branch (s "add login") (mkState demo_fs []))
              = Raise (SystemExit 2)) by (vm_compute; reflexivity).
  split; [vm_compute; reflexivity|]. split; [exact E|]. rewrite E. discriminate.
Qed.

Lemma provisioning_failure_exits_2_witness :
  fst (cli world_with_existing_branch (s "add login") (mkState demo_fs []))
  = Raise (SystemExit 2)
  /\ existsb is_launch
       (log (snd (cli world_with_existing_branch (s "add login") (mkState demo_fs []))))
     = false.
Proof.
  apply (provisioning_failure_exits_2 world_with_existing_branch (s "add login") demo_fs).
  vm_compute. reflexivity.
Defined.

Lemma validation_fail_fast_witness :
  fst (cli world_without_claude (s "add login") (mkState demo_fs []))
  = Raise (SystemExit 1)
  /\ cli world_without_git (s "add login") (mkState demo_fs [])
     = (Raise (SystemExit 1),
        mkState demo_fs
          [EvEcho false (check_mark ++ s " Validating prerequisites...");
           EvRun [s "git"; s "--version"] None NotFound;
           EvEcho true (s "Error: Git is not installed or not in PATH");
           EvEcho true (s "  Install git: https://git-scm.com/downloads")]).
Proof.
  split.
  - destruct (validation_fail_fast world_without_claude (s "add login")
                (mkState demo_fs []) eq_refl) as [H _].
    edestruct H as [_ H2]; [vm_compute; reflexivity|].
    edestruct (H2 eq_refl) as [_ H3]; [vm_compute; reflexivity|].
    edestruct (H3 eq_refl) as [_ H4];
      [vm_compute; reflexivity | vm_compute; reflexivity | vm_compute; reflexivity|].
    erewrite (H4 eq_refl); [reflexivity | vm_compute; reflexivity | reflexivity].
  - destruct (validation_fail_fast world_without_git (s "add login")
                (mkState demo_fs []) eq_refl) as [_ H].
    exact (H demo_fs eq_refl).
Defined.

(** ** Input without a retainable character *)

Lemma FeatureRequest_new_empty text :
  exists msg, FeatureRequest_new text [] = Raise (ValidationError msg).
Proof.
  unfold FeatureRequest_new.
  destruct (negb ((1 <=? len text)%Z && (len text <=? 500)%Z)); eexists; reflexivity.
Qed.

Lemma forallb_weaken {X} (P Q : X -> bool) l :
  (forall x, P x = true -> Q x = true) -> forallb P l = true -> forallb Q l = true.
Proof.
  intros H. induction l as [|x l IH]; simpl; [reflexivity|].
  intros Hl. apply andb_true_iff in Hl as [Hx Hl]. now rewrite (H x Hx), IH.
Qed.

Lemma early_not_announcement l :
  forallb is_early l = true -> existsb is_number_announcement l = false.
Proof.
  apply forallb_existsb_false. intros e H. unfold is_early.
  rewrite H. now rewrite andb_false_r.
Qed.

(** C7 as stated fails: without [git] on the machine the input ["!!!"],
    whose sanitized form is empty, ends the run with exit code 1. *)
Lemma empty_sanitized_name_exit_1 :
  sanitize_feature_name (s "!!!") default_max_length = []
  /\ fst (cli world_without_git (s "!!!") (mkState demo_fs [])) = Raise (SystemExit 1)
  /\ fst (cli world_without_git (s "!!!") (mkState demo_fs [])) <> Raise (SystemExit 3).
Proof.
  assert (E : fst (cli world_without_git (s "!!!") (mkState demo_fs []))
              = Raise (SystemExit 1)) by (vm_compute; reflexivity).
  split; [reflexivity|]. split; [exact E|]. rewrite E. discriminate.
Qed.

(** ** The run and the secret files *)

(** C1. No run of the command line copies a secret file: a run adds no
    write of its own to the log, and in a world where every tool answers
    well, with [.env] and [.env.local] in the repository root, it ends
    with the assistant's status and leaves the new worktree empty. *)
Theorem cli_skips_env_propagation :
  (forall w text, only_emits (fun e => negb (is_write e)) (cli w text))
  /\ fst (cli demo_world (s "add login") (mkState demo_fs [])) = Raise (SystemExit 7)
  /\ existsb is_launch (log (snd (cli demo_world (s "add login") (mkState demo_fs []))))
     = true
  /\ fs_lookup (fs (snd (cli demo_world (s "add login") (mkState demo_fs []))))
       [s "repo"; s ".env"]
     = Some (File true true (Text (s "A=1")))
  /\ fs_lookup (fs (snd (cli demo_world (s "add login") (mkState demo_fs []))))
       [s "repo"; s ".worktrees"; s "003-add-login"]
     = Some (Dir true []).
Proof.
  split; [intros w text; apply footprint_cli; reflexivity|].
  repeat split; vm_compute; reflexivity.
Qed.

(** ** Discovery of the secret files *)

Section Discovery.







(** What [rglob] yields: every path below the directory whose last name
    matches the pattern. *)





Variable w : World.







End Discovery.

(** C9. A workspace that itself lies below a directory named
    [.worktrees]: it is an existing directory and holds the regular file
    [.env], whose workspace-relative path has neither a part [.git] nor a
    part [.worktrees]; [discover_env_files] returns the empty list. *)
Theorem discover_env_files_below_worktrees :
  fs_lookup demo_fs
    (resolve demo_world (Path_of_str (s "/repo/.worktrees/001-a")))
  = Some (Dir true [(s ".env", File true true (Text (s "E=5")))])
  /\ matches_dotenv (s ".env") = true
  /\ excluded [s ".env"] = false
  /\ discover_env_files demo_world (Path_of_str (s "/repo/.worktrees/001-a"))
       (mkState demo_fs [])
     = (Ok [], mkState demo_fs []).
Proof. repeat split. Qed.

(** * Further properties *)

(** ** The sanitizer *)

Section SanitizeMore.

Lemma sub_hyphen_runs_length x : (length (sub_hyphen_runs x) <= length x)%nat.
Proof.
  induction x as [|c x IH]; [reflexivity|].
  destruct x as [|c' x']; [reflexivity|].
  rewrite sub_hyphen_runs_cons2.
  destruct (is_hyphen c && is_hyphen c'); simpl length in *; lia.
Qed.

Lemma lstrip_length x : (length (lstrip_hyphen x) <= length x)%nat.
Proof.
  induction x as [|c x IH]; [reflexivity|].
  simpl. destruct (is_hyphen c); simpl; lia.
Qed.

Lemma slice_to_length x m : (length (slice_to x m) <= length x)%nat.
Proof. destruct (slice_to_firstn x m) as [n ->]. rewrite length_firstn. lia. Qed.

Local Ltac by_cases_on c :=
  destruct c as [[|] [|] [|] [|] [|] [|] [|] [|]]; vm_compute; congruence.

(** The first three steps on one character. *)
Lemma first_steps_hyphen c :
  is_hyphen
    ((fun c => if in_class c then c else "-"%char)
       ((fun c => if Ascii.eqb c " " then "-"%char else c)
          ((fun c => if Ascii.eqb c "_" then "-"%char else c) (lower_char c))))
  = negb (retainable c).
Proof. by_cases_on c. Qed.

Lemma first_steps_all_hyphen x :
  forallb is_hyphen (sub_outside_class (replace " " "-" (replace "_" "-" (lower x))))
  = forallb (fun c => negb (retainable c)) x.
Proof.
  unfold sub_outside_class, replace, lower. rewrite !map_map.
  induction x as [|c x IH]; [reflexivity|].
  cbn [map forallb]. rewrite IH. f_equal. apply first_steps_hyphen.
Qed.

Lemma sub_hyphen_runs_all_hyphen x :
  forallb is_hyphen (sub_hyphen_runs x) = forallb is_hyphen x.
Proof.
  induction x as [|c x IH]; [reflexivity|].
  destruct x as [|c' x']; [reflexivity|].
  rewrite sub_hyphen_runs_cons2.
  destruct (is_hyphen c) eqn:Ec, (is_hyphen c') eqn:Ec'; cbn [andb].
  - rewrite IH. cbn [forallb]. now rewrite Ec, Ec'.
  - change (forallb is_hyphen (c :: sub_hyphen_runs (c' :: x'))
            = forallb is_hyphen (c :: c' :: x')).
    cbn [forallb]. rewrite Ec. cbn [andb]. exact IH.
  - cbn [forallb]. now rewrite Ec.
  - cbn [forallb]. now rewrite Ec.
Qed.

Lemma lstrip_nil x : lstrip_hyphen x = [] <-> forallb is_hyphen x = true.
Proof.
  induction x as [|c x IH]; [simpl; tauto|].
  simpl. destruct (is_hyphen c); simpl; [exact IH|]. split; discriminate.
Qed.

Lemma rstrip_nil x : rstrip_hyphen x = [] <-> forallb is_hyphen x = true.
Proof.
  induction x as [|c x IH]; [simpl; tauto|].
  simpl. destruct (rstrip_hyphen x) as [|d r].
  - destruct (is_hyphen c); simpl; [|split; discriminate].
    split; intros _; [now apply IH | reflexivity].
  - split; [discriminate|]. intros H. apply andb_true_iff in H as [_ H].
    apply IH in H. discriminate.
Qed.

Lemma strip_nil x : strip_hyphen x = [] <-> forallb is_hyphen x = true.
Proof.
  unfold strip_hyphen. rewrite rstrip_nil. split.
  - intros H. apply lstrip_nil. pose proof (lstrip_head_ok x) as Hh.
    destruct (lstrip_hyphen x) as [|c t]; [reflexivity|].
    simpl in H, Hh. rewrite Hh in H. discriminate.
  - intros H. apply lstrip_nil in H. now rewrite H.
Qed.

Lemma truncation_keeps_head x m :
  (1 <= m)%Z -> head_ok x -> x <> [] -> rstrip_hyphen (slice_to x m) <> [].
Proof.
  intros Hm Hh Hne. destruct x as [|c t]; [congruence|].
  unfold slice_to. replace (m <? 0)%Z with false by (symmetry; apply Z.ltb_ge; lia).
  destruct (Z.to_nat m) as [|n] eqn:En; [lia|].
  cbn [firstn]. intros H. apply rstrip_nil in H. simpl in H, Hh.
  rewrite Hh in H. discriminate.
Qed.

End SanitizeMore.

(** X1. No step after the lower-casing lengthens the name: the sanitizer
    never returns a name longer than the lower-cased input, whatever
    [max_length] is. *)
Theorem sanitize_never_longer (name : str) (max_length : Z) :
  (length (sanitize_feature_name name max_length) <= length (lower name))%nat.
Proof.
  unfold sanitize_feature_name, strip_hyphen.
  set (lowered := lower name).
  set (y := sub_outside_class _).
  assert (Hy : length y = length lowered).
  { unfold y, sub_outside_class, replace. now rewrite !length_map. }
  pose proof (sub_hyphen_runs_length y) as H1.
  pose proof (lstrip_length (sub_hyphen_runs y)) as H2.
  pose proof (rstrip_length (lstrip_hyphen (sub_hyphen_runs y))) as H3.
  destruct (len _ >? max_length)%Z; [|lia].
  pose proof (slice_to_length (rstrip_hyphen (lstrip_hyphen (sub_hyphen_runs y)))
                max_length) as H4.
  pose proof (rstrip_length
                (slice_to (rstrip_hyphen (lstrip_hyphen (sub_hyphen_runs y))) max_length))
    as H5.
  lia.
Qed.

Lemma forallb_lower (f : ascii -> bool) (name : str) :
  forallb f (lower name) = forallb (fun c => f (lower_char c)) name.
Proof.
  unfold lower. induction name as [|c t IH]; [reflexivity|].
  cbn [map forallb]. now rewrite IH.
Qed.

(** X2. With a [max_length] of at least 1 the sanitizer returns the empty
    name exactly when the lower-cased input holds no letter [a-z] and no
    digit. *)
Theorem sanitize_empty_iff (name : str) (max_length : Z) :
  (1 <= max_length)%Z ->
  (sanitize_feature_name name max_length = []
   <-> forallb (fun c => negb (is_lower_alnum c)) (lower name) = true).
Proof.
  intros Hm. rewrite forallb_lower.
  change (forallb (fun c => negb (is_lower_alnum (lower_char c))) name)
    with (forallb (fun c => negb (retainable c)) name).
  rewrite <- first_steps_all_hyphen, <- sub_hyphen_runs_all_hyphen, <- strip_nil.
  unfold sanitize_feature_name.
  set (z := strip_hyphen _).
  destruct (len z >? max_length)%Z eqn:E; [|tauto].
  split.
  - intros H. destruct z as [|c t] eqn:Ez; [reflexivity|]. exfalso.
    refine (truncation_keeps_head (c :: t) max_length Hm _ _ H); [|discriminate].
    rewrite <- Ez. unfold z, strip_hyphen. apply rstrip_head_ok, lstrip_head_ok.
  - intros ->. unfold slice_to. destruct (max_length <? 0)%Z; now rewrite firstn_nil.
Qed.

Lemma sanitize_empty_iff_witness :
  sanitize_feature_name (s "?? __ !!") 50 = []
  <-> forallb (fun c => negb (is_lower_alnum c)) (lower (s "?? __ !!")) = true.
Proof. apply sanitize_empty_iff. lia. Defined.

(** ** The allocator *)

Section AllocationMore.

(** The allocation in closed form. *)
Lemma get_next_feature_number_closed branches :
  get_next_feature_number branches
  = if (next_number (matched_numbers branches) >? 999)%Z
    then Raise (ValueError (s "Feature number "
                            ++ of_Z (next_number (matched_numbers branches))
                            ++ s " exceeds maximum of 999"))
    else Ok (mkFeatureNumber (next_number (matched_numbers branches))
               (zero_pad3 (next_number (matched_numbers branches)))).
Proof.
  unfold get_next_feature_number. rewrite collect_feature_numbers_matched.
  assert (E : match matched_numbers branches with
              | [] => 1%Z
              | _ :: _ => (py_max (matched_numbers branches) + 1)%Z
              end = next_number (matched_numbers branches)).
  { destruct (matched_numbers branches) eqn:Em; [reflexivity|].
    apply py_max_next. discriminate. }
  rewrite E.
  destruct (next_number (matched_numbers branches) >? 999)%Z eqn:Hn; [reflexivity|].
  apply FeatureNumber_new_in_range.
  pose proof (next_number_range _ (matched_numbers_range branches)). lia.
Qed.

Lemma next_number_greatest l :
  Forall (fun n => 0 <= n <= 999)%Z l -> next_number l = (greatest l + 1)%Z.
Proof.
  unfold greatest. destruct l as [|x t]; [reflexivity|]. intros H.
  inversion H as [|? ? Hx Ht]; subst. clear H. simpl. f_equal.
  induction Ht as [|y t Hy Ht IH]; simpl; lia.
Qed.

Lemma greatest_upper l n : In n l -> (n <= greatest l)%Z.
Proof.
  unfold greatest. induction l as [|x l IH]; [contradiction|].
  intros [->|H]; simpl; [lia|]. specialize (IH H). lia.
Qed.

Lemma greatest_perm l l' : Permutation l l' -> greatest l = greatest l'.
Proof.
  unfold greatest. induction 1; simpl; lia.
Qed.

Lemma matched_numbers_perm l l' :
  Permutation l l' -> Permutation (matched_numbers l) (matched_numbers l').
Proof.
  unfold matched_numbers. induction 1; simpl.
  - constructor.
  - now apply Permutation_app_head.
  - rewrite !app_assoc. apply Permutation_app_tail, Permutation_app_comm.
  - etransitivity; eassumption.
Qed.

Lemma matched_numbers_In b n branches :
  In b branches -> three_digit_prefix (after_final_slash b) = Some n ->
  In n (matched_numbers branches).
Proof.
  intros Hb Hn. unfold matched_numbers. apply in_flat_map. exists b.
  split; [exact Hb|]. rewrite Hn. now left.
Qed.

Lemma digit_of_value d :
  (0 <= d <= 9)%Z ->
  is_digit (ascii_of_nat (48 + Z.to_nat d)) = true
  /\ digit_value (ascii_of_nat (48 + Z.to_nat d)) = d.
Proof.
  intros H. assert (E : exists k, (k <= 9)%nat /\ d = Z.of_nat k).
  { exists (Z.to_nat d). split; lia. }
  destruct E as (k & Hk & ->). rewrite Nat2Z.id.
  do 10 (destruct k as [|k]; [split; reflexivity|]). lia.
Qed.

(** A name made of the three digits of a number, a hyphen and anything
    is read back as that number. *)
Lemma three_digit_prefix_zero_pad3 n rest :
  (0 <= n <= 999)%Z ->
  three_digit_prefix (zero_pad3 n ++ "-"%char :: rest) = Some n.
Proof.
  intros Hn. unfold zero_pad3. cbn [app].
  rewrite three_digit_prefix_cons.
  destruct (digit_of_value (n / 100)) as [D1 V1].
  { assert (n / 100 < 10)%Z by (apply Z.div_lt_upper_bound; lia).
    assert (0 <= n / 100)%Z by (apply Z.div_pos; lia). lia. }
  destruct (digit_of_value ((n / 10) mod 10)) as [D2 V2].
  { pose proof (Z.mod_pos_bound (n / 10) 10). lia. }
  destruct (digit_of_value (n mod 10)) as [D3 V3].
  { pose proof (Z.mod_pos_bound n 10). lia. }
  rewrite D1, D2, D3, V1, V2, V3, Ascii.eqb_refl. cbn [andb]. f_equal.
  pose proof (Z.div_mod n 10). pose proof (Z.div_mod (n / 10) 10).
  assert (n / 100 = n / 10 / 10)%Z by (rewrite Z.div_div; lia || reflexivity).
  lia.
Qed.

Lemma zero_pad3_no_slash n :
  (0 <= n <= 999)%Z -> ~ In "/"%char (zero_pad3 n).
Proof.
  intros Hn. unfold zero_pad3.
  assert (D : forall d, (0 <= d <= 9)%Z -> ascii_of_nat (48 + Z.to_nat d) <> "/"%char).
  { intros d Hd E. destruct (digit_of_value d Hd) as [Hdig _]. rewrite E in Hdig.
    discriminate. }
  intros [H|[H|[H|[]]]]; revert H; apply D.
  - assert (n / 100 < 10)%Z by (apply Z.div_lt_upper_bound; lia).
    assert (0 <= n / 100)%Z by (apply Z.div_pos; lia). lia.
  - pose proof (Z.mod_pos_bound (n / 10) 10). lia.
  - pose proof (Z.mod_pos_bound n 10). lia.
Qed.

End AllocationMore.

(** X3. The allocator is monotonic: the number it returns is greater than
    the number of every branch in the list that has the three-digit
    shape. *)
Theorem allocation_exceeds_existing
    (branches : list str) (b : str) (n : Z) (f : FeatureNumber) :
  In b branches ->
  three_digit_prefix (after_final_slash b) = Some n ->
  get_next_feature_number branches = Ok f ->
  (n < number f)%Z.
Proof.
  intros Hb Hn. rewrite get_next_feature_number_closed.
  destruct (_ >? 999)%Z; [discriminate|]. intros [= <-]. cbn [number].
  rewrite (next_number_greatest _ (matched_numbers_range branches)).
  pose proof (greatest_upper _ _ (matched_numbers_In b n branches Hb Hn)). lia.
Qed.

Lemma allocation_exceeds_existing_witness : (10 < 11)%Z.
Proof.
  apply (allocation_exceeds_existing
           [s "main"; s "001-first"; s "origin/010-tenth"; s "003-third"]
           (s "origin/010-tenth") 10 (mkFeatureNumber 11 (s "011")));
    [right; right; left; reflexivity | reflexivity | reflexivity].
Defined.

(** X4. The allocation does not depend on the order of the branch list. *)
Theorem allocation_order_independent (branches branches' : list str) :
  Permutation branches branches' ->
  get_next_feature_number branches = get_next_feature_number branches'.
Proof.
  intros H. rewrite !get_next_feature_number_closed.
  rewrite (next_number_greatest _ (matched_numbers_range branches)).
  rewrite (next_number_greatest _ (matched_numbers_range branches')).
  now rewrite (greatest_perm _ _ (matched_numbers_perm _ _ H)).
Qed.

Lemma allocation_order_independent_witness :
  get_next_feature_number [s "002-b"; s "main"; s "001-a"]
  = get_next_feature_number [s "main"; s "001-a"; s "002-b"].
Proof.
  apply allocation_order_independent.
  exact (Permutation_middle [s "main"; s "001-a"] [] (s "002-b")).
Defined.

(** X5. Allocation and branch naming compose: once a branch named by the
    allocated number, a hyphen and a name without a slash is added to the
    list, the next allocation gives the following number, and fails when
    the allocated number was 999. *)
Theorem allocation_after_new_branch
    (branches : list str) (f : FeatureNumber) (name : str) :
  get_next_feature_number branches = Ok f ->
  ~ In "/"%char name ->
  get_next_feature_number ((formatted f ++ s "-" ++ name) :: branches)
  = if (number f + 1 >? 999)%Z
    then Raise (ValueError (s "Feature number " ++ of_Z (number f + 1)
                            ++ s " exceeds maximum of 999"))
    else Ok (mkFeatureNumber (number f + 1) (zero_pad3 (number f + 1))).
Proof.
  intros Hf Hname. rewrite get_next_feature_number_closed in Hf.
  pose proof (next_number_range _ (matched_numbers_range branches)) as Hr.
  destruct (_ >? 999)%Z eqn:Hn in Hf; [discriminate|].
  injection Hf as <-. cbn [number formatted].
  set (n := next_number (matched_numbers branches)) in *.
  assert (Hn' : (0 <= n <= 999)%Z) by lia.
  assert (Hm : matched_numbers ((zero_pad3 n ++ s "-" ++ name) :: branches)
               = n :: matched_numbers branches).
  { unfold matched_numbers at 1. cbn [flat_map].
    rewrite after_final_slash_none.
    - change (s "-" ++ name) with ("-"%char :: name).
      now rewrite three_digit_prefix_zero_pad3.
    - intros H. apply in_app_or in H as [H|H]; [now apply (zero_pad3_no_slash n Hn')|].
      destruct H as [H|H]; [discriminate | contradiction]. }
  rewrite get_next_feature_number_closed, Hm.
  assert (Hnext : next_number (n :: matched_numbers branches) = (n + 1)%Z).
  { rewrite next_number_greatest
      by (constructor; [exact Hn' | apply matched_numbers_range]).
    assert (Hg : n = (greatest (matched_numbers branches) + 1)%Z)
      by (unfold n; apply next_number_greatest, matched_numbers_range).
    unfold greatest in *. cbn [fold_right]. lia. }
  now rewrite Hnext.
Qed.

Lemma allocation_after_new_branch_witness :
  get_next_feature_number [s "007-add-login"; s "main"; s "006-old"]
  = Ok (mkFeatureNumber 8 (s "008")).
Proof.
  apply (allocation_after_new_branch [s "main"; s "006-old"]
           (mkFeatureNumber 7 (s "007")) (s "add-login")).
  - reflexivity.
  - intros H. repeat (destruct H as [H|H]; [discriminate|]). exact H.
Defined.

(** ** The data models *)

(** X6. A FeatureNumber is constructed exactly from a number in 1..999
    together with its own three-digit zero-padded form; any other pair of
    fields is a construction error. *)
Theorem FeatureNumber_new_iff (n : Z) (formatted : str) (f : FeatureNumber) :
  FeatureNumber_new n formatted = Ok f
  <-> ((1 <= n <= 999)%Z /\ formatted = zero_pad3 n /\ f = mkFeatureNumber n formatted).
Proof.
  split.
  - unfold FeatureNumber_new.
    destruct ((1 <=? n)%Z && (n <=? 999)%Z) eqn:Hr; [|discriminate]. cbn [negb].
    apply andb_true_iff in Hr as [H1 H2]. apply Z.leb_le in H1, H2.
    destruct (matches_three_digits formatted); [|discriminate]. cbn [negb].
    unfold Str.eqb. destruct (list_eq_dec ascii_dec formatted (format_03d n)) as [E|];
      [|discriminate].
    cbn [negb]. intros [= <-]. split; [lia|]. split; [|reflexivity].
    pose proof (FeatureNumber_new_in_range n (conj H1 H2)) as Hn.
    unfold FeatureNumber_new in Hn.
    replace ((1 <=? n)%Z && (n <=? 999)%Z) with true in Hn
      by (symmetry; apply andb_true_iff; split; apply Z.leb_le; lia).
    cbn [negb] in Hn.
    destruct (matches_three_digits (format_03d n)); [|discriminate]. cbn [negb] in Hn.
    destruct (Str.eqb (format_03d n) (format_03d n)); [|discriminate].
    cbn [negb] in Hn. injection Hn as Hn. congruence.
  - intros (Hn & -> & ->).
    pose proof (FeatureNumber_new_in_range n Hn) as H.
    assert (E : format_03d n = zero_pad3 n).
    { unfold FeatureNumber_new in H.
      destruct (negb ((1 <=? n)%Z && (n <=? 999)%Z)); [discriminate|].
      destruct (negb (matches_three_digits (format_03d n))); [discriminate|].
      destruct (negb (Str.eqb (format_03d n) (format_03d n))); [discriminate|].
      now injection H. }
    now rewrite <- E at 1.
Qed.

(** X7. With the name that the sanitizer makes of the text, a
    FeatureRequest is constructed exactly when the text has 1 to 500
    characters and the sanitized name is not empty: the other constraints
    of the model hold of every sanitized name. *)
Theorem FeatureRequest_of_sanitized (text : str) :
  is_ok (FeatureRequest_new text (sanitize_feature_name text default_max_length)) = true
  <-> ((1 <= len text <= 500)%Z
       /\ sanitize_feature_name text default_max_length <> []).
Proof.
  pose proof (sanitize_well_formed text default_max_length) as Hw.
  pose proof (sanitize_length text default_max_length) as Hl.
  set (x := sanitize_feature_name text default_max_length) in *.
  assert (Hal : forallb (fun c => isalnum c || Ascii.eqb c "-"%char) x = true).
  { destruct Hw as [Hc _ _ _]. unfold clean in Hc.
    rewrite forallb_forall in *. intros c Hin. specialize (Hc c Hin).
    revert Hc. clear.
    destruct c as [[|] [|] [|] [|] [|] [|] [|] [|]]; vm_compute; congruence. }
  unfold FeatureRequest_new. rewrite Hal. cbn [negb].
  assert (Hx : (len x <= 50)%Z) by (apply Hl; unfold default_max_length; lia).
  destruct ((1 <=? len text)%Z && (len text <=? 500)%Z) eqn:Ht; cbn [negb].
  - apply andb_true_iff in Ht as [H1 H2]. apply Z.leb_le in H1, H2.
    destruct ((1 <=? len x)%Z && (len x <=? 50)%Z) eqn:Hs; cbn [negb is_ok].
    + apply andb_true_iff in Hs as [H3 _]. apply Z.leb_le in H3.
      split; [intros _|reflexivity]. split; [lia|]. intros E. rewrite E in H3.
      unfold len in H3. simpl in H3. lia.
    + split; [discriminate|]. intros [_ Hne]. exfalso.
      apply andb_false_iff in Hs as [Hs|Hs]; [|apply Z.leb_gt in Hs; lia].
      apply Z.leb_gt in Hs. destruct x; [congruence|].
      unfold len in Hs. simpl length in Hs. lia.
  - cbn [is_ok]. split; [discriminate|]. intros [H _]. exfalso.
    apply andb_false_iff in Ht as [Ht|Ht]; apply Z.leb_gt in Ht; lia.
Qed.

(** ** What computations return and raise *)

Section Returns.

Context {A B : Type}.

Lemma returns_ret (Q : A -> Prop) a : Q a -> returns Q (ret a).
Proof. intros H st a' st' [= <- _]. exact H. Qed.

Lemma returns_raise (Q : A -> Prop) e : returns Q (raise e).
Proof. intros st a st'; discriminate. Qed.

Lemma returns_bind (Q : B -> Prop) (m : M A) (k : A -> M B) :
  (forall a, returns Q (k a)) -> returns Q (bind m k).
Proof.
  intros Hk st b st'. unfold bind. destruct (m st) as [[a|e] st1]; [apply Hk | discriminate].
Qed.

Lemma returns_bind_mid (P : A -> Prop) (Q : B -> Prop) (m : M A) (k : A -> M B) :
  returns P m -> (forall a, P a -> returns Q (k a)) -> returns Q (bind m k).
Proof.
  intros Hm Hk st b st'. unfold bind. destruct (m st) as [[a|e] st1] eqn:E; [|discriminate].
  apply Hk. exact (Hm _ _ _ E).
Qed.

Lemma returns_try_except (Q : A -> Prop) (m : M A) handles h :
  returns Q m -> (forall e, returns Q (h e)) -> returns Q (try_except m handles h).
Proof.
  intros Hm Hh st a st'. unfold try_except.
  destruct (m st) as [[a'|e] st1] eqn:E.
  - intros [= <- <-]. exact (Hm _ _ _ E).
  - destruct (handles e); [apply Hh | discriminate].
Qed.

Lemma raises_only_ret ok (a : A) : raises_only ok (ret a).
Proof. intros st e st'; discriminate. Qed.

Lemma raises_only_raise ok e : ok e = true -> raises_only ok (@raise A e).
Proof. intros H st e' st' [= <- _]. exact H. Qed.

Lemma raises_only_bind ok (m : M A) (k : A -> M B) :
  raises_only ok m -> (forall a, raises_only ok (k a)) -> raises_only ok (bind m k).
Proof.
  intros Hm Hk st e st'. unfold bind.
  destruct (m st) as [[a|e'] st1] eqn:E.
  - apply Hk.
  - intros [= <- <-]. exact (Hm _ _ _ E).
Qed.

Lemma raises_only_try_except ok (m : M A) handles h :
  raises_only (fun e => handles e || ok e) m ->
  (forall e, raises_only ok (h e)) ->
  raises_only ok (try_except m handles h).
Proof.
  intros Hm Hh st e st'. unfold try_except.
  destruct (m st) as [[a|e'] st1] eqn:E; [discriminate|].
  destruct (handles e') eqn:Eh; [apply Hh|].
  intros [= <- <-]. pose proof (Hm _ _ _ E) as H. simpl in H. now rewrite Eh in H.
Qed.

Lemma raises_only_weaken (ok ok' : Exn -> bool) (m : M A) :
  (forall e, ok e = true -> ok' e = true) -> raises_only ok m -> raises_only ok' m.
Proof. intros H Hm st e st' E. exact (H _ (Hm _ _ _ E)). Qed.

End Returns.

Lemma returns_new_result (Q : ValidationResult -> Prop) n p e sg :
  Q (mkValidationResult n p e sg) -> returns Q (lift (ValidationResult_new n p e sg)).
Proof.
  intros H st a st'. unfold lift, ValidationResult_new.
  destruct (negb p && negb (truthy e)); [discriminate|]. intros [= <- _]. exact H.
Qed.

Lemma raises_only_new_result ok n p e sg :
  negb p && negb (truthy e) = false ->
  raises_only ok (lift (ValidationResult_new n p e sg)).
Proof.
  intros H st a st'. unfold lift, ValidationResult_new. rewrite H. discriminate.
Qed.

(** [subprocess.run] raises [CalledProcessError] only with [check=True],
    and besides it only when the process cannot be started or times out. *)
Lemma raises_only_subprocess_run w argv cwd check :
  raises_only
    (fun e => match e with
              | CalledProcessError _ _ => check
              | FileNotFoundError _ | TimeoutExpired _ => true
              | _ => false
              end)
    (subprocess_run w argv cwd check).
Proof.
  intros st e st'. unfold subprocess_run, bind, get_fs, set_fs, emit.
  destruct (run_process w argv cwd (fs st)) as [[rc out err| |] root']; cbn.
  - destruct check; cbn; [destruct (rc =? 0)%Z; cbn|]; try discriminate.
    intros [= <- _]. reflexivity.
  - intros [= <- _]. reflexivity.
  - intros [= <- _]. reflexivity.
Qed.

Lemma returns_ok_diag (m : M ValidationResult) st v st' :
  returns diagnosed m -> m st = (Ok v, st') -> diagnosed v.
Proof. intros H E. exact (H _ _ _ E). Qed.

Ltac returns_step :=
  first
    [ apply returns_raise
    | apply returns_new_result
    | apply returns_try_except; [|intros ?]
    | apply returns_bind; intros ?
    | match goal with
      | |- returns _ (match ?x with _ => _ end) => destruct x
      end ].

Ltac raises_step :=
  first
    [ apply raises_only_ret
    | apply raises_only_raise; reflexivity
    | apply raises_only_new_result; reflexivity
    | match goal with
      | |- raises_only _ (subprocess_run _ _ _ _) =>
          eapply raises_only_weaken; [|apply raises_only_subprocess_run];
          intros [] ?; (reflexivity || discriminate)
      end
    | apply raises_only_try_except; [|intros ?]
    | apply raises_only_bind; [|intros ?]
    | match goal with
      | |- raises_only _ (match ?x with _ => _ end) => destruct x
      end ].

(** ** The validators *)

Ltac solve_diagnosed :=
  unfold diagnosed; cbn [passed error_message suggestion];
  first [ discriminate | intros _; split; reflexivity ].

Ltac diagnosed_step :=
  first
    [ apply returns_ret; first [ exact I | assumption ]
    | apply returns_raise
    | unfold validators.spec_kit; apply returns_new_result; solve_diagnosed
    | eapply (returns_bind_mid diagnosed);
      [ unfold validators.spec_kit; apply returns_new_result; solve_diagnosed
      | intros ? ? ]
    | apply returns_try_except; [|intros ?]
    | apply returns_bind; intros ?
    | match goal with
      | |- returns _ (match ?x with _ => _ end) => destruct x
      end ].

Lemma diagnosed_check_required_path w repo_path main_branch git_path :
  returns diagnosed_or_none
    (validators.check_required_path w repo_path main_branch git_path).
Proof. unfold validators.check_required_path. repeat diagnosed_step. Qed.

Lemma diagnosed_check_required_paths w repo_path main_branch paths :
  returns diagnosed_or_none
    (validators.check_required_paths w repo_path main_branch paths).
Proof.
  induction paths as [|git_path rest IH]; simpl; [now apply returns_ret|].
  eapply returns_bind_mid; [apply diagnosed_check_required_path|].
  intros [failure|] H; [now apply returns_ret | exact IH].
Qed.

Lemma diagnosed_is_spec_kit_initialized w repo_path main_branch :
  returns diagnosed (validators.is_spec_kit_initialized w repo_path main_branch).
Proof.
  unfold validators.is_spec_kit_initialized.
  apply returns_bind. intros ex. apply returns_bind. intros ignored.
  destruct ignored; [repeat diagnosed_step|].
  eapply (returns_bind_mid diagnosed_or_none); [repeat diagnosed_step|].
  intros [failure|] H; [now apply returns_ret|].
  cbv zeta. eapply returns_bind_mid; [apply diagnosed_check_required_paths|].
  intros [failure|] H'; [now apply returns_ret|]. repeat diagnosed_step.
Qed.

(** X8. Every failed result of a prerequisite check carries an error
    message and a suggestion that are not empty. *)
Theorem failed_checks_are_diagnosed
    (w : World) (repo_path : Path) (main_branch : str)
    (st st' : State) (v : ValidationResult) :
  validators.is_git_installed w st = (Ok v, st')
  \/ validators.is_spec_kit_initialized w repo_path main_branch st = (Ok v, st')
  \/ validators.is_claude_code_installed w st = (Ok v, st') ->
  passed v = false ->
  truthy (error_message v) = true /\ truthy (suggestion v) = true.
Proof.
  intros [H|[H|H]]; revert H.
  - apply (returns_ok_diag (validators.is_git_installed w)).
    unfold validators.is_git_installed. repeat diagnosed_step.
  - apply (returns_ok_diag (validators.is_spec_kit_initialized w repo_path main_branch)).
    apply diagnosed_is_spec_kit_initialized.
  - apply (returns_ok_diag (validators.is_claude_code_installed w)).
    unfold validators.is_claude_code_installed. repeat diagnosed_step.
Qed.

Lemma failed_checks_are_diagnosed_witness :
  truthy (Some (s "Spec Kit not found on main branch")) = true
  /\ truthy (Some (s "Ensure Spec Kit is initialized and committed to main branch "
                    ++ s "before creating feature worktrees")) = true.
Proof.
  eapply (failed_checks_are_diagnosed
            (world_with_failure (has_part (s "show")) (Completed 128 [] []))
            (Path_of_str (s "/repo")) (s "main") (mkState demo_fs []) _
            (mkValidationResult (s "spec_kit_on_main") false
               (Some (s "Spec Kit not found on main branch"))
               (Some (s "Ensure Spec Kit is initialized and committed to main branch "
                      ++ s "before creating feature worktrees")))).
  - right. left. vm_compute. reflexivity.
  - reflexivity.
Defined.

(** ** The git wrappers and the handoff *)

Lemma split_parts_no_sep sep x : forall p, In p (split sep x) -> ~ In sep p.
Proof.
  induction x as [|c x IH]; simpl.
  - intros p [<-|[]] [].
  - destruct (Ascii.eqb c sep) eqn:E.
    + intros p [<-|H]; [intros [] | now apply IH].
    + pose proof (split_nonempty sep x) as Hn.
      destruct (split sep x) as [|h r]; [congruence|].
      intros p [<-|H].
      * intros [->|Hin]; [now rewrite Ascii.eqb_refl in E|].
        apply (IH h); [now left | exact Hin].
      * apply IH. now right.
Qed.

(** X9. [get_main_branch] answers only ["main"] or ["master"], and it
    answers ["main"], after that one command, whenever
    [git rev-parse --verify main] ends with status 0. *)
Theorem get_main_branch_main_or_master (w : World) (st : State) :
  (forall b st', git_operations.get_main_branch w st = (Ok b, st') ->
                 b = s "main" \/ b = s "master")
  /\ (answer_failed
        (fst (run_process w [s "git"; s "rev-parse"; s "--verify"; s "main"] None (fs st)))
      = false ->
      git_operations.get_main_branch w st
      = (Ok (s "main"),
         mkState
           (snd (run_process w [s "git"; s "rev-parse"; s "--verify"; s "main"] None
                   (fs st)))
           (log st
            ++ [EvRun [s "git"; s "rev-parse"; s "--verify"; s "main"] None
                  (fst (run_process w [s "git"; s "rev-parse"; s "--verify"; s "main"]
                          None (fs st)))]))).
Proof.
  split.
  - intros b st'.
    apply (fun H => H st b st'). change (returns (fun b => b = s "main" \/ b = s "master")
                                           (git_operations.get_main_branch w)).
    unfold git_operations.get_main_branch.
    apply returns_bind. intros [|]; [apply returns_ret; now left|].
    apply returns_bind. intros [|]; [apply returns_ret; now right | apply returns_raise].
  - unfold git_operations.get_main_branch, bind, try_except, subprocess_run, bind,
      get_fs, set_fs, emit.
    destruct (run_process w _ None (fs st)) as [[rc out err| |] root']; cbn;
      try discriminate.
    destruct (rc =? 0)%Z; cbn; [reflexivity | discriminate].
Qed.

Lemma get_main_branch_main_or_master_witness :
  fst (git_operations.get_main_branch demo_world (mkState demo_fs [])) = Ok (s "main").
Proof.
  destruct (get_main_branch_main_or_master demo_world (mkState demo_fs [])) as [_ H].
  rewrite (H eq_refl). reflexivity.
Defined.

(** X10. No name in a list that [list_all_branches] returns is empty or
    holds a line feed. *)
Theorem list_all_branches_names
    (w : World) (st st' : State) (branches : list str) :
  git_operations.list_all_branches w st = (Ok branches, st') ->
  Forall (fun b => b <> [] /\ ~ In "010"%char b) branches.
Proof.
  unfold git_operations.list_all_branches, try_except, subprocess_run, bind,
    get_fs, set_fs, emit.
  destruct (run_process w _ None (fs st)) as [[rc out err| |] root']; cbn;
    [destruct (rc =? 0)%Z; cbn|..]; intros H;
    assert (Hb := f_equal (fun r => match fst r with Ok b => b | Raise _ => [] end) H);
    cbv beta iota in Hb; cbn [fst] in Hb; subst branches; try constructor.
  apply Forall_forall. intros b Hb. apply filter_In in Hb as [Hin Hne].
  split.
  - intros ->. discriminate.
  - now apply (split_parts_no_sep "010"%char (strip out)).
Qed.

Lemma list_all_branches_names_witness :
  Forall (fun b => b <> [] /\ ~ In "010"%char b)
    [s "main"; s "001-x"; s "origin/002-y"].
Proof.
  eapply (list_all_branches_names demo_world (mkState demo_fs [])).
  vm_compute. reflexivity.
Defined.

(** X11. The wrappers turn the failures of [git] that they catch, a
    status other than 0, a [git] that is not found and a timeout, into
    their documented answers: [False] for [is_git_installed],
    [is_git_repository] and [git_fetch], the empty list for
    [list_all_branches], and a [RuntimeError] for [get_repo_root] and
    [create_worktree]. *)
Theorem git_wrappers_failures
    (w : World) (path : Path) (branch base : str) (st : State) :
  (answer_failed (fst (run_process w [s "git"; s "--version"] None (fs st))) = true ->
   fst (git_operations.is_git_installed w st) = Ok false)
  /\ (answer_failed
        (fst (run_process w
                [s "git"; s "-C"; str_of_path path; s "rev-parse";
                 s "--is-inside-work-tree"] None (fs st))) = true ->
      fst (git_operations.is_git_repository w path st) = Ok false)
  /\ (answer_failed (fst (run_process w [s "git"; s "fetch"] None (fs st))) = true ->
      fst (git_operations.git_fetch w st) = Ok false)
  /\ (answer_failed
        (fst (run_process w
                [s "git"; s "branch"; s "-a"; s "--format=%(refname:short)"] None
                (fs st))) = true ->
      fst (git_operations.list_all_branches w st) = Ok [])
  /\ (answer_failed
        (fst (run_process w [s "git"; s "rev-parse"; s "--show-toplevel"] None (fs st)))
      = true ->
      exists msg, fst (git_operations.get_repo_root w st) = Raise (RuntimeError msg))
  /\ (answer_failed
        (fst (run_process w
                [s "git"; s "worktree"; s "add"; str_of_path path; s "-b"; branch; base]
                None (fs st))) = true ->
      exists msg,
        fst (git_operations.create_worktree w path branch base st)
        = Raise (RuntimeError msg)).
Proof.
  repeat split.
  - unfold git_operations.is_git_installed, try_except, subprocess_run, bind,
      get_fs, set_fs, emit.
    destruct (run_process w _ None (fs st)) as [[rc out err| |] root']; cbn;
      [destruct (rc =? 0)%Z; cbn|..]; (discriminate || reflexivity).
  - unfold git_operations.is_git_repository, try_except, subprocess_run, bind,
      get_fs, set_fs, emit.
    destruct (run_process w _ None (fs st)) as [[rc out err| |] root']; cbn;
      [destruct (rc =? 0)%Z; cbn|..]; (discriminate || reflexivity).
  - unfold git_operations.git_fetch, try_except, subprocess_run, bind,
      get_fs, set_fs, emit.
    destruct (run_process w _ None (fs st)) as [[rc out err| |] root']; cbn;
      [destruct (rc =? 0)%Z; cbn|..]; (discriminate || reflexivity).
  - unfold git_operations.list_all_branches, try_except, subprocess_run, bind,
      get_fs, set_fs, emit.
    destruct (run_process w _ None (fs st)) as [[rc out err| |] root']; cbn;
      [destruct (rc =? 0)%Z; cbn|..]; (discriminate || reflexivity).
  - unfold git_operations.get_repo_root, try_except, subprocess_run, bind,
      get_fs, set_fs, emit.
    destruct (run_process w _ None (fs st)) as [[rc out err| |] root']; cbn;
      [destruct (rc =? 0)%Z; cbn; [discriminate|];
       destruct (contains _ _); intros _; eexists; reflexivity
      | intros _; eexists; reflexivity ..].
  - destruct (create_worktree_run w path branch base st) as (r & E & [[Hok _] | [_ [msg ->]]]).
    + cbv zeta in Hok. intros Hf. rewrite Hok in Hf. discriminate Hf.
    + intros _. exists msg. now rewrite E.
Qed.

Lemma git_wrappers_failures_witness :
  fst (git_operations.is_git_installed world_without_git (mkState demo_fs [])) = Ok false
  /\ fst (git_operations.list_all_branches world_without_git (mkState demo_fs [])) = Ok []
  /\ exists msg,
       fst (git_operations.get_repo_root world_without_git (mkState demo_fs []))
       = Raise (RuntimeError msg).
Proof.
  destruct (git_wrappers_failures world_without_git (Path_of_str (s "/repo"))
              (s "001-a") (s "main") (mkState demo_fs []))
    as (H1 & _ & _ & H4 & H5 & _).
  split; [apply H1; reflexivity|]. split; [apply H4; reflexivity|].
  apply H5. reflexivity.
Defined.

(** X12. [get_main_branch] catches only the status other than 0 of
    [git rev-parse]: when the command cannot be started or times out, the
    [FileNotFoundError] or [TimeoutExpired] leaves the function as it is;
    and when both verifications end with a status other than 0 it raises
    the [RuntimeError] that names both branches. *)
Theorem get_main_branch_exceptions (w : World) (st : State) :
  match fst (run_process w [s "git"; s "rev-parse"; s "--verify"; s "main"] None (fs st))
  with
  | NotFound =>
      exists msg, fst (git_operations.get_main_branch w st) = Raise (FileNotFoundError msg)
  | TimedOut =>
      exists msg, fst (git_operations.get_main_branch w st) = Raise (TimeoutExpired msg)
  | Completed rc _ _ =>
      rc <> 0%Z ->
      forall rc' out' err',
        fst (run_process w [s "git"; s "rev-parse"; s "--verify"; s "master"] None
               (snd (run_process w [s "git"; s "rev-parse"; s "--verify"; s "main"] None
                       (fs st))))
        = Completed rc' out' err' ->
        rc' <> 0%Z ->
        fst (git_operations.get_main_branch w st)
        = Raise (RuntimeError (s "neither 'main' nor 'master' branch found"))
  end.
Proof.
  unfold git_operations.get_main_branch, bind, try_except, subprocess_run, bind,
    get_fs, set_fs, emit.
  destruct (run_process w _ None (fs st)) as [[rc out err| |] root']; cbn [fst snd fs];
    [| eexists; reflexivity | eexists; reflexivity].
  intros Hrc rc' out' err' E Hrc'.
  apply Z.eqb_neq in Hrc, Hrc'. rewrite Hrc. cbn.
  destruct (run_process w _ None root') as [r2 root2]. cbn [fst] in E. subst r2.
  cbn. rewrite Hrc'. reflexivity.
Qed.

Lemma get_main_branch_exceptions_witness :
  fst (git_operations.get_main_branch
         (world_with_failure (has_part (s "--verify")) (Completed 1 [] []))
         (mkState demo_fs []))
  = Raise (RuntimeError (s "neither 'main' nor 'master' branch found")).
Proof.
  apply (get_main_branch_exceptions
           (world_with_failure (has_part (s "--verify")) (Completed 1 [] []))
           (mkState demo_fs []) ltac:(discriminate) 1%Z [] [] eq_refl).
  discriminate.
Defined.

(** X13. [launch_claude_code] runs one command, [claude] with the
    message ["/specify "] followed by the raw text, in the worktree
    directory, and returns the status of that process, or 4 when the
    process cannot be started or does not end. *)
Theorem launch_claude_code_result (w : World) (path : Path) (text : str) (st : State) :
  launch_claude_code w path text st
  = (Ok (match fst (run_process w [s "claude"; s "/specify " ++ text]
                      (Some (str_of_path path)) (fs st)) with
         | Completed rc _ _ => rc
         | _ => 4%Z
         end),
     mkState
       (snd (run_process w [s "claude"; s "/specify " ++ text]
               (Some (str_of_path path)) (fs st)))
       (log st
        ++ [EvRun [s "claude"; s "/specify " ++ text] (Some (str_of_path path))
              (fst (run_process w [s "claude"; s "/specify " ++ text]
                      (Some (str_of_path path)) (fs st)))])).
Proof.
  unfold launch_claude_code, try_except, subprocess_run, bind, get_fs, set_fs, emit.
  destruct (run_process w _ _ (fs st)) as [[rc out err| |] root']; reflexivity.
Qed.

(** ** Whole runs *)

Lemma launch_claude_code_eq (w : World) (path : Path) (text : str) (st : State) :
  launch_claude_code w path text st
  = (Ok (status_of (fst (run_process w [s "claude"; s "/specify " ++ text]
                           (Some (str_of_path path)) (fs st)))),
     mkState
       (snd (run_process w [s "claude"; s "/specify " ++ text]
               (Some (str_of_path path)) (fs st)))
       (log st
        ++ [EvRun [s "claude"; s "/specify " ++ text] (Some (str_of_path path))
              (fst (run_process w [s "claude"; s "/specify " ++ text]
                      (Some (str_of_path path)) (fs st)))])).
Proof.
  unfold launch_claude_code, try_except, subprocess_run, bind, get_fs, set_fs, emit.
  destruct (run_process w _ _ (fs st)) as [[rc out err| |] root']; reflexivity.
Qed.

Lemma wp_bind_full {A B} (P : Event -> bool) (ok : Exn -> bool)
    (m : M A) (k : A -> M B) (post : Res B -> State -> Prop) (st : State) :
  only_emits P m ->
  raises_only ok m ->
  forallb P (log st) = true ->
  (forall e st', forallb P (log st') = true -> ok e = true -> post (Raise e) st') ->
  (forall a st', m st = (Ok a, st') -> forallb P (log st') = true -> wp (k a) post st') ->
  wp (bind m k) post st.
Proof.
  intros Hm Hr Hst Hraise Hk. unfold wp, bind.
  destruct (Hm st) as (evs & E & F).
  assert (Hinv : forallb P (log (snd (m st))) = true)
    by (rewrite E, forallb_app, Hst, F; reflexivity).
  destruct (m st) as [[a|e] st1] eqn:Em; simpl in Hinv.
  - now apply Hk.
  - simpl. apply Hraise; [exact Hinv | exact (Hr _ _ _ Em)].
Qed.

Lemma raises_only_any {A} (m : M A) : raises_only any_exn m.
Proof. intros st e st' _. reflexivity. Qed.

Lemma raises_only_lift {A} ok (r : Res A) :
  (forall e, r = Raise e -> ok e = true) -> raises_only ok (lift r).
Proof. intros H st e st' [= -> _]. now apply H. Qed.

Lemma returns_lift {A} (r : Res A) : returns (fun a => r = Ok a) (lift r).
Proof. intros st a st' [= -> _]. reflexivity. Qed.

Lemma raises_only_when ok c m : raises_only ok m -> raises_only ok (when c m).
Proof. destruct c; [trivial | intros _; apply raises_only_ret]. Qed.

Lemma raises_only_emit ok ev : raises_only ok (emit ev).
Proof. intros st e st'; discriminate. Qed.

Lemma get_next_feature_number_raises branches e :
  get_next_feature_number branches = Raise e -> is_ValueError e = true.
Proof.
  rewrite get_next_feature_number_closed. destruct (_ >? 999)%Z; [|discriminate].
  now intros [= <-].
Qed.

Lemma FeatureRequest_new_raises text name e :
  FeatureRequest_new text name = Raise e -> is_Exception e = true.
Proof.
  unfold FeatureRequest_new.
  repeat match goal with |- context [if ?c then _ else _] => destruct c end;
    try discriminate; now intros [= <-].
Qed.

(** The prerequisite checks and the git wrappers do not exit. *)
Lemma never_exits_subprocess_run w argv cwd check :
  never_exits (subprocess_run w argv cwd check).
Proof.
  eapply raises_only_weaken; [|apply raises_only_subprocess_run].
  intros [] ?; (reflexivity || discriminate).
Qed.

Ltac never_exits_step :=
  first
    [ apply never_exits_subprocess_run
    | apply never_exits_path_exists
    | apply never_exits_read_text
    | apply raises_only_ret
    | apply raises_only_raise; reflexivity
    | apply raises_only_new_result; reflexivity
    | apply raises_only_try_except;
      [ apply (raises_only_weaken is_Exception);
        [intros ? H; cbv beta; rewrite H; apply orb_true_r|]
      | intros ? ]
    | apply raises_only_bind; [|intros ?]
    | match goal with
      | |- raises_only _ (match ?x with _ => _ end) => destruct x
      | |- never_exits (match ?x with _ => _ end) => destruct x
      end ].

Lemma never_exits_check_required_paths w repo_path main_branch paths :
  never_exits (validators.check_required_paths w repo_path main_branch paths).
Proof.
  induction paths as [|git_path rest IH]; simpl; [apply raises_only_ret|].
  apply raises_only_bind.
  - unfold validators.check_required_path, validators.spec_kit. cbv zeta.
    repeat never_exits_step.
  - intros [failure|]; [apply raises_only_ret | exact IH].
Qed.

Lemma never_exits_validate_git w : never_exits (validators.is_git_installed w).
Proof. unfold validators.is_git_installed. repeat never_exits_step. Qed.

Lemma never_exits_is_git_repository w path :
  never_exits (git_operations.is_git_repository w path).
Proof. unfold git_operations.is_git_repository. repeat never_exits_step. Qed.

Lemma never_exits_get_repo_root w : never_exits (git_operations.get_repo_root w).
Proof. unfold git_operations.get_repo_root. repeat never_exits_step. Qed.

Lemma never_exits_get_main_branch w : never_exits (git_operations.get_main_branch w).
Proof. unfold git_operations.get_main_branch. repeat never_exits_step. Qed.

Lemma never_exits_is_spec_kit_initialized w repo_path main_branch :
  never_exits (validators.is_spec_kit_initialized w repo_path main_branch).
Proof.
  unfold validators.is_spec_kit_initialized, validators.spec_kit. cbv zeta.
  repeat first [ apply never_exits_check_required_paths | never_exits_step ].
Qed.

Lemma never_exits_is_claude_code_installed w :
  never_exits (validators.is_claude_code_installed w).
Proof. unfold validators.is_claude_code_installed. repeat never_exits_step. Qed.

Lemma never_exits_git_fetch w : never_exits (git_operations.git_fetch w).
Proof. unfold git_operations.git_fetch. repeat never_exits_step. Qed.

Lemma never_exits_list_all_branches w : never_exits (git_operations.list_all_branches w).
Proof. unfold git_operations.list_all_branches. cbv zeta. repeat never_exits_step. Qed.

Ltac exits_of_function :=
  apply (raises_only_weaken is_Exception);
  [ intros [] ?; (reflexivity || discriminate)
  | first [ apply never_exits_validate_git
          | apply never_exits_is_git_repository
          | apply never_exits_get_repo_root
          | apply never_exits_get_main_branch
          | apply never_exits_is_spec_kit_initialized
          | apply never_exits_is_claude_code_installed
          | apply never_exits_git_fetch
          | apply never_exits_list_all_branches ] ].

(** What a stage of the run can raise, by its structure. *)
Ltac exits_of_stage :=
  solve
    [ unfold echo, echo_err, sys_exit, report_failed_check, WorktreeConfig_new;
      repeat first
        [ exits_of_function
        | apply raises_only_emit
        | apply raises_only_when
        | apply raises_only_lift; intros ? ?;
          first [ discriminate
                | erewrite get_next_feature_number_raises by eassumption; reflexivity
                | erewrite FeatureRequest_new_raises by eassumption; reflexivity ]
        | apply raises_only_ret
        | apply raises_only_raise; reflexivity
        | apply raises_only_try_except; [|intros ?]
        | apply raises_only_bind; [|intros ?]
        | match goal with
          | |- raises_only _ (match ?x with _ => _ end) => destruct x
          end ] ].

Ltac stage_full P ok raises close vacuous :=
  cbv beta zeta;
  apply (wp_bind_full P ok);
  [ footprint_of_stage close
  | raises
  | assumption
  | intros ? ? ? ?; vacuous
  | intros ? ? ? ? ].

Lemma preparation_In_not_launch l e :
  forallb is_preparation l = true -> In e l -> is_launch e = false.
Proof.
  intros H Hin. rewrite forallb_forall in H. specialize (H e Hin).
  unfold is_preparation in H. apply andb_true_iff in H as [H _].
  apply andb_true_iff in H as [_ H]. now apply negb_true_iff in H.
Qed.

Lemma preparation_In_not_worktree_add l e :
  forallb is_preparation l = true -> In e l -> is_worktree_add e = false.
Proof.
  intros H Hin. rewrite forallb_forall in H. specialize (H e Hin).
  unfold is_preparation in H. apply andb_true_iff in H as [H _].
  apply andb_true_iff in H as [H _]. now apply negb_true_iff in H.
Qed.

(** X14. The run passes the assistant's status on: when the handoff took
    place, the exit code is the status with which the [claude] process
    ended, and 4 when that process could not be started or did not end. *)
Theorem cli_passes_status_on
    (w : World) (text : str) (root : Node)
    (argv : list str) (cwd : option str) (answer : ProcResult) :
  In (EvRun argv cwd answer) (log (snd (cli w text (mkState root [])))) ->
  is_launch (EvRun argv cwd answer) = true ->
  fst (cli w text (mkState root [])) = Raise (SystemExit (status_of answer)).
Proof.
  revert argv cwd answer.
  change (wp (cli w text)
            (fun r st' =>
               forall argv cwd answer,
                 In (EvRun argv cwd answer) (log st') ->
                 is_launch (EvRun argv cwd answer) = true ->
                 r = Raise (SystemExit (status_of answer)))
            (mkState root [])).
  assert (Hinit : forallb is_preparation (log (mkState root [])) = true) by reflexivity.
  revert Hinit. generalize (mkState root []) as st. intros st Hinit.
  unfold cli.
  repeat stage_full is_preparation any_exn
    ltac:(apply raises_only_any)
    ltac:(intros; apply early_is_preparation; assumption)
    ltac:(idtac;
          intros argv cwd answer Hin Hl;
          match goal with
          | H : forallb is_preparation _ = true |- _ =>
              rewrite (preparation_In_not_launch _ _ H Hin) in Hl; discriminate
          end).
  cbv beta zeta. unfold wp, bind, try_except.
  match goal with
  | H : forallb is_preparation (log ?st) = true
    |- context [git_operations.create_worktree ?w ?p ?b ?base ?st] =>
      destruct (create_worktree_run w p b base st) as (r & E & [[Hok ->] | [Hfail [msg ->]]]);
      rewrite E; clear E; rename H into Hprep
  end.
  - unfold echo, emit. cbn [fst snd fs log].
    rewrite launch_claude_code_eq. cbn [fst snd fs log sys_exit raise].
    intros argv cwd answer Hin Hl.
    apply in_app_or in Hin as [Hin|[Hin|[]]].
    + apply in_app_or in Hin as [Hin|[Hin|[]]]; [|subst; discriminate].
      apply in_app_or in Hin as [Hin|[Hin|[]]].
      * rewrite (preparation_In_not_launch _ _ Hprep Hin) in Hl. discriminate.
      * rewrite <- Hin in Hl. discriminate.
    + injection Hin as _ _ <-. reflexivity.
  - cbn [is_RuntimeError]. unfold echo_err, emit, sys_exit, raise.
    cbn [fst snd fs log]. intros argv cwd answer Hin Hl. exfalso.
    apply in_app_or in Hin as [Hin|[Hin|[]]]; [|subst; discriminate].
    apply in_app_or in Hin as [Hin|[Hin|[]]].
    + rewrite (preparation_In_not_launch _ _ Hprep Hin) in Hl. discriminate.
    + rewrite <- Hin in Hl. discriminate.
Qed.

Lemma cli_passes_status_on_witness :
  fst (cli demo_world (s "add login") (mkState demo_fs [])) = Raise (SystemExit 7).
Proof.
  apply (cli_passes_status_on demo_world (s "add login") demo_fs
           [s "claude"; s "/specify add login"] (Some (s "/repo/.worktrees/003-add-login"))
           (Completed 7 [] [])).
  - vm_compute. repeat (first [left; reflexivity | right]).
  - reflexivity.
Defined.

(** X15. No run returns normally, and a run that ends before the handoff
    with an exit code ends with 1, 2 or 3: every other status, 0 among
    them, comes from the assistant. *)
Theorem cli_exit_codes (w : World) (text : str) (root : Node) :
  is_ok (fst (cli w text (mkState root []))) = false
  /\ (forall c,
        fst (cli w text (mkState root [])) = Raise (SystemExit c) ->
        existsb is_launch (log (snd (cli w text (mkState root [])))) = false ->
        c = 1%Z \/ c = 2%Z \/ c = 3%Z).
Proof.
  change (wp (cli w text)
            (fun r st' =>
               is_ok r = false
               /\ (forall c, r = Raise (SystemExit c) ->
                             existsb is_launch (log st') = false ->
                             c = 1%Z \/ c = 2%Z \/ c = 3%Z))
            (mkState root [])).
  assert (Hcodes : forall c, exits_1_2_3 (SystemExit c) = true ->
                             c = 1%Z \/ c = 2%Z \/ c = 3%Z).
  { intros c H. cbn in H. apply orb_true_iff in H as [H|H];
      [apply orb_true_iff in H as [H|H]|]; apply Z.eqb_eq in H; auto. }
  assert (Hinit : forallb is_preparation (log (mkState root [])) = true) by reflexivity.
  revert Hinit. generalize (mkState root []) as st. intros st Hinit.
  unfold cli.
  repeat stage_full is_preparation exits_1_2_3
    exits_of_stage
    ltac:(intros; apply early_is_preparation; assumption)
    ltac:(idtac;
          split; [reflexivity|];
          intros c Hc _; injection Hc as ->; apply Hcodes; assumption).
  cbv beta zeta. unfold wp, bind, try_except.
  match goal with
  | H : forallb is_preparation (log ?st) = true
    |- context [git_operations.create_worktree ?w ?p ?b ?base ?st] =>
      destruct (create_worktree_run w p b base st) as (r & E & [[Hok ->] | [Hfail [msg ->]]]);
      rewrite E; clear E; rename H into Hprep
  end.
  - unfold echo, emit. cbn [fst snd fs log].
    rewrite launch_claude_code_eq. cbn [fst snd fs log sys_exit raise is_ok].
    split; [reflexivity|]. intros c _ Hl. exfalso. revert Hl.
    rewrite !existsb_app. cbn [existsb is_launch].
    rewrite !orb_false_r. intros Hl. apply orb_false_iff in Hl as [_ Hl].
    revert Hl. vm_compute. discriminate.
  - cbn [is_RuntimeError]. unfold echo_err, emit, sys_exit, raise.
    cbn [fst snd fs log is_ok]. split; [reflexivity|].
    intros c [= <-] _. auto.
Qed.

Lemma cli_exit_codes_witness : (1 = 1 \/ 1 = 2 \/ 1 = 3)%Z.
Proof.
  destruct (cli_exit_codes world_without_git (s "add login") demo_fs) as [_ H].
  apply H; vm_compute; reflexivity.
Defined.


(** What the stages of a run return. *)

Lemma extends_In st st' e : extends st st' -> In e (log st) -> In e (log st').
Proof. intros [evs ->] H. apply in_or_app. now left. Qed.

Lemma wp_bind_trace {A B} (P : Event -> bool) (ok : Exn -> bool)
    (m : M A) (k : A -> M B) (post : Res B -> State -> Prop) (st : State) :
  only_emits P m ->
  raises_only ok m ->
  forallb P (log st) = true ->
  (forall e st', forallb P (log st') = true -> ok e = true -> post (Raise e) st') ->
  (forall a st', m st = (Ok a, st') -> extends st st' -> forallb P (log st') = true ->
                 wp (k a) post st') ->
  wp (bind m k) post st.
Proof.
  intros Hm Hr Hst Hraise Hk. unfold wp, bind.
  destruct (Hm st) as (evs & E & F).
  assert (Hinv : forallb P (log (snd (m st))) = true)
    by (rewrite E, forallb_app, Hst, F; reflexivity).
  destruct (m st) as [[a|e] st1] eqn:Em; cbn [snd] in Hinv, E.
  - apply Hk; [reflexivity | now exists evs | exact Hinv].
  - cbn [fst snd]. apply Hraise; [exact Hinv | exact (Hr _ _ _ Em)].
Qed.

Ltac stage_trace P ok raises close vacuous :=
  cbv beta zeta;
  apply (wp_bind_trace P ok);
  [ footprint_of_stage close
  | raises
  | assumption
  | intros ? ? ? ?; vacuous
  | intros ? ? ? ? ? ].

Lemma returns_exit_handler {A} (Q : A -> Prop) (msg : str) (c : Z) :
  returns Q (echo_err msg ;; sys_exit c).
Proof. apply returns_bind. intros _. apply returns_raise. Qed.

Lemma number_stage branches st f st' :
  try_except
    (feature_number <- lift (get_next_feature_number branches) ;;
     echo (check_mark ++ s " Next feature number: " ++ formatted feature_number) ;;
     ret feature_number)
    is_ValueError
    (fun e => echo_err (s "Error: " ++ str_of_exn e) ;; sys_exit 2) st
  = (Ok f, st') ->
  get_next_feature_number branches = Ok f.
Proof.
  unfold try_except, bind, lift, echo, emit, ret.
  destruct (get_next_feature_number branches) as [f'|e].
  - now intros [= <- _].
  - destruct (is_ValueError e); intros E; discriminate E.
Qed.

Lemma request_stage raw name st fr st' :
  try_except (lift (FeatureRequest_new raw name)) is_Exception
    (fun e => echo_err (s "Error: Invalid feature request: " ++ str_of_exn e) ;;
              sys_exit 3) st
  = (Ok fr, st') ->
  sanitized_name fr = name /\ text fr = raw /\ name <> [].
Proof.
  unfold try_except, lift.
  destruct (FeatureRequest_new raw name) as [fr'|e] eqn:E.
  - intros [= Hfr _]. subst fr'. revert E. unfold FeatureRequest_new.
    destruct (negb ((1 <=? len raw)%Z && (len raw <=? 500)%Z)); [discriminate|].
    destruct (negb ((1 <=? len name)%Z && (len name <=? 50)%Z)) eqn:El; [discriminate|].
    destruct (negb (forallb _ name)); [discriminate|].
    intros H. injection H as H. subst fr.
    split; [reflexivity|]. split; [reflexivity|].
    intros E0. rewrite E0 in El. discriminate.
  - destruct (is_Exception e); intros E'; discriminate E'.
Qed.

Lemma config_stage bn p b f fr st cfg st' :
  try_except (lift (WorktreeConfig_new bn p b f fr)) is_Exception
    (fun e => echo_err (s "Error: Failed to create worktree configuration: "
                        ++ str_of_exn e) ;; sys_exit 4) st
  = (Ok cfg, st') ->
  cfg = mkWorktreeConfig bn p b f fr.
Proof. unfold try_except, lift, WorktreeConfig_new. now intros [= <- _]. Qed.

Lemma allocated_number_shape branches f :
  get_next_feature_number branches = Ok f ->
  (1 <= number f <= 999)%Z /\ formatted f = zero_pad3 (number f).
Proof.
  rewrite get_next_feature_number_closed.
  pose proof (next_number_range _ (matched_numbers_range branches)).
  destruct (_ >? 999)%Z eqn:E; [discriminate|]. intros [= <-]. cbn. split; [lia | reflexivity].
Qed.

Lemma branch_read_back text n :
  (1 <= n <= 999)%Z ->
  three_digit_prefix
    (after_final_slash
       (zero_pad3 n ++ s "-" ++ sanitize_feature_name text default_max_length))
  = Some n.
Proof.
  intros Hn. rewrite after_final_slash_none.
  - change (s "-" ++ sanitize_feature_name text default_max_length)
      with ("-"%char :: sanitize_feature_name text default_max_length).
    apply three_digit_prefix_zero_pad3. lia.
  - intros H. apply in_app_or in H as [H|H];
      [apply (zero_pad3_no_slash n ltac:(lia) H)|].
    destruct H as [H|H]; [discriminate|].
    destruct (sanitize_well_formed text default_max_length) as [Hc _ _ _].
    unfold clean in Hc. rewrite forallb_forall in Hc.
    specialize (Hc _ H). discriminate.
Qed.

(** The root of the run is the one that [git] reported. *)
Lemma get_repo_root_ok w st rr st' :
  git_operations.get_repo_root w st = (Ok rr, st') ->
  exists out err,
    rr = Path_of_str (strip out)
    /\ log st' = log st ++ [EvRun [s "git"; s "rev-parse"; s "--show-toplevel"] None
                             (Completed 0 out err)].
Proof.
  unfold git_operations.get_repo_root, try_except, subprocess_run, bind, get_fs, set_fs,
    emit, ret, raise.
  destruct (run_process w _ None (fs st)) as [[rc out err| |] root']; cbn [fst snd fs log];
    try discriminate.
  - destruct (rc =? 0)%Z eqn:Erc; cbn [andb negb is_process_error is_CalledProcessError].
    + apply Z.eqb_eq in Erc. subst rc. cbn [stdout]. intros H.
      assert (H1 := f_equal (fun r => match fst r with Ok a => a | Raise _ => rr end) H).
      assert (H2 := f_equal (fun r => log (snd r)) H).
      cbv beta iota in H1, H2. cbn [fst snd log] in H1, H2.
      exists out, err. split; [now symmetry | now symmetry].
    + destruct (contains _ _); discriminate.
Qed.

Lemma repo_root_stage w st rr st' :
  try_except
    (repo_root <- git_operations.get_repo_root w ;;
     echo (check_mark ++ s " In git repository: " ++ str_of_path repo_root) ;;
     ret repo_root)
    is_RuntimeError
    (fun e => echo_err (s "Error: " ++ str_of_exn e) ;; sys_exit 1) st
  = (Ok rr, st') ->
  exists out err,
    rr = Path_of_str (strip out)
    /\ In (EvRun [s "git"; s "rev-parse"; s "--show-toplevel"] None (Completed 0 out err))
         (log st').
Proof.
  unfold try_except, bind.
  destruct (git_operations.get_repo_root w st) as [[a|e] st1] eqn:E.
  - unfold echo, emit, ret. intros H.
    assert (H1 := f_equal (fun r => match fst r with Ok a => a | Raise _ => rr end) H).
    assert (H2 := f_equal (fun r => log (snd r)) H).
    cbv beta iota in H1, H2. cbn [fst snd log] in H1, H2. subst a.
    destruct (get_repo_root_ok _ _ _ _ E) as (out & err & Hr & Hl).
    exists out, err. split; [exact Hr|].
    rewrite <- H2, Hl. apply in_or_app. left. apply in_or_app. right. now left.
  - unfold echo_err, emit, sys_exit, raise.
    destruct (is_RuntimeError e); intros H; discriminate H.
Qed.

(** The base branch is one that [git rev-parse --verify] accepted. *)
Lemma get_main_branch_ok w st b st' :
  git_operations.get_main_branch w st = (Ok b, st') ->
  (b = s "main" \/ b = s "master")
  /\ exists out err,
       In (EvRun [s "git"; s "rev-parse"; s "--verify"; b] None (Completed 0 out err))
         (log st').
Proof.
  unfold git_operations.get_main_branch, try_except, subprocess_run, bind, get_fs, set_fs,
    emit, ret, raise.
  destruct (run_process w _ None (fs st)) as [[rc out err| |] root']; cbn [fst snd fs log];
    try discriminate.
  destruct (rc =? 0)%Z eqn:Erc; cbn [andb negb is_CalledProcessError fst snd fs log].
  - apply Z.eqb_eq in Erc. subst rc. intros H.
    assert (H1 := f_equal (fun r => match fst r with Ok a => a | Raise _ => b end) H).
    assert (H2 := f_equal (fun r => log (snd r)) H).
    cbv beta iota in H1, H2. cbn [fst snd log] in H1, H2. subst b.
    split; [now left|]. exists out, err. rewrite <- H2. apply in_or_app. right. now left.
  - destruct (run_process w _ None root') as [[rc2 out2 err2| |] root2];
      cbn [fst snd fs log]; try discriminate.
    destruct (rc2 =? 0)%Z eqn:Erc2; cbn [andb negb is_CalledProcessError fst snd fs log];
      [|discriminate].
    apply Z.eqb_eq in Erc2. subst rc2. intros H.
    assert (H1 := f_equal (fun r => match fst r with Ok a => a | Raise _ => b end) H).
    assert (H2 := f_equal (fun r => log (snd r)) H).
    cbv beta iota in H1, H2. cbn [fst snd log] in H1, H2. subst b.
    split; [now right|]. exists out2, err2. rewrite <- H2. apply in_or_app. right. now left.
Qed.

Lemma main_branch_stage w st b st' :
  try_except (git_operations.get_main_branch w) is_RuntimeError
    (fun e => echo_err (s "Error: " ++ str_of_exn e) ;; sys_exit 2) st
  = (Ok b, st') ->
  (b = s "main" \/ b = s "master")
  /\ exists out err,
       In (EvRun [s "git"; s "rev-parse"; s "--verify"; b] None (Completed 0 out err))
         (log st').
Proof.
  unfold try_except.
  destruct (git_operations.get_main_branch w st) as [[a|e] st1] eqn:E.
  - intros H.
    assert (H1 := f_equal (fun r => match fst r with Ok a => a | Raise _ => b end) H).
    assert (H2 := f_equal snd H).
    cbv beta iota in H1, H2. cbn [fst snd] in H1, H2. subst a st1.
    exact (get_main_branch_ok _ _ _ _ E).
  - unfold echo_err, emit, sys_exit, raise, bind.
    destruct (is_RuntimeError e); intros H; discriminate H.
Qed.

(** The branches of the run are those that [git branch -a] listed. *)
Lemma branches_stage w st branches st' :
  git_operations.list_all_branches w st = (Ok branches, st') ->
  exists listed,
    branches = listed_branches listed
    /\ In (EvRun [s "git"; s "branch"; s "-a"; s "--format=%(refname:short)"] None listed)
         (log st').
Proof.
  unfold git_operations.list_all_branches, try_except, subprocess_run, bind, get_fs,
    set_fs, emit, ret, raise, listed_branches.
  destruct (run_process w _ None (fs st)) as [answer root'] eqn:Ea.
  intros H. exists answer.
  assert (H2 : log st' = log st ++ [EvRun [s "git"; s "branch"; s "-a";
                                           s "--format=%(refname:short)"] None answer]).
  { destruct answer as [rc out err| |]; cbn [fst snd fs log] in H;
      [destruct (rc =? 0)%Z; cbn [andb negb is_process_error fst snd fs log] in H|..];
      assert (H2 := f_equal (fun r => log (snd r)) H);
      cbv beta iota in H2; cbn [fst snd log] in H2; now symmetry. }
  split; [|rewrite H2; apply in_or_app; right; now left].
  destruct answer as [rc out err| |]; cbn [fst snd fs log] in H;
    [destruct (rc =? 0)%Z; cbn [andb negb is_process_error fst snd fs log stdout] in H|..];
    assert (H1 := f_equal (fun r => match fst r with Ok a => a | Raise _ => branches end) H);
    cbv beta iota in H1; cbn [fst snd] in H1; now symmetry.
Qed.

Lemma provisioning_shape text (L : list Event) out err base out' err' listed f
    argv cwd answer ans :
  EvRun argv cwd answer
  = EvRun
      [s "git"; s "worktree"; s "add";
       str_of_path
         (path_join (path_join (Path_of_str (strip out)) (s ".worktrees"))
            (formatted f ++ s "-" ++ sanitize_feature_name text default_max_length));
       s "-b";
       formatted f ++ s "-" ++ sanitize_feature_name text default_max_length; base]
      None ans ->
  get_next_feature_number (listed_branches listed) = Ok f ->
  base = s "main" \/ base = s "master" ->
  sanitize_feature_name text default_max_length <> [] ->
  In (EvRun [s "git"; s "rev-parse"; s "--show-toplevel"] None (Completed 0 out err)) L ->
  In (EvRun [s "git"; s "rev-parse"; s "--verify"; base] None (Completed 0 out' err')) L ->
  In (EvRun [s "git"; s "branch"; s "-a"; s "--format=%(refname:short)"] None listed) L ->
  exists out err base out' err' listed f,
    In (EvRun [s "git"; s "rev-parse"; s "--show-toplevel"] None (Completed 0 out err)) L
    /\ In (EvRun [s "git"; s "rev-parse"; s "--verify"; base] None (Completed 0 out' err'))
         L
    /\ In (EvRun [s "git"; s "branch"; s "-a"; s "--format=%(refname:short)"] None listed)
         L
    /\ get_next_feature_number (listed_branches listed) = Ok f
    /\ let repo_root := Path_of_str (strip out) in
       let name := sanitize_feature_name text default_max_length in
       let branch := formatted f ++ s "-" ++ name in
       argv = [s "git"; s "worktree"; s "add";
               str_of_path (path_join (path_join repo_root (s ".worktrees")) branch);
               s "-b"; branch; base]
       /\ cwd = None
       /\ (base = s "main" \/ base = s "master")
       /\ (1 <= number f <= 999)%Z
       /\ formatted f = zero_pad3 (number f)
       /\ matches_fragment name = true
       /\ three_digit_prefix (after_final_slash branch) = Some (number f).
Proof.
  intros E Hf Hb Hne Hroot Hbase Hlist.
  assert (Ha := f_equal (fun e => match e with EvRun a _ _ => a | _ => [] end) E).
  assert (Hc := f_equal (fun e => match e with EvRun _ c _ => c | _ => None end) E).
  cbv beta iota in Ha, Hc. clear E. subst argv cwd.
  destruct (allocated_number_shape _ _ Hf) as [Hrange Hfmt].
  exists out, err, base, out', err', listed, f. cbv zeta.
  split; [exact Hroot|]. split; [exact Hbase|]. split; [exact Hlist|].
  split; [exact Hf|].
  split; [reflexivity|]. split; [reflexivity|]. split; [exact Hb|].
  split; [exact Hrange|]. split; [exact Hfmt|].
  split; [apply well_formed_matches; [apply sanitize_well_formed | exact Hne]|].
  rewrite Hfmt. now apply branch_read_back.
Qed.

Ltac in_log := solve [ repeat first [ eassumption | apply in_or_app; left ] ].

(** X16. The provisioning command of a run is composed of the answers
    that the run has got: it is [git worktree add <root>/.worktrees/<branch>
    -b <branch> <base>], not bound to a working directory, where the root
    is the one that [git rev-parse --show-toplevel] printed in this run,
    the base is ["main"] or ["master"] and was verified in this run, and
    the branch is the formatted number that [get_next_feature_number]
    gives for the branches that [git branch -a] listed in this run, a
    hyphen and the sanitized text, which is not empty and has the shape of
    a name; the allocator reads the number back from that branch. *)
Theorem cli_provisioning_command
    (w : World) (text : str) (root : Node)
    (argv : list str) (cwd : option str) (answer : ProcResult) :
  In (EvRun argv cwd answer) (log (snd (cli w text (mkState root [])))) ->
  is_worktree_add (EvRun argv cwd answer) = true ->
  exists out err base out' err' listed f,
    In (EvRun [s "git"; s "rev-parse"; s "--show-toplevel"] None (Completed 0 out err))
      (log (snd (cli w text (mkState root []))))
    /\ In (EvRun [s "git"; s "rev-parse"; s "--verify"; base] None (Completed 0 out' err'))
         (log (snd (cli w text (mkState root []))))
    /\ In (EvRun [s "git"; s "branch"; s "-a"; s "--format=%(refname:short)"] None listed)
         (log (snd (cli w text (mkState root []))))
    /\ get_next_feature_number (listed_branches listed) = Ok f
    /\ let repo_root := Path_of_str (strip out) in
       let name := sanitize_feature_name text default_max_length in
       let branch := formatted f ++ s "-" ++ name in
       argv = [s "git"; s "worktree"; s "add";
               str_of_path (path_join (path_join repo_root (s ".worktrees")) branch);
               s "-b"; branch; base]
       /\ cwd = None
       /\ (base = s "main" \/ base = s "master")
       /\ (1 <= number f <= 999)%Z
       /\ formatted f = zero_pad3 (number f)
       /\ matches_fragment name = true
       /\ three_digit_prefix (after_final_slash branch) = Some (number f).
Proof.
  revert argv cwd answer.
  change (wp (cli w text)
            (fun r st' =>
               forall argv cwd answer,
                 In (EvRun argv cwd answer) (log st') ->
                 is_worktree_add (EvRun argv cwd answer) = true ->
                 exists out err base out' err' listed f,
                   In (EvRun [s "git"; s "rev-parse"; s "--show-toplevel"] None
                         (Completed 0 out err)) (log st')
                   /\ In (EvRun [s "git"; s "rev-parse"; s "--verify"; base] None
                            (Completed 0 out' err')) (log st')
                   /\ In (EvRun [s "git"; s "branch"; s "-a";
                                 s "--format=%(refname:short)"] None listed) (log st')
                   /\ get_next_feature_number (listed_branches listed) = Ok f
                   /\ let repo_root := Path_of_str (strip out) in
                      let name := sanitize_feature_name text default_max_length in
                      let branch := formatted f ++ s "-" ++ name in
                      argv = [s "git"; s "worktree"; s "add";
                              str_of_path
                                (path_join (path_join repo_root (s ".worktrees")) branch);
                              s "-b"; branch; base]
                      /\ cwd = None
                      /\ (base = s "main" \/ base = s "master")
                      /\ (1 <= number f <= 999)%Z
                      /\ formatted f = zero_pad3 (number f)
                      /\ matches_fragment name = true
                      /\ three_digit_prefix (after_final_slash branch) = Some (number f))
            (mkState root [])).
  assert (Hinit : forallb is_preparation (log (mkState root [])) = true) by reflexivity.
  revert Hinit. generalize (mkState root []) as st. intros st Hinit.
  unfold cli.
  repeat stage_trace is_preparation any_exn
    ltac:(apply raises_only_any)
    ltac:(intros; apply early_is_preparation; assumption)
    ltac:(idtac;
          intros argv cwd answer Hin Hl;
          match goal with
          | H : forallb is_preparation _ = true |- _ =>
              rewrite (preparation_In_not_worktree_add _ _ H Hin) in Hl; discriminate
          end).
  repeat match goal with
         | E : try_except (bind (git_operations.get_repo_root _) _) _ _ _ = _ |- _ =>
             apply repo_root_stage in E; destruct E as (out & err & E & Hroot)
         | E : try_except (git_operations.get_main_branch _) _ _ _ = _ |- _ =>
             apply main_branch_stage in E; destruct E as (Hb & out' & err' & Hbase)
         | E : git_operations.list_all_branches _ _ = _ |- _ =>
             apply branches_stage in E; destruct E as (listed & E & Hlist)
         | E : try_except (bind (lift (get_next_feature_number _)) _) _ _ _ = _ |- _ =>
             apply number_stage in E
         | E : try_except (lift (FeatureRequest_new _ _)) _ _ _ = _ |- _ =>
             apply request_stage in E; destruct E as (E & _ & ?)
         | E : try_except (lift (WorktreeConfig_new _ _ _ _ _)) _ _ _ = _ |- _ =>
             apply config_stage in E
         end.
  subst.
  repeat match goal with
         | H : In ?e (log ?a), X : extends ?a ?b |- _ => apply (extends_In _ _ _ X) in H
         end.
  cbn [directory_path branch_name base_branch].
  repeat match goal with
         | E : sanitized_name _ = sanitize_feature_name _ _ |- _ => rewrite E in *; clear E
         end.
  cbv beta zeta. unfold wp, bind, try_except.
  match goal with
  | Hprep : forallb is_preparation (log ?st0) = true
    |- context [git_operations.create_worktree ?w ?p ?b ?base ?st0] =>
      assert (Hold : forall e, In e (log st0) -> is_worktree_add e = true -> False)
        by (intros e Hin He;
            rewrite (preparation_In_not_worktree_add _ _ Hprep Hin) in He;
            discriminate);
      destruct (create_worktree_run w p b base st0) as (r & E & _);
      rewrite E; clear E
  end.
  destruct r as [ok|e].
  - unfold echo, emit. cbn [fst snd fs log].
    rewrite launch_claude_code_eq. cbn [fst snd fs log sys_exit raise].
    intros argv cwd answer Hin Hl.
    apply in_app_or in Hin as [Hin|[Hin|[]]]; [|rewrite <- Hin in Hl; discriminate].
    apply in_app_or in Hin as [Hin|[Hin|[]]]; [|discriminate].
    apply in_app_or in Hin as [Hin|[Hin|[]]]; [destruct (Hold _ Hin Hl)|].
    eapply provisioning_shape;
      [ symmetry; exact Hin | eassumption | eassumption | eassumption
      | in_log | in_log | in_log ].
  - destruct (is_RuntimeError e).
    + unfold echo_err, emit, sys_exit, raise. cbn [fst snd fs log].
      intros argv cwd answer Hin Hl.
      apply in_app_or in Hin as [Hin|[Hin|[]]]; [|discriminate].
      apply in_app_or in Hin as [Hin|[Hin|[]]]; [destruct (Hold _ Hin Hl)|].
      eapply provisioning_shape;
      [ symmetry; exact Hin | eassumption | eassumption | eassumption
      | in_log | in_log | in_log ].
    + cbn [fst snd fs log].
      intros argv cwd answer Hin Hl.
      apply in_app_or in Hin as [Hin|[Hin|[]]]; [destruct (Hold _ Hin Hl)|].
      eapply provisioning_shape;
      [ symmetry; exact Hin | eassumption | eassumption | eassumption
      | in_log | in_log | in_log ].
Qed.

Lemma cli_provisioning_command_witness :
  exists out err base out' err' listed f,
    In (EvRun [s "git"; s "rev-parse"; s "--show-toplevel"] None (Completed 0 out err))
      (log (snd (cli demo_world (s "add login") (mkState demo_fs []))))
    /\ In (EvRun [s "git"; s "rev-parse"; s "--verify"; base] None (Completed 0 out' err'))
         (log (snd (cli demo_world (s "add login") (mkState demo_fs []))))
    /\ In (EvRun [s "git"; s "branch"; s "-a"; s "--format=%(refname:short)"] None listed)
         (log (snd (cli demo_world (s "add login") (mkState demo_fs []))))
    /\ get_next_feature_number (listed_branches listed) = Ok f
    /\ let repo_root := Path_of_str (strip out) in
       let name := sanitize_feature_name (s "add login") default_max_length in
       let branch := formatted f ++ s "-" ++ name in
       [s "git"; s "worktree"; s "add"; s "/repo/.worktrees/003-add-login"; s "-b";
        s "003-add-login"; s "main"]
       = [s "git"; s "worktree"; s "add";
          str_of_path (path_join (path_join repo_root (s ".worktrees")) branch);
          s "-b"; branch; base]
       /\ @None str = None
       /\ (base = s "main" \/ base = s "master")
       /\ (1 <= number f <= 999)%Z
       /\ formatted f = zero_pad3 (number f)
       /\ matches_fragment name = true
       /\ three_digit_prefix (after_final_slash branch) = Some (number f).
Proof.
  apply (cli_provisioning_command demo_world (s "add login") demo_fs
           [s "git"; s "worktree"; s "add"; s "/repo/.worktrees/003-add-login"; s "-b";
            s "003-add-login"; s "main"] None (Completed 0 [] [])).
  - vm_compute. repeat (first [left; reflexivity | right]).
  - reflexivity.
Defined.

(** ** The secret files *)

Lemma eqb_refl x : Str.eqb x x = true.
Proof. unfold Str.eqb. destruct (list_eq_dec ascii_dec x x); congruence. Qed.

Lemma assoc_set_entry k v es : assoc k (set_entry k v es) = Some v.
Proof.
  induction es as [|[k' n] r IH]; cbn [set_entry assoc].
  - now rewrite eqb_refl.
  - destruct (Str.eqb k k') eqn:E; cbn [assoc]; [now rewrite eqb_refl | now rewrite E].
Qed.

Lemma fs_lookup_put_existing new : forall p n x,
  fs_lookup n p = Some x -> fs_lookup (fs_put n p new) p = Some new.
Proof.
  induction p as [|c p IH]; intros n x H; [reflexivity|].
  cbn [fs_lookup fs_put] in *.
  destruct n as [r wt ct|wr es|]; try discriminate.
  destruct (assoc c es) as [child|] eqn:Ea; [|discriminate].
  cbn [fs_lookup]. rewrite assoc_set_entry. now apply IH with x.
Qed.

Lemma fs_lookup_put_new new : forall p n wr es,
  p <> [] ->
  fs_lookup n (removelast p) = Some (Dir wr es) ->
  fs_lookup (fs_put n p new) p = Some new.
Proof.
  induction p as [|c p IH]; intros n wr es Hne H; [congruence|].
  destruct p as [|c' p'].
  - cbn [removelast fs_lookup] in H. injection H as ->.
    cbn [fs_put fs_lookup]. destruct (assoc c es) as [child|];
      cbn [fs_lookup fs_put]; now rewrite assoc_set_entry.
  - change (removelast (c :: c' :: p')) with (c :: removelast (c' :: p')) in H.
    cbn [fs_lookup] in H.
    destruct n as [r wt ct|wr' es'|]; try discriminate.
    cbn [fs_put fs_lookup].
    destruct (assoc c es') as [child|] eqn:Ea; [|discriminate].
    cbn [fs_lookup]. rewrite assoc_set_entry.
    apply IH with wr es; [discriminate | exact H].
Qed.

Lemma translate_newlines_cons c t :
  translate_newlines (c :: t)
  = if Ascii.eqb c "013"%char then
      match t with
      | c' :: t' =>
          if Ascii.eqb c' "010"%char then "010"%char :: translate_newlines t'
          else "010"%char :: translate_newlines t
      | [] => ["010"%char]
      end
    else c :: translate_newlines t.
Proof. reflexivity. Qed.

Lemma translate_newlines_no_cr_upto n : forall x,
  (length x <= n)%nat -> ~ In "013"%char (translate_newlines x).
Proof.
  induction n as [|n IH]; intros [|c t] Hl; try (intros []); cbn [length] in Hl; [lia|].
  rewrite translate_newlines_cons.
  destruct (Ascii.eqb c "013"%char) eqn:Ec.
  - destruct t as [|c' t']; [intros [H|[]]; discriminate H|].
    cbn [length] in Hl.
    destruct (Ascii.eqb c' "010"%char); intros [H|H]; try discriminate H;
      revert H; apply IH; cbn [length]; lia.
  - intros [H|H]; [subst c; now rewrite Ascii.eqb_refl in Ec|].
    revert H. apply IH. lia.
Qed.

Lemma translate_newlines_no_cr x : ~ In "013"%char (translate_newlines x).
Proof. now apply (translate_newlines_no_cr_upto (length x)). Qed.

Lemma translate_newlines_fixed x :
  ~ In "013"%char x -> translate_newlines x = x.
Proof.
  induction x as [|c t IH]; intros H; [reflexivity|].
  rewrite translate_newlines_cons.
  destruct (Ascii.eqb c "013"%char) eqn:Ec.
  - apply Ascii.eqb_eq in Ec. subst c. exfalso. apply H. now left.
  - rewrite IH; [reflexivity|]. intros Hin. apply H. now right.
Qed.

Lemma read_text_ok w p st c st' :
  read_text w p st = (Ok c, st') ->
  st' = st
  /\ exists wt t,
       fs_lookup (fs st) (resolve w p) = Some (File true wt (Text t))
       /\ c = translate_newlines t.
Proof.
  unfold read_text, stat, bind, get_fs, ret, raise.
  destruct (fs_lookup (fs st) (resolve w p)) as [[r wt [t|]|wr es|]|];
    try discriminate; destruct r; cbn [negb]; try discriminate.
  intros H. injection H as H1 H2. split; [now symmetry|]. exists wt, t. now split.
Qed.

Lemma path_exists_run w p st :
  path_exists w p st
  = (Ok (match fs_lookup (fs st) (resolve w p) with Some _ => true | None => false end),
     st).
Proof. reflexivity. Qed.

Lemma path_is_dir_run w p st :
  path_is_dir w p st
  = (Ok (match fs_lookup (fs st) (resolve w p) with
         | Some (Dir _ _) => true
         | _ => false
         end), st).
Proof. reflexivity. Qed.

Lemma path_is_file_run w p st :
  path_is_file w p st
  = (Ok (match fs_lookup (fs st) (resolve w p) with
         | Some (File _ _ _) => true
         | _ => false
         end), st).
Proof. reflexivity. Qed.

(** [if b: raise e], followed by more. *)
Lemma when_raise_run {B} (b : bool) (e : Exn) (k : unit -> M B) st :
  bind (when b (raise e)) k st = if b then (Raise e, st) else k tt st.
Proof. now destruct b. Qed.

Lemma read_env_file_ok w workspace_path filepath st c st' :
  read_env_file_from_filesystem w workspace_path filepath st = (Ok c, st') ->
  st' = st
  /\ is_blank filepath = false
  /\ exists wt t,
       fs_lookup (fs st) (resolve w (path_join workspace_path filepath))
       = Some (File true wt (Text t))
       /\ c = translate_newlines t.
Proof.
  unfold read_env_file_from_filesystem, is_blank. cbv zeta. intros H.
  erewrite bind_ok in H by apply path_exists_run. rewrite when_raise_run in H.
  destruct (fs_lookup (fs st) (resolve w workspace_path)); cbn [negb] in H;
    [|discriminate H].
  rewrite when_raise_run in H.
  destruct (Str.eqb filepath [] || Str.eqb (strip filepath) []); [discriminate H|].
  erewrite bind_ok in H by apply path_exists_run. rewrite when_raise_run in H.
  destruct (fs_lookup (fs st) (resolve w (path_join workspace_path filepath)))
    as [dest|] eqn:El; cbn [negb] in H; [|discriminate H].
  erewrite bind_ok in H by apply path_is_file_run. rewrite El, when_raise_run in H.
  destruct dest as [r wt ct|wr es|]; cbn [negb] in H; try discriminate H.
  apply read_text_ok in H as (-> & wt' & t & H1 & ->).
  split; [reflexivity|]. split; [reflexivity|]. exists wt', t.
  split; [congruence | reflexivity].
Qed.

Lemma write_text_ok w p data st st' :
  write_text w p data st = (Ok tt, st') ->
  log st' = log st ++ [EvWrite p data]
  /\ exists readable,
       fs_lookup (fs st') (resolve w p) = Some (File readable true (Text data)).
Proof.
  unfold write_text, bind, get_fs, set_fs, emit, raise. cbv zeta.
  destruct (fs_lookup (fs st) (resolve w p)) as [[r wt ct|wr es|]|] eqn:El;
    try discriminate.
  - destruct wt; cbn [negb]; [|discriminate].
    intros H. injection H as H. subst st'. cbn [fs log]. split; [reflexivity|].
    exists r. now apply fs_lookup_put_existing with (File r true ct).
  - destruct (resolve w p) as [|c q] eqn:Er; [discriminate|]. rewrite <- Er in *.
    destruct (fs_lookup (fs st) (removelast (resolve w p))) as [[r wt ct|[|] es|]|] eqn:Ep;
      try discriminate.
    intros H. injection H as H. subst st'. cbn [fs log]. split; [reflexivity|].
    exists true. apply fs_lookup_put_new with true es; [rewrite Er; discriminate | exact Ep].
Qed.

(** X17. When [copy_one] succeeds, the source could be read without a
    change of the state, the destination [worktree_path / filepath] is a
    regular file that holds the text read, and reading it again gives that
    text when the file is readable. *)
Theorem copy_one_round_trip
    (w : World) (repo_root worktree_path : Path) (filepath : str) (st st' : State) :
  copy_one w repo_root worktree_path filepath st = (Ok tt, st') ->
  exists content readable,
    read_env_file_from_filesystem w repo_root filepath st = (Ok content, st)
    /\ fs_lookup (fs st') (resolve w (path_join worktree_path filepath))
       = Some (File readable true (Text content))
    /\ (readable = true ->
        read_text w (path_join worktree_path filepath) st' = (Ok content, st')).
Proof.
  unfold copy_one. cbv zeta. intros H.
  destruct (read_env_file_from_filesystem w repo_root filepath st) as [[c|e] st1] eqn:Er;
    [|erewrite bind_raise in H by exact Er; discriminate H].
  erewrite bind_ok in H by exact Er.
  destruct (read_env_file_ok _ _ _ _ _ _ Er) as (-> & _ & wt & t & _ & Hc).
  destruct (mkdir_parents w (path_parent (path_join worktree_path filepath)) st)
    as [[[]|e] st2] eqn:Em;
    [|erewrite bind_raise in H by exact Em; discriminate H].
  erewrite bind_ok in H by exact Em.
  apply write_text_ok in H as (_ & r & Hl).
  exists c, r. split; [reflexivity|]. split; [exact Hl|].
  intros ->. unfold read_text, stat, bind, get_fs, ret. rewrite Hl. cbn [negb].
  rewrite translate_newlines_fixed; [reflexivity|].
  rewrite Hc. apply translate_newlines_no_cr.
Qed.

Lemma copy_one_round_trip_witness :
  exists content readable,
    read_env_file_from_filesystem demo_world (Path_of_str (s "/repo")) (s "web/.env")
      (mkState demo_fs [])
    = (Ok content, mkState demo_fs [])
    /\ content = s "F=6"
    /\ fs_lookup
         (fs (snd (copy_one demo_world (Path_of_str (s "/repo"))
                     (Path_of_str (s "/repo/.worktrees/001-a")) (s "web/.env")
                     (mkState demo_fs []))))
         (resolve demo_world
            (path_join (Path_of_str (s "/repo/.worktrees/001-a")) (s "web/.env")))
       = Some (File readable true (Text content)).
Proof.
  destruct (copy_one_round_trip demo_world (Path_of_str (s "/repo"))
              (Path_of_str (s "/repo/.worktrees/001-a")) (s "web/.env")
              (mkState demo_fs [])
              (snd (copy_one demo_world (Path_of_str (s "/repo"))
                      (Path_of_str (s "/repo/.worktrees/001-a")) (s "web/.env")
                      (mkState demo_fs []))))
    as (content & readable & H1 & H2 & _).
  - vm_compute. reflexivity.
  - exists content, readable. split; [exact H1|]. split; [|exact H2].
    revert H1. vm_compute. congruence.
Defined.

(** X18. A workspace that does not exist, or that is not a directory, is
    refused by [discover_env_files] with a [ValueError] that names the
    path, and the state is left as it is. *)
Theorem discover_env_files_refusals (w : World) (workspace_path : Path) (st : State) :
  match fs_lookup (fs st) (resolve w workspace_path) with
  | Some (Dir _ _) => True
  | Some _ =>
      discover_env_files w workspace_path st
      = (Raise (ValueError (s "Workspace path is not a directory: "
                            ++ str_of_path workspace_path)), st)
  | None =>
      discover_env_files w workspace_path st
      = (Raise (ValueError (s "Workspace path does not exist: "
                            ++ str_of_path workspace_path)), st)
  end.
Proof.
  destruct (fs_lookup (fs st) (resolve w workspace_path)) as [[r wt ct|wr es|]|] eqn:E.
  - unfold discover_env_files.
    erewrite bind_ok by apply path_exists_run. rewrite when_raise_run, E. cbn [negb].
    erewrite bind_ok by apply path_is_dir_run. rewrite when_raise_run, E. reflexivity.
  - exact I.
  - unfold discover_env_files.
    erewrite bind_ok by apply path_exists_run. rewrite when_raise_run, E. cbn [negb].
    erewrite bind_ok by apply path_is_dir_run. rewrite when_raise_run, E. reflexivity.
  - unfold discover_env_files.
    erewrite bind_ok by apply path_exists_run. rewrite when_raise_run, E. reflexivity.
Qed.



(** The loop of [copy_env_files_to_worktree] and the report it builds. *)
Lemma copy_tail_run w repo_root worktree_path env_files st :
  (c <- for_each env_files (mkCounters 0 0 []) (copy_step w repo_root worktree_path) ;;
   lift (EnvFileCopyResult_new (Z.of_nat (length env_files)) (copied c) (failed c)
           (messages c))) st
  = (Ok (mkEnvFileCopyResult
           (Z.of_nat (length (fst (attempt_all w repo_root worktree_path env_files st))))
           (count_ok (fst (attempt_all w repo_root worktree_path env_files st)))
           (count_failed (fst (attempt_all w repo_root worktree_path env_files st)))
           (failure_messages (fst (attempt_all w repo_root worktree_path env_files st)))),
     snd (attempt_all w repo_root worktree_path env_files st)).
Proof.
  erewrite bind_ok by apply copy_loop.
  cbn [copied failed messages app]. unfold lift.
  rewrite !Z.add_0_l, <- (attempt_all_length w repo_root worktree_path env_files st).
  now rewrite EnvFileCopyResult_new_counts.
Qed.

(** X20. [copy_env_files_to_worktree] refuses a destination that is not
    an existing directory with a [ValueError] before anything is done, and
    it reports a [RuntimeError] of [get_repo_root] as the [RuntimeError]
    ["Cannot determine repository root: "] followed by the text of the
    cause. *)
Theorem copy_env_files_failures (w : World) (worktree_path : Path) (st : State) :
  match fs_lookup (fs st) (resolve w worktree_path) with
  | Some (Dir _ _) =>
      forall e st1,
        git_operations.get_repo_root w st = (Raise e, st1) ->
        is_RuntimeError e = true ->
        copy_env_files_to_worktree w worktree_path st
        = (Raise (RuntimeError (s "Cannot determine repository root: "
                                ++ str_of_exn e)), st1)
  | Some _ =>
      copy_env_files_to_worktree w worktree_path st
      = (Raise (ValueError (s "Worktree path is not a directory: "
                            ++ str_of_path worktree_path)), st)
  | None =>
      copy_env_files_to_worktree w worktree_path st
      = (Raise (ValueError (s "Worktree path does not exist: "
                            ++ str_of_path worktree_path)), st)
  end.
Proof.
  destruct (fs_lookup (fs st) (resolve w worktree_path)) as [[r wt ct|wr es|]|] eqn:E;
    unfold copy_env_files_to_worktree.
  - erewrite bind_ok by apply path_exists_run. rewrite when_raise_run, E. cbn [negb].
    erewrite bind_ok by apply path_is_dir_run. rewrite when_raise_run, E. reflexivity.
  - intros e st1 He Hr.
    erewrite bind_ok by apply path_exists_run. rewrite when_raise_run, E. cbn [negb].
    erewrite bind_ok by apply path_is_dir_run. rewrite when_raise_run, E. cbn [negb].
    erewrite bind_raise; [reflexivity|].
    erewrite try_except_caught; [reflexivity | exact He | exact Hr].
  - erewrite bind_ok by apply path_exists_run. rewrite when_raise_run, E. cbn [negb].
    erewrite bind_ok by apply path_is_dir_run. rewrite when_raise_run, E. reflexivity.
  - erewrite bind_ok by apply path_exists_run. rewrite when_raise_run, E. reflexivity.
Qed.

Lemma copy_env_files_failures_witness :
  copy_env_files_to_worktree
    (world_with_failure (has_part (s "--show-toplevel"))
       (Completed 128 [] (s "fatal: not a git repository")))
    (Path_of_str (s "/repo/.worktrees/001-a")) (mkState demo_fs [])
  = (Raise (RuntimeError (s "Cannot determine repository root: not a git repository")),
     mkState demo_fs
       [EvRun [s "git"; s "rev-parse"; s "--show-toplevel"] None
          (Completed 128 [] (s "fatal: not a git repository"))]).
Proof.
  exact (copy_env_files_failures
           (world_with_failure (has_part (s "--show-toplevel"))
              (Completed 128 [] (s "fatal: not a git repository")))
           (Path_of_str (s "/repo/.worktrees/001-a")) (mkState demo_fs [])
           (RuntimeError (s "not a git repository"))
           (mkState demo_fs
              [EvRun [s "git"; s "rev-parse"; s "--show-toplevel"] None
                 (Completed 128 [] (s "fatal: not a git repository"))])
           eq_refl eq_refl).
Defined.

Lemma copy_report_shape w worktree_path :
  returns
    (fun r => exists outs,
       r = mkEnvFileCopyResult (Z.of_nat (length outs)) (count_ok outs) (count_failed outs)
             (failure_messages outs))
    (copy_env_files_to_worktree w worktree_path).
Proof.
  unfold copy_env_files_to_worktree.
  do 6 (apply returns_bind; intros ?).
  intros st r st'. rewrite copy_tail_run. intros H. injection H as <- _.
  eexists. reflexivity.
Qed.

(** X21. Of a report that [copy_env_files_to_worktree] returns, [success]
    says that files were found and every one of them was copied, and
    [partial_success] that some but not all of them were copied; a run
    that finds no file is not a success. *)
Theorem copy_report_success
    (w : World) (worktree_path : Path) (st st' : State) (r : EnvFileCopyResult) :
  copy_env_files_to_worktree w worktree_path st = (Ok r, st') ->
  (success r = true
   <-> (files_copied r = files_discovered r /\ 0 < files_discovered r)%Z)
  /\ (partial_success r = true <-> (0 < files_copied r < files_discovered r)%Z).
Proof.
  intros H. destruct (copy_report_shape w worktree_path _ _ _ H) as [outs ->].
  unfold success, partial_success.
  cbn [files_copied files_failed files_discovered].
  pose proof (counts_total outs). pose proof (count_ok_nonneg outs).
  pose proof (count_failed_nonneg outs).
  rewrite !andb_true_iff, Z.eqb_eq, !Z.gtb_ltb, !Z.ltb_lt. lia.
Qed.

Lemma copy_report_success_witness :
  (success (mkEnvFileCopyResult 5 3 2
              [s "Failed to copy .envdir/.env.x: 'utf-8' codec can't decode byte: invalid start byte";
               s "Failed to copy api/.env.test: Permission denied: /repo/api/.env.test"])
   = true
   <-> (3 = 5 /\ 0 < 5)%Z)
  /\ (partial_success
        (mkEnvFileCopyResult 5 3 2
           [s "Failed to copy .envdir/.env.x: 'utf-8' codec can't decode byte: invalid start byte";
            s "Failed to copy api/.env.test: Permission denied: /repo/api/.env.test"])
      = true
      <-> (0 < 3 < 5)%Z).
Proof.
  eapply (copy_report_success demo_world (Path_of_str (s "/repo/.worktrees/001-a"))
            (mkState demo_fs []) _
            (mkEnvFileCopyResult 5 3 2
               [s "Failed to copy .envdir/.env.x: 'utf-8' codec can't decode byte: invalid start byte";
                s "Failed to copy api/.env.test: Permission denied: /repo/api/.env.test"])).
  vm_compute. reflexivity.
Defined.

(** ** More on the validators *)

Lemma read_text_state w p st : snd (read_text w p st) = st.
Proof.
  unfold read_text, stat, bind, get_fs, ret, raise.
  destruct (fs_lookup (fs st) (resolve w p)) as [[[|] wt [t|]|wr es|]|]; reflexivity.
Qed.

(** Reading [.gitignore] leaves the state as it is. *)
Lemma gitignore_scan_run {A} w p (f : str -> A) (d : A) (ex : bool) st :
  exists r,
    (if ex then gitignore_content <- read_text w p ;; ret (f gitignore_content)
     else ret d) st = (r, st).
Proof.
  destruct ex; [|eexists; reflexivity].
  unfold bind. pose proof (read_text_state w p st) as Hs.
  destruct (read_text w p st) as [[c|e] st1]; cbn [snd] in Hs; subst st1;
    eexists; reflexivity.
Qed.

Lemma subprocess_run_unchecked w argv cwd st :
  subprocess_run w argv cwd false st
  = (match fst (run_process w argv cwd (fs st)) with
     | Completed rc out err => Ok (mkCompletedProcess rc out err)
     | NotFound =>
         Raise (FileNotFoundError (s "No such file or directory: " ++ hd [] argv))
     | TimedOut => Raise (TimeoutExpired (s "Command timed out"))
     end,
     mkState (snd (run_process w argv cwd (fs st)))
       (log st ++ [EvRun argv cwd (fst (run_process w argv cwd (fs st)))])).
Proof.
  unfold subprocess_run, bind, get_fs, set_fs, emit.
  destruct (run_process w argv cwd (fs st)) as [[rc out err| |] root']; reflexivity.
Qed.

(** X22. A tool that is not found is a failed result for the checks of
    [git] and of the assistant, but not for the Spec Kit check, which
    does not catch the [FileNotFoundError]: without a [.gitignore], a
    [git] that cannot be started makes the check raise it. *)
Theorem validators_missing_tool
    (w : World) (repo_path : Path) (main_branch : str) (st : State) :
  (fst (run_process w [s "git"; s "--version"] None (fs st)) = NotFound ->
   exists v, fst (validators.is_git_installed w st) = Ok v /\ passed v = false)
  /\ (fst (run_process w [s "claude"; s "--version"] None (fs st)) = NotFound ->
      exists v, fst (validators.is_claude_code_installed w st) = Ok v /\ passed v = false)
  /\ (fs_lookup (fs st) (resolve w (path_join repo_path (s ".gitignore"))) = None ->
      fst (run_process w
             [s "git"; s "show"; main_branch ++ s ":.specify/memory/constitution.md"]
             (Some (str_of_path repo_path)) (fs st)) = NotFound ->
      exists msg,
        fst (validators.is_spec_kit_initialized w repo_path main_branch st)
        = Raise (FileNotFoundError msg)).
Proof.
  split; [|split].
  - intros Hn. unfold validators.is_git_installed, try_except, subprocess_run, bind,
      get_fs, set_fs, emit.
    destruct (run_process w _ None (fs st)) as [r root']. cbn [fst] in Hn. subst r.
    eexists. split; reflexivity.
  - intros Hn. unfold validators.is_claude_code_installed, try_except, subprocess_run,
      bind, get_fs, set_fs, emit.
    destruct (run_process w _ None (fs st)) as [r root']. cbn [fst] in Hn. subst r.
    eexists. split; reflexivity.
  - intros Hg Hn. unfold validators.is_spec_kit_initialized. cbv zeta.
    erewrite bind_ok by apply path_exists_run. rewrite Hg.
    erewrite bind_ok by reflexivity. cbv beta iota.
    erewrite bind_raise.
    + eexists. reflexivity.
    + erewrite try_except_passed; [reflexivity| |reflexivity].
      erewrite bind_raise; [reflexivity|].
      rewrite subprocess_run_unchecked, Hn. reflexivity.
Qed.

Lemma validators_missing_tool_witness :
  (exists v,
     fst (validators.is_git_installed world_without_git (mkState demo_fs [])) = Ok v
     /\ passed v = false)
  /\ exists msg,
       fst (validators.is_spec_kit_initialized world_without_git (Path_of_str (s "/repo"))
              (s "main") (mkState demo_fs []))
       = Raise (FileNotFoundError msg).
Proof.
  destruct (validators_missing_tool world_without_git (Path_of_str (s "/repo")) (s "main")
              (mkState demo_fs [])) as (H1 & _ & H3).
  split; [apply H1; reflexivity | apply H3; reflexivity].
Defined.

(** X23. The Spec Kit check passes only after its three commands, [git
    show] of the constitution and [git ls-tree] of the templates and of
    the scripts on the main branch, each run in the repository, have all
    ended with status 0, the two listings with output that is not blank;
    it runs nothing else. *)
Theorem spec_kit_passes_only_verified
    (w : World) (repo_path : Path) (main_branch : str)
    (st st' : State) (v : ValidationResult) :
  validators.is_spec_kit_initialized w repo_path main_branch st = (Ok v, st') ->
  passed v = true ->
  exists o1 e1 o2 e2 o3 e3,
    log st' = log st ++ spec_kit_commands repo_path main_branch o1 e1 o2 e2 o3 e3
    /\ strip o2 <> [] /\ strip o3 <> [].
Proof.
  unfold validators.is_spec_kit_initialized. cbv zeta. intros H Hp.
  erewrite bind_ok in H by apply path_exists_run.
  match type of H with
  | bind (if ?ex then bind (read_text ?w ?p) (fun c => ret (@?f c)) else ret ?d) _ _ = _ =>
      destruct (gitignore_scan_run w p f d ex st) as [[[|]|e] Hscan]
  end;
    [erewrite bind_ok in H by exact Hscan
    |erewrite bind_ok in H by exact Hscan
    |erewrite bind_raise in H by exact Hscan; discriminate H];
    cbv beta iota in H.
  - unfold validators.spec_kit, lift, ValidationResult_new in H. cbn [negb andb] in H.
    injection H as <- _. discriminate Hp.
  - clear Hscan. revert H.
    cbn [validators.check_required_paths].
    unfold validators.check_required_path, validators.spec_kit, lift, ValidationResult_new.
    cbn [negb andb truthy app s String.list_ascii_of_string].
    unfold try_except, bind, ret. rewrite !subprocess_run_unchecked.
    cbn [fs log].
    destruct (run_process w _ (Some (str_of_path repo_path)) (fs st))
      as [[rc1 o1 e1| |] root1]; cbn [fst snd orb];
      try (intros H; injection H as <- _; discriminate Hp); try discriminate.
    cbn [returncode stdout].
    destruct (rc1 =? 0)%Z eqn:E1; cbn [negb fst snd];
      [|intros H; injection H as <- _; discriminate Hp].
    rewrite !subprocess_run_unchecked. cbn [fs log].
    destruct (run_process w _ (Some (str_of_path repo_path)) root1)
      as [[rc2 o2 e2| |] root2]; cbn [fst snd orb];
      try (intros H; injection H as <- _; discriminate Hp); try discriminate.
    cbn [returncode stdout].
    destruct (rc2 =? 0)%Z eqn:E2; cbn [negb orb fst snd];
      [|intros H; injection H as <- _; discriminate Hp].
    destruct (Str.eqb (strip o2) []) eqn:B2; cbn [fst snd];
      [intros H; injection H as <- _; discriminate Hp|].
    rewrite !subprocess_run_unchecked. cbn [fs log].
    destruct (run_process w _ (Some (str_of_path repo_path)) root2)
      as [[rc3 o3 e3| |] root3]; cbn [fst snd orb];
      try (intros H; injection H as <- _; discriminate Hp); try discriminate.
    cbn [returncode stdout].
    destruct (rc3 =? 0)%Z eqn:E3; cbn [negb orb fst snd];
      [|intros H; injection H as <- _; discriminate Hp].
    destruct (Str.eqb (strip o3) []) eqn:B3; cbn [fst snd];
      [intros H; injection H as <- _; discriminate Hp|].
    intros H. injection H as _ <-. cbn [log].
    apply Z.eqb_eq in E1, E2, E3. subst rc1 rc2 rc3.
    exists o1, e1, o2, e2, o3, e3. unfold spec_kit_commands.
    split; [now rewrite <- !app_assoc|].
    split; intros E; [rewrite E in B2 | rewrite E in B3]; discriminate.
Qed.

Lemma spec_kit_passes_only_verified_witness :
  exists o1 e1 o2 e2 o3 e3,
    log (snd (validators.is_spec_kit_initialized demo_world (Path_of_str (s "/repo"))
                (s "main") (mkState demo_fs [])))
    = log (mkState demo_fs [])
      ++ spec_kit_commands (Path_of_str (s "/repo")) (s "main") o1 e1 o2 e2 o3 e3
    /\ strip o2 <> [] /\ strip o3 <> [].
Proof.
  eapply (spec_kit_passes_only_verified demo_world (Path_of_str (s "/repo")) (s "main")
            (mkState demo_fs []) _
            (mkValidationResult (s "spec_kit_on_main") true None None)).
  - vm_compute. reflexivity.
  - reflexivity.
Defined.

(** ** The fetch *)

Lemma before_fetch_In l e :
  forallb before_fetch l = true -> In e l -> is_fetch e = false.
Proof.
  intros H Hin. rewrite forallb_forall in H. specialize (H e Hin).
  unfold before_fetch in H. apply andb_true_iff in H as [_ H].
  now apply negb_true_iff in H.
Qed.

Lemma git_fetch_run w st :
  git_operations.git_fetch w st
  = (Ok (negb (answer_failed (fst (run_process w [s "git"; s "fetch"] None (fs st))))),
     mkState (snd (run_process w [s "git"; s "fetch"] None (fs st)))
       (log st ++ [EvRun [s "git"; s "fetch"] None
                     (fst (run_process w [s "git"; s "fetch"] None (fs st)))])).
Proof.
  unfold git_operations.git_fetch, try_except, subprocess_run, bind, get_fs, set_fs, emit.
  destruct (run_process w _ None (fs st)) as [[rc out err| |] root']; cbn;
    [destruct (rc =? 0)%Z|..]; reflexivity.
Qed.

Lemma list_all_branches_run w st :
  exists branches answer root',
    git_operations.list_all_branches w st
    = (Ok branches,
       mkState root'
         (log st ++ [EvRun [s "git"; s "branch"; s "-a"; s "--format=%(refname:short)"]
                       None answer])).
Proof.
  unfold git_operations.list_all_branches, try_except, subprocess_run, bind,
    get_fs, set_fs, emit.
  destruct (run_process w _ None (fs st)) as [[rc out err| |] root']; cbn;
    [destruct (rc =? 0)%Z|..]; do 3 eexists; reflexivity.
Qed.

Lemma when_echo_err_run (b : bool) (msg : str) st :
  when b (echo_err msg) st
  = (Ok tt, mkState (fs st) (log st ++ if b then [EvEcho true msg] else [])).
Proof. destruct b; cbn; [reflexivity|]. rewrite app_nil_r. now destruct st. Qed.

Ltac footprint_before_fetch :=
  cbv zeta;
  repeat first
    [ progress unfold validators.is_git_installed, validators.is_claude_code_installed,
        validators.is_spec_kit_initialized, validators.check_required_path,
        validators.spec_kit, git_operations.is_git_repository,
        git_operations.get_repo_root, git_operations.get_main_branch,
        git_operations.create_worktree, launch_claude_code,
        report_failed_check, echo, echo_err, sys_exit
    | progress cbn [validators.check_required_paths]
    | only_emits_step ].

(** X24. A failed [git fetch] does not end the run: when the fetch ended
    with a status other than 0, could not be started or timed out, the
    run has printed the warning and has gone on to list the branches. *)
Theorem fetch_failure_is_not_fatal
    (w : World) (text : str) (root : Node)
    (argv : list str) (cwd : option str) (answer : ProcResult) :
  In (EvRun argv cwd answer) (log (snd (cli w text (mkState root [])))) ->
  is_fetch (EvRun argv cwd answer) = true ->
  answer_failed answer = true ->
  In fetch_warning (log (snd (cli w text (mkState root []))))
  /\ existsb is_branch_listing (log (snd (cli w text (mkState root [])))) = true.
Proof.
  revert argv cwd answer.
  change (wp (cli w text)
            (fun r st' =>
               forall argv cwd answer,
                 In (EvRun argv cwd answer) (log st') ->
                 is_fetch (EvRun argv cwd answer) = true ->
                 answer_failed answer = true ->
                 In fetch_warning (log st')
                 /\ existsb is_branch_listing (log st') = true)
            (mkState root [])).
  assert (Hinit : forallb before_fetch (log (mkState root [])) = true) by reflexivity.
  revert Hinit. generalize (mkState root []) as st. intros st Hinit.
  unfold cli.
  repeat (cbv beta zeta;
          apply (wp_bind_inv before_fetch);
          [ solve [footprint_before_fetch]
          | assumption
          | intros ? ? ? argv cwd answer Hin Hf;
            match goal with
            | H : forallb before_fetch _ = true |- _ =>
                rewrite (before_fetch_In _ _ H Hin) in Hf; discriminate
            end
          | intros ? ? ? ]).
  unfold wp.
  erewrite bind_ok by apply git_fetch_run.
  erewrite bind_ok by apply when_echo_err_run.
  match goal with
  | |- context [bind (git_operations.list_all_branches ?w) _ ?s2] =>
      destruct (list_all_branches_run w s2) as (branches & listed & root' & El)
  end.
  erewrite bind_ok by exact El. clear El.
  match goal with
  | |- context [snd (?m ?s3)] =>
      assert (Ht : only_emits not_fetch m) by footprint_before_fetch;
      destruct (Ht s3) as (evs & E & F); clear Ht
  end.
  intros argv cwd answer Hin Hf Hfail. rewrite E in *. clear E. cbn [log fs] in *.
  split.
  - apply in_app_or in Hin as [Hin|Hin];
      [|rewrite forallb_forall in F; specialize (F _ Hin); unfold not_fetch in F;
        rewrite Hf in F; discriminate F].
    apply in_app_or in Hin as [Hin|[Hin|[]]];
      [|rewrite <- Hin in Hf; discriminate Hf].
    apply in_app_or in Hin as [Hin|Hin];
      [|destruct (negb (negb _)) in Hin;
        [destruct Hin as [Hin|[]]; discriminate Hin | destruct Hin]].
    apply in_app_or in Hin as [Hin|[Hin|[]]];
      [match goal with
       | H : forallb before_fetch ?l = true, Hin : In _ ?l |- _ =>
           rewrite (before_fetch_In _ _ H Hin) in Hf; discriminate Hf
       end|].
    assert (Ha := f_equal (fun e => match e with EvRun _ _ a => a | _ => answer end) Hin).
    cbv beta iota in Ha. rewrite Ha, Hfail.
    apply in_or_app. left. apply in_or_app. left. apply in_or_app. right. now left.
  - rewrite existsb_app. apply orb_true_iff. left.
    rewrite existsb_app. apply orb_true_iff. right. reflexivity.
Qed.

Lemma fetch_failure_is_not_fatal_witness :
  In fetch_warning
    (log (snd (cli (world_with_failure (has_part (s "fetch")) (Completed 1 [] []))
                 (s "add login") (mkState demo_fs []))))
  /\ existsb is_branch_listing
       (log (snd (cli (world_with_failure (has_part (s "fetch")) (Completed 1 [] []))
                    (s "add login") (mkState demo_fs []))))
     = true.
Proof.
  apply (fetch_failure_is_not_fatal
           (world_with_failure (has_part (s "fetch")) (Completed 1 [] []))
           (s "add login") demo_fs [s "git"; s "fetch"] None (Completed 1 [] [])).
  - vm_compute. repeat (first [left; reflexivity | right]).
  - reflexivity.
  - reflexivity.
Defined.

(** ** Input without a retainable character: the run *)

Lemma bind_assoc {A B C} (m : M A) (k : A -> M B) (h : B -> M C) st :
  bind (bind m k) h st = bind m (fun a => bind (k a) h) st.
Proof. unfold bind. destruct (m st) as [[a|e] st1]; reflexivity. Qed.

Lemma bind_cong {A B} (m : M A) (k k' : A -> M B) st :
  (forall a st', k a st' = k' a st') -> bind m k st = bind m k' st.
Proof. intros H. unfold bind. destruct (m st) as [[a|e] st1]; [apply H | reflexivity]. Qed.

(** With a text that is not blank and whose sanitized form is empty, a
    run is the preparation followed by the rejection of the request. *)
Lemma cli_empty_name_run w text st msg :
  is_blank text = false ->
  sanitize_feature_name text default_max_length = [] ->
  FeatureRequest_new text [] = Raise (ValidationError msg) ->
  cli w text st
  = (preparation w ;;
     echo_err (s "Error: Invalid feature request: " ++ msg) ;;
     sys_exit 3) st.
Proof.
  intros Hb Hs Hmsg. unfold cli, preparation.
  change (Str.eqb text [] || Str.eqb (strip text) []) with (is_blank text).
  rewrite Hb. cbn [when].
  change (bind (ret tt) ?k st) with (k tt st). cbv beta zeta.
  repeat (etransitivity; [|symmetry; apply bind_assoc]; apply bind_cong; intros ? ?).
  rewrite Hs, Hmsg. reflexivity.
Qed.

(** The preparation ends a run only with exit code 1 or 2. *)
Lemma preparation_exits w : raises_only exits_1_2 (preparation w).
Proof. unfold preparation. cbv zeta. exits_of_stage. Qed.

Lemma empty_sanitized_name_no_effect (w : World) (text : str) (root : Node) :
  sanitize_feature_name text default_max_length = [] ->
  existsb is_worktree_add (log (snd (cli w text (mkState root [])))) = false
  /\ existsb is_launch (log (snd (cli w text (mkState root [])))) = false
  /\ existsb is_write (log (snd (cli w text (mkState root [])))) = false
  /\ is_ok (fst (cli w text (mkState root []))) = false
  /\ (is_blank text = true ->
      cli w text (mkState root [])
      = (Raise (SystemExit 3),
         mkState root
           [EvEcho true (s "Error: Feature request is required");
            EvEcho true (s "  Usage: spork <feature-request>");
            EvEcho true (s "  Example: spork " ++ ["034"%char]
                         ++ s "add user authentication" ++ ["034"%char])]))
  /\ (existsb is_number_announcement (log (snd (cli w text (mkState root [])))) = true ->
      fst (cli w text (mkState root [])) = Raise (SystemExit 3)).
Proof.
  intros Hs.
  enough (G : wp (cli w text)
                (fun r st' =>
                   forallb is_preparation (log st') = true
                   /\ is_ok r = false
                   /\ (existsb is_number_announcement (log st') = true ->
                       r = Raise (SystemExit 3)))
                (mkState root [])
              /\ (is_blank text = true ->
                  cli w text (mkState root [])
                  = (Raise (SystemExit 3),
                     mkState root
                       [EvEcho true (s "Error: Feature request is required");
                        EvEcho true (s "  Usage: spork <feature-request>");
                        EvEcho true (s "  Example: spork " ++ ["034"%char]
                                     ++ s "add user authentication" ++ ["034"%char])]))).
  { destruct G as [(H1 & H2 & H3) H4]. unfold wp in *.
    repeat split; auto using preparation_not_worktree_add, preparation_not_launch,
      preparation_not_write. }
  split.
  2:{ intros Hb. unfold cli. apply bind_raise. unfold is_blank in Hb. rewrite Hb.
      reflexivity. }
  assert (Hinit : forallb is_early (log (mkState root [])) = true) by reflexivity.
  revert Hinit. generalize (mkState root []) as st. intros st Hinit.
  unfold cli.
  repeat stage is_early
    ltac:(intros; assumption)
    ltac:(idtac;
          match goal with
          | H : forallb is_early _ = true |- _ =>
              split; [exact (forallb_weaken _ _ _ early_is_preparation H)|];
              split; [reflexivity|];
              intros Hm; rewrite (early_not_announcement _ H) in Hm; discriminate
          end).
  cbv beta zeta. rewrite Hs. unfold wp, bind, try_except, lift, echo, echo_err, emit,
    sys_exit, raise, ret.
  match goal with
  | H : forallb is_early (log ?st) = true |- context [get_next_feature_number ?bs] =>
      pose proof (forallb_weaken _ _ _ early_is_preparation H) as Hprep;
      pose proof (early_not_announcement _ H) as Hann;
      destruct (get_next_feature_number bs) as [fn|e]
  end.
  - destruct (FeatureRequest_new_empty text) as [msg ->].
    cbn [fst snd fs log is_Exception is_ok].
    split; [|split; [reflexivity | reflexivity]].
    rewrite !forallb_app, Hprep. reflexivity.
  - destruct (is_ValueError e); cbn [fst snd fs log is_ok].
    + split; [|split; [reflexivity|]].
      * rewrite forallb_app, Hprep. reflexivity.
      * rewrite existsb_app, Hann. cbn. discriminate.
    + split; [exact Hprep|]. split; [reflexivity|]. rewrite Hann. discriminate.
Qed.

(** C7, amended. For a raw text whose sanitized form is empty no run
    creates a worktree, launches the assistant or writes a file, and no
    run ends normally.  When the text is blank the run ends at once with
    exit code 3 and nothing but the usage message.  Otherwise the run is
    the preparation, that is the prerequisite checks, the lookup of the
    root and of the base branch, the fetch and the allocation, followed by
    the rejection of the request: when the preparation goes through, the
    run prints the error of the FeatureRequest and ends with exit code 3;
    when a stage of the preparation fails, the run ends as that stage
    does, and the exit code is then 1 or 2. *)
Theorem empty_sanitized_name_rejected (w : World) (text : str) (root : Node) :
  sanitize_feature_name text default_max_length = [] ->
  existsb is_worktree_add (log (snd (cli w text (mkState root [])))) = false
  /\ existsb is_launch (log (snd (cli w text (mkState root [])))) = false
  /\ existsb is_write (log (snd (cli w text (mkState root [])))) = false
  /\ is_ok (fst (cli w text (mkState root []))) = false
  /\ (is_blank text = true ->
      cli w text (mkState root [])
      = (Raise (SystemExit 3),
         mkState root
           [EvEcho true (s "Error: Feature request is required");
            EvEcho true (s "  Usage: spork <feature-request>");
            EvEcho true (s "  Example: spork " ++ ["034"%char]
                         ++ s "add user authentication" ++ ["034"%char])]))
  /\ (existsb is_number_announcement (log (snd (cli w text (mkState root [])))) = true ->
      fst (cli w text (mkState root [])) = Raise (SystemExit 3))
  /\ (is_blank text = false ->
      match preparation w (mkState root []) with
      | (Ok _, st1) =>
          exists msg,
            cli w text (mkState root [])
            = (Raise (SystemExit 3),
               mkState (fs st1)
                 (log st1 ++ [EvEcho true (s "Error: Invalid feature request: " ++ msg)]))
      | (Raise e, st1) =>
          cli w text (mkState root []) = (Raise e, st1)
          /\ (forall c, e = SystemExit c -> c = 1%Z \/ c = 2%Z)
      end).
Proof.
  intros Hs.
  destruct (empty_sanitized_name_no_effect w text root Hs) as (H1 & H2 & H3 & H4 & H5 & H6).
  repeat (split; [assumption|]).
  intros Hb. destruct (FeatureRequest_new_empty text) as [msg Hmsg].
  rewrite (cli_empty_name_run w text _ msg Hb Hs Hmsg).
  destruct (preparation w (mkState root [])) as [[a|e] st1] eqn:Ep.
  - exists msg. erewrite bind_ok by exact Ep. reflexivity.
  - split; [now erewrite bind_raise by exact Ep|]. intros c ->.
    pose proof (preparation_exits w _ _ _ Ep) as Hc. cbn [exits_1_2] in Hc.
    apply orb_true_iff in Hc as [Hc|Hc]; apply Z.eqb_eq in Hc; auto.
Qed.

Lemma empty_sanitized_name_rejected_witness :
  exists st1 msg,
    preparation demo_world (mkState demo_fs []) = (Ok tt, st1)
    /\ cli demo_world (s "!!!") (mkState demo_fs [])
       = (Raise (SystemExit 3),
          mkState (fs st1)
            (log st1 ++ [EvEcho true (s "Error: Invalid feature request: " ++ msg)])).
Proof.
  destruct (empty_sanitized_name_rejected demo_world (s "!!!") demo_fs eq_refl)
    as (_ & _ & _ & _ & _ & _ & H).
  specialize (H eq_refl).
  destruct (preparation demo_world (mkState demo_fs [])) as [[[]|e] st1] eqn:E.
  - destruct H as [msg H]. exists st1, msg. split; [reflexivity | exact H].
  - exfalso. revert E. vm_compute. discriminate.
Defined.

(** ** Exit code 3 *)

Lemma FeatureRequest_sanitized_rejected text e :
  FeatureRequest_new text (sanitize_feature_name text default_max_length) = Raise e ->
  ~ (1 <= len text <= 500)%Z \/ sanitize_feature_name text default_max_length = [].
Proof.
  pose proof (sanitize_well_formed text default_max_length) as Hw.
  pose proof (sanitize_length text default_max_length) as Hl.
  set (x := sanitize_feature_name text default_max_length) in *.
  assert (Hal : forallb (fun c => isalnum c || Ascii.eqb c "-"%char) x = true).
  { destruct Hw as [Hc _ _ _]. unfold clean in Hc.
    rewrite forallb_forall in *. intros c Hin. specialize (Hc c Hin).
    revert Hc. clear.
    destruct c as [[|] [|] [|] [|] [|] [|] [|] [|]]; vm_compute; congruence. }
  unfold FeatureRequest_new. rewrite Hal. cbn [negb].
  assert (Hx : (len x <= 50)%Z) by (apply Hl; unfold default_max_length; lia).
  destruct ((1 <=? len text)%Z && (len text <=? 500)%Z) eqn:Ht; cbn [negb].
  - destruct ((1 <=? len x)%Z && (len x <=? 50)%Z) eqn:Hs; cbn [negb]; [discriminate|].
    intros _. right.
    apply andb_false_iff in Hs as [Hs|Hs]; [|apply Z.leb_gt in Hs; lia].
    apply Z.leb_gt in Hs. destruct x; [reflexivity|].
    unfold len in Hs. cbn [length] in Hs. lia.
  - intros _. left. intros [H1 H2].
    apply andb_false_iff in Ht as [Ht|Ht]; apply Z.leb_gt in Ht; lia.
Qed.

Lemma wp_bind_ok {A B} (m : M A) (k : A -> M B) (post : Res B -> State -> Prop) st a st' :
  m st = (Ok a, st') -> wp (k a) post st' -> wp (bind m k) post st.
Proof. intros E H. unfold wp, bind. now rewrite E. Qed.

Lemma wp_bind_raise {A B} (m : M A) (k : A -> M B) (post : Res B -> State -> Prop)
    st e st' :
  m st = (Raise e, st') -> post (Raise e) st' -> wp (bind m k) post st.
Proof. intros E H. unfold wp, bind. now rewrite E. Qed.

(** X25. Exit code 3 is kept for the request: a run that ends with 3
    without having launched the assistant had a request that is blank,
    longer than 500 characters, or without anything the sanitizer keeps. *)
Theorem exit_3_only_for_bad_request (w : World) (text : str) (root : Node) :
  fst (cli w text (mkState root [])) = Raise (SystemExit 3) ->
  existsb is_launch (log (snd (cli w text (mkState root [])))) = false ->
  is_blank text = true
  \/ (500 < len text)%Z
  \/ sanitize_feature_name text default_max_length = [].
Proof.
  change (wp (cli w text)
            (fun r st' =>
               r = Raise (SystemExit 3) ->
               existsb is_launch (log st') = false ->
               is_blank text = true
               \/ (500 < len text)%Z
               \/ sanitize_feature_name text default_max_length = [])
            (mkState root [])).
  assert (Hinit : forallb is_preparation (log (mkState root [])) = true) by reflexivity.
  revert Hinit. generalize (mkState root []) as st. intros st Hinit.
  unfold cli.
  change (Str.eqb text [] || Str.eqb (strip text) []) with (is_blank text).
  destruct (is_blank text) eqn:Eb; [intros _ _; now left|].
  cbn [when].
  repeat stage_full is_preparation exits_1_2
    exits_of_stage
    ltac:(intros; apply early_is_preparation; assumption)
    ltac:(idtac; intros Hr _; injection Hr as ->; discriminate).
  cbv beta zeta.
  destruct (FeatureRequest_new text (sanitize_feature_name text default_max_length))
    as [fr|e] eqn:Efr.
  2:{ eapply wp_bind_raise.
      - unfold try_except, lift. rewrite (FeatureRequest_new_raises _ _ _ Efr).
        unfold echo_err, emit, sys_exit, raise, bind. reflexivity.
      - intros _ _. right.
        destruct (FeatureRequest_sanitized_rejected _ _ Efr) as [Hlen|Hempty];
          [left | now right].
        assert (Hne : text <> []) by (intros ->; discriminate Eb).
        destruct text as [|c t]; [congruence|].
        unfold len in *. cbn [length] in *. lia. }
  eapply wp_bind_ok; [reflexivity|].
  repeat stage_full is_preparation exits_1_2
    exits_of_stage
    ltac:(intros; apply early_is_preparation; assumption)
    ltac:(idtac; intros Hr _; injection Hr as ->; discriminate).
  cbv beta zeta. unfold wp, bind, try_except.
  match goal with
  | H : forallb is_preparation (log ?st) = true
    |- context [git_operations.create_worktree ?w ?p ?b ?base ?st] =>
      destruct (create_worktree_run w p b base st) as (r & E & [[Hok ->] | [Hfail [msg ->]]]);
      rewrite E; clear E
  end.
  - unfold echo, emit. cbn [fst snd fs log].
    rewrite launch_claude_code_eq. cbn [fst snd fs log sys_exit raise].
    intros _ Hl. exfalso. revert Hl.
    rewrite !existsb_app. cbn [existsb is_launch].
    rewrite !orb_false_r. intros Hl. apply orb_false_iff in Hl as [_ Hl].
    revert Hl. vm_compute. discriminate.
  - cbn [is_RuntimeError]. unfold echo_err, emit, sys_exit, raise.
    cbn [fst snd fs log]. intros Hr. discriminate Hr.
Qed.

Lemma exit_3_only_for_bad_request_witness :
  is_blank (s "?? !!") = true
  \/ (500 < len (s "?? !!"))%Z
  \/ sanitize_feature_name (s "?? !!") default_max_length = [].
Proof.
  apply (exit_3_only_for_bad_request demo_world (s "?? !!") demo_fs);
    vm_compute; reflexivity.
Defined.
